(** * Risk scoring engine of openweatherchallengeBE

    A shallow embedding of [app/core/risk_engine.py] (with the records of
    [app/models/schemas.py] it builds), and the properties its
    specification states about it.  The callers in [app/main.py] are
    embedded as well (the letter ratings, the scores and the hourly
    forecast of [health_risk]), with further properties of the engine
    and of these callers that the code itself shows.

    The engine computes with Python [int] and [float].  Integers are [Z].
    Floats are Python's [float] as it is, IEEE 754 binary64 with
    round-to-nearest-even, on Rocq's primitive floats (module [B64]):
    every definition there evaluates, bit for bit, to what CPython
    returns.  The numeric laws of the specification are proved of these
    definitions; where a law speaks of real numbers, [B2R] gives the
    real number a float stands for, and the rounding error of each
    binary64 operation is bounded from the definitions of [SpecFloat].

    Exceptions are values of [result]. *)

From Stdlib Require Import ZArith QArith Qround Bool List Ascii String Lia.
From Stdlib Require Import Floats.
From Stdlib Require Import Reals Lra Psatz.
Import ListNotations.

Set Warnings "-inexact-float".

(* ================================================================== *)
(** * Python runtime: exceptions *)

Inductive exn : Set :=
| ValueError
| OverflowError
| ZeroDivisionError.

Inductive result (A : Type) : Type :=
| Ok (a : A)
| Raise (e : exn).

Arguments Ok {A} a.
Arguments Raise {A} e.

Definition bind {A B : Type} (r : result A) (k : A -> result B) : result B :=
  match r with
  | Ok a => k a
  | Raise e => Raise e
  end.

Notation "x <- r ;; k" := (bind r (fun x => k))
  (at level 61, r at next level, right associativity).

Definition returns {A : Type} (r : result A) : bool :=
  match r with Ok _ => true | Raise _ => false end.

(* ================================================================== *)
(** * Python runtime: strings

    Condition labels are byte strings; [str.lower] is modelled on the
    ASCII letters, the only ones the keyword lists contain. *)

Open Scope string_scope.

Definition lower_ascii (c : ascii) : ascii :=
  let n := N_of_ascii c in
  if (65 <=? n)%N && (n <=? 90)%N then ascii_of_N (n + 32) else c.

(** [s.lower()] *)
Fixpoint lower (s : string) : string :=
  match s with
  | EmptyString => EmptyString
  | String c s' => String (lower_ascii c) (lower s')
  end.

(** [s.startswith(k)] *)
Fixpoint startswith (k s : string) : bool :=
  match k, s with
  | EmptyString, _ => true
  | String _ _, EmptyString => false
  | String a k', String b s' => Ascii.eqb a b && startswith k' s'
  end.

(** [k in s] for strings: [k] occurs in [s] as a contiguous substring. *)
Fixpoint contains (k s : string) : bool :=
  startswith k s ||
  match s with
  | EmptyString => false
  | String _ s' => contains k s'
  end.

(** [sep.join(l)] *)
Fixpoint join (sep : string) (l : list string) : string :=
  match l with
  | [] => EmptyString
  | [x] => x
  | x :: rest => x ++ sep ++ join sep rest
  end.

(** [any(k in s for k in keywords)] *)
Definition any_in (keywords : list string) (s : string) : bool :=
  existsb (fun k => contains k s) keywords.

(* ================================================================== *)
(** * Python runtime: integers and rounding of exact values *)

(** [round] of the exact rational [n / d], ties to the even integer. *)
Definition round_half_even_frac (n : Z) (d : positive) : Z :=
  let q := (n / Zpos d)%Z in
  let r := (n mod Zpos d)%Z in
  match (2 * r ?= Zpos d)%Z with
  | Lt => q
  | Gt => (q + 1)%Z
  | Eq => if Z.even q then q else (q + 1)%Z
  end.

Definition round_half_even (x : Q) : Z :=
  round_half_even_frac (Qnum x) (Qden x).

(* ================================================================== *)
(** * Records of [app/models/schemas.py] *)

Record Profile : Type := mkProfile {
  age : option Z;
  conditions : list string
}.

Record RiskScore : Type := mkRiskScore {
  level : string;
  score : Z
}.

Record Scores : Type := mkScores {
  asthma_risk : RiskScore;
  heat_risk : RiskScore;
  dehydration_risk : RiskScore;
  overall_risk : RiskScore
}.

(** [level_from_score]: the 0-5 internal score as one of four levels. *)
Definition level_from_score (score : Z) : string :=
  if (score <=? 1)%Z then "Low"
  else if (score =? 2)%Z then "Moderate"
  else if (score =? 3)%Z then "High"
  else "Very High".

(** The keyword lists of [combine_scores] and [build_contributing_factors]. *)
Definition resp_keywords : list string :=
  ["asthma"; "copd"; "bronchitis"; "respiratory"].
Definition cardio_keywords : list string :=
  ["heart"; "cardio"; "hypertension"; "cardiovascular"].

(** [base_map] of [score_air_pollution], a dict read with [.get(aqi, 0)]. *)
Definition base_map : list (Z * Z) :=
  [(1, 0); (2, 1); (3, 2); (4, 4); (5, 5)]%Z.

Fixpoint dict_get (d : list (Z * Z)) (k : Z) (default : Z) : Z :=
  match d with
  | [] => default
  | (k', v) :: d' => if (k =? k')%Z then v else dict_get d' k default
  end.

(* ================================================================== *)
(** * Python runtime: binary64 floats

    [float] is Rocq's primitive binary64; [+ - * /] and [sqrt] are the
    correctly rounded IEEE operations CPython uses, and a decimal literal
    denotes the nearest binary64 value, as in Python. *)

Module PyFloat.

Open Scope float_scope.

(** The binary64 value nearest to the exact rational [n / d] (ties to
    even; an infinity on overflow).  The quotient is taken with more than
    sixty bits and a sticky last bit, then rounded once. *)
Definition nearest (n : Z) (d : positive) : float :=
  match n with
  | Z0 => 0
  | _ =>
    let a := Z.abs n in
    let k := Z.max 0 (64 + Z.log2 (Zpos d) - Z.log2 a) in
    let q := (a * 2 ^ k / Zpos d)%Z in
    let r := (a * 2 ^ k mod Zpos d)%Z in
    let m := (2 * q + (if (r =? 0)%Z then 0 else 1))%Z in
    SF2Prim (binary_normalize prec emax (if (n <? 0)%Z then (- m)%Z else m)
                              (- k - 1) false)
  end.

(** Conversion of an [int] operand in mixed arithmetic ([int * float],
    [int / float]): the nearest float, or [OverflowError] ("int too large
    to convert to float") when the integer rounds to 2^1024 or beyond,
    that is from [2^1024 - 2^970] on, half way between the largest float
    and 2^1024. *)
Definition int_overflow : Z := (2 ^ 1024 - 2 ^ 970)%Z.

Definition of_int (z : Z) : result float :=
  if (Z.abs z <? int_overflow)%Z then Ok (nearest z 1)
  else Raise OverflowError.

(** The exact value of a finite float as a fraction. *)
Definition to_frac (x : float) : option (Z * positive) :=
  match Prim2SF x with
  | S754_zero _ => Some (0%Z, 1%positive)
  | S754_finite s m e =>
    let z := if s then Zneg m else Zpos m in
    match e with
    | Z0 => Some (z, 1%positive)
    | Zpos p => Some ((z * 2 ^ Zpos p)%Z, 1%positive)
    | Zneg p => Some (z, (2 ^ p)%positive)
    end
  | _ => None
  end.

(** [round(x)] with one argument: the nearest integer, ties to even;
    [ValueError] on a NaN and [OverflowError] on an infinity. *)
Definition round (x : float) : result Z :=
  match to_frac x with
  | Some (n, d) => Ok (round_half_even_frac n d)
  | None => if is_nan x then Raise ValueError else Raise OverflowError
  end.

(** [round(x, 1)]: the exact value of [x] rounded to one decimal place
    (ties to even), then the float nearest to that decimal; the sign of
    [x] is kept on a zero result, a NaN or an infinity is returned as it
    is. *)
Definition round1 (x : float) : float :=
  match to_frac x with
  | Some (n, d) =>
    let y := round_half_even_frac (10 * n) d in
    if (y =? 0)%Z then (if get_sign x then -0 else 0)
    else nearest y 10
  | None => x
  end.

(** [math.sqrt]: [ValueError] ("math domain error") below zero. *)
Definition sqrt (x : float) : result float :=
  if x <? 0 then Raise ValueError else Ok (PrimFloat.sqrt x).

(** [x / y] with a divisor that is not a literal: [ZeroDivisionError]
    when it compares equal to zero. *)
Definition div (x y : float) : result float :=
  if y =? 0 then Raise ZeroDivisionError else Ok (x / y).

(** [min(a, b)] and [max(a, b)]: the first argument unless the second is
    strictly smaller (resp. larger). *)
Definition min (a b : float) : float := if b <? a then b else a.
Definition max (a b : float) : float := if a <? b then b else a.

(** [x or default] for a float [x]: [x] is falsy when it equals zero. *)
Definition or_else (x default : float) : float :=
  if x =? 0 then default else x.

(** [x or default] for an optional float: [None] is falsy too. *)
Definition opt_or_else (x : option float) (default : float) : float :=
  match x with
  | None => default
  | Some v => or_else v default
  end.

End PyFloat.

(* ================================================================== *)
(** * Records of [app/models/schemas.py] that hold floats

    [F] is the type read for [float]. *)

Record RawWeather (F : Type) : Type := mkRawWeather {
  temperature_c : F;
  humidity : F;
  heat_index_c : F
}.

Record RawAirQuality (F : Type) : Type := mkRawAirQuality {
  aqi : Z;
  pm25 : option F;
  pm10 : option F;
  o3 : option F
}.

Record FactorContribution (F : Type) : Type := mkFactorContribution {
  factor : string;
  percentage : F
}.

Record ContributingFactors (F : Type) : Type := mkContributingFactors {
  asthma : list (FactorContribution F);
  heat : list (FactorContribution F);
  dehydration : list (FactorContribution F)
}.

Arguments mkRawWeather {F}.
Arguments temperature_c {F}.
Arguments humidity {F}.
Arguments heat_index_c {F}.
Arguments mkRawAirQuality {F}.
Arguments aqi {F}.
Arguments pm25 {F}.
Arguments pm10 {F}.
Arguments o3 {F}.
Arguments mkFactorContribution {F}.
Arguments factor {F}.
Arguments percentage {F}.
Arguments mkContributingFactors {F}.
Arguments asthma {F}.
Arguments heat {F}.
Arguments dehydration {F}.

(** [raw_weather.humidity], for use where [humidity] names a parameter. *)
Definition weather_humidity {F : Type} (w : RawWeather F) : F := humidity w.

(** Truth value of an [int]. *)
Definition int_truthy (z : Z) : bool := negb (z =? 0)%Z.

(** [profile.age and profile.age >= 65], as a truth value. *)
Definition age_and_ge_65 (a : option Z) : bool :=
  match a with
  | None => false
  | Some z => int_truthy z && (65 <=? z)%Z
  end.

(** [any(k in " ".join(c.lower() for c in conditions) for k in keywords)] *)
Definition has_keyword (keywords : list string) (conds : list string) : bool :=
  any_in keywords (join " " (map lower conds)).

(** The first lines of [combine_scores] (risk_engine.py 162-175): the
    age handed on to the dehydration scorer, and the [at_risk] flag.  A
    pydantic model is always truthy, so [if profile:] tests for [None]. *)
Definition profile_age (profile : option Profile) : option Z :=
  match profile with
  | Some p => age p
  | None => None
  end.

Definition at_risk (profile : option Profile) : bool :=
  match profile with
  | Some p =>
    let at_risk :=
      match age p with
      | Some a => (65 <=? a)%Z
      | None => false
      end in
    if has_keyword (resp_keywords ++ cardio_keywords) (conditions p)
    then true else at_risk
  | None => false
  end.

(* ================================================================== *)
(** * The engine on binary64 floats ([app/core/risk_engine.py]) *)

Module B64.

Import PyFloat.
Open Scope float_scope.

Definition compute_heat_index_c (temp_c humidity : float) : result float :=
  (* Convert C to F *)
  let T := temp_c * 9 / 5 + 32 in
  let R := humidity in
  hi_f <-
    (if T <? 80 then Ok T
     else
       (* NOAA / Rothfusz regression *)
       let hi_f :=
         -42.379
         + 2.04901523 * T
         + 10.14333127 * R
         - 0.22475541 * T * R
         - 0.00683783 * T * T
         - 0.05481717 * R * R
         + 0.00122874 * T * T * R
         + 0.00085282 * T * R * R
         - 0.00000199 * T * T * R * R in
       if (R <? 13) && ((80 <=? T) && (T <=? 112)) then
         root <- PyFloat.sqrt ((17 - abs (T - 95)) / 17) ;;
         Ok (hi_f - ((13 - R) / 4) * root)
       else if (85 <? R) && ((80 <=? T) && (T <=? 87)) then
         Ok (hi_f + ((R - 85) / 10) * ((87 - T) / 5))
       else Ok hi_f) ;;
  (* Back to C *)
  Ok ((hi_f - 32) * 5 / 9).

Definition score_air_pollution (aqi : Z) (pm25 o3 : option float) : Z :=
  let score := dict_get base_map aqi 0 in
  let score :=
    match pm25 with
    | Some v => if 35 <? v then Z.min 5 (score + 1) else score
    | None => score
    end in
  let score :=
    match o3 with
    | Some v => if 100 <? v then Z.min 5 (score + 1) else score
    | None => score
    end in
  score.

Definition score_heat (heat_index_c : float) : Z :=
  let hi_f := heat_index_c * 9 / 5 + 32 in
  if hi_f <? 80 then 0
  else if (80 <=? hi_f) && (hi_f <? 90) then 2
  else if (90 <=? hi_f) && (hi_f <? 103) then 3
  else if (103 <=? hi_f) && (hi_f <? 125) then 4
  else 5.

Definition compute_dehydration_risk
    (temperature_c humidity heat_index_c : float) (age : option Z)
    : RiskScore :=
  let s := 1%Z in
  (* Base on heat index *)
  let s := if 27 <=? heat_index_c then 2%Z else s in
  let s := if 32 <=? heat_index_c then 3%Z else s in
  let s := if 38 <=? heat_index_c then 4%Z else s in
  (* Slight bump if humidity is high *)
  let s := if (70 <=? humidity) && (s <? 4)%Z then (s + 1)%Z else s in
  (* Extra vulnerability for older adults *)
  let s :=
    match age with
    | Some a => if (65 <=? a)%Z && (s <? 4)%Z then (s + 1)%Z else s
    | None => s
    end in
  let s := Z.max 1 (Z.min s 4) in
  mkRiskScore (level_from_score s) s.

Definition compute_overall_risk
    (asthma_score heat_score dehydration_score : Z) : result RiskScore :=
  a <- of_int asthma_score ;;
  h <- of_int heat_score ;;
  d <- of_int dehydration_score ;;
  let weighted := a * 0.3 + h * 0.35 + d * 0.35 in
  avg_score <- PyFloat.round weighted ;;
  let avg_score := Z.max 1 (Z.min avg_score 4) in
  Ok (mkRiskScore (level_from_score avg_score) avg_score).

Definition combine_scores
    (air_score heat_score : Z)
    (temperature_c humidity heat_index_c : float)
    (profile : option Profile) : result Scores :=
  let asthma_score := air_score in
  let heat_score_final := heat_score in
  let age := profile_age profile in
  let asthma_score :=
    if at_risk profile then Z.min 5 (asthma_score + 1) else asthma_score in
  let heat_score_final :=
    if at_risk profile then Z.min 5 (heat_score_final + 1)
    else heat_score_final in
  (* Build individual risk scores *)
  let asthma_risk :=
    mkRiskScore (level_from_score asthma_score) asthma_score in
  let heat_risk :=
    mkRiskScore (level_from_score heat_score_final) heat_score_final in
  let dehydration_risk :=
    compute_dehydration_risk temperature_c humidity heat_index_c age in
  overall_risk <-
    compute_overall_risk (score asthma_risk) (score heat_risk)
                         (score dehydration_risk) ;;
  Ok (mkScores asthma_risk heat_risk dehydration_risk overall_risk).

Definition _clamp01 (x : float) : float :=
  PyFloat.max 0 (PyFloat.min 1 x).

(** The signal strengths of the three dimensions, as
    [build_contributing_factors] computes them in line. *)

(** Asthma / respiratory (risk_engine.py 225-242): PM2.5, ozone, profile. *)
Definition asthma_signals
    (raw_air : RawAirQuality float) (profile : option Profile)
    : float * float * float :=
  let pm25 := opt_or_else (pm25 raw_air) 0 in
  let o3 := opt_or_else (o3 raw_air) 0 in
  let s_pm25 := _clamp01 (pm25 / 60) in
  let s_o3 := _clamp01 (o3 / 150) in
  let profile_asthma :=
    match profile with
    | Some p =>
      if has_keyword resp_keywords (conditions p) || age_and_ge_65 (age p)
      then 1 else 0.2
    | None => 0.2
    end in
  (s_pm25, s_o3, profile_asthma).

(** Heat (risk_engine.py 254-268): heat index, humidity, profile. *)
Definition heat_signals
    (raw_weather : RawWeather float) (profile : option Profile)
    : float * float * float :=
  let hi := heat_index_c raw_weather in
  let humidity := humidity raw_weather in
  let s_hi := _clamp01 ((hi - 27) / (40 - 27)) in
  let s_hum := _clamp01 ((humidity - 40) / 50) in
  let profile_heat :=
    match profile with
    | Some p =>
      if has_keyword cardio_keywords (conditions p) || age_and_ge_65 (age p)
      then 1 else 0.2
    | None => 0.2
    end in
  (s_hi, s_hum, profile_heat).

(** Dehydration (risk_engine.py 282-289): heat index, humidity, age. *)
Definition dehydration_signals
    (raw_weather : RawWeather float) (profile : option Profile)
    : result (float * float * float) :=
  let hi := heat_index_c raw_weather in
  let humidity := humidity raw_weather in
  let age :=
    match profile_age profile with
    | Some a => a
    | None => 30%Z
    end in
  let s_hi_d := _clamp01 ((hi - 27) / (40 - 27)) in
  let s_hum_d := _clamp01 ((humidity - 50) / 40) in
  age_40 <- of_int (age - 40) ;;
  let s_age := _clamp01 (age_40 / 30) in
  Ok (s_hi_d, s_hum_d, s_age).

(** [total = s1 + s2 + s3 or 1.0] *)
Definition total_or_one (s : float * float * float) : float :=
  let '(s1, s2, s3) := s in
  or_else (s1 + s2 + s3) 1.

(** [round(s / total * 100, 1)] *)
Definition percent (s total : float) : result float :=
  q <- PyFloat.div s total ;;
  Ok (round1 (q * 100)).

(** The three percentages of one dimension (risk_engine.py 244-252,
    270-280, 291-299). *)
Definition percentages (s : float * float * float)
    : result (float * float * float) :=
  let '(s1, s2, s3) := s in
  let total := total_or_one s in
  p1 <- percent s1 total ;;
  p2 <- percent s2 total ;;
  p3 <- percent s3 total ;;
  Ok (p1, p2, p3).

Definition factors (names : string * string * string)
    (p : float * float * float) : list (FactorContribution float) :=
  let '(n1, n2, n3) := names in
  let '(p1, p2, p3) := p in
  [mkFactorContribution n1 p1; mkFactorContribution n2 p2;
   mkFactorContribution n3 p3].

Definition build_contributing_factors
    (raw_weather : RawWeather float) (raw_air : RawAirQuality float)
    (profile : option Profile) (scores : Scores)
    : result (ContributingFactors float) :=
  pa <- percentages (asthma_signals raw_air profile) ;;
  let asthma_factors :=
    factors ("PM2.5", "Ozone (O3)", "Profile (asthma/age)") pa in
  ph <- percentages (heat_signals raw_weather profile) ;;
  let heat_factors :=
    factors ("Heat Index", "Humidity", "Profile (age/heart/resp.)") ph in
  sd <- dehydration_signals raw_weather profile ;;
  pd <- percentages sd ;;
  let dehydration_factors :=
    factors ("Heat Index", "Humidity", "Age (65+)") pd in
  Ok (mkContributingFactors asthma_factors heat_factors dehydration_factors).

End B64.

(* ================================================================== *)
(* ================================================================== *)
(** * Callers in [app/main.py] *)

(** [score_to_rating] (main.py 73-87). *)
Definition score_to_rating (score : Z) : string :=
  if (score <=? 1)%Z then "A"
  else if (score =? 2)%Z then "B"
  else if (score =? 3)%Z then "C"
  else if (score =? 4)%Z then "D"
  else "E".

(** The letter rating [health_risk] computes in line from
    [overall_risk.score] (main.py 178-184). *)
Definition health_risk_rating (overall_score : Z) : string :=
  let rating := "A" in
  if (overall_score =? 2)%Z then "B"
  else if (overall_score =? 3)%Z then "C"
  else if (4 <=? overall_score)%Z then "D"
  else rating.

(** The scores [health_risk] builds for the current conditions
    (main.py 132-169): the heat index of the reading, the two component
    scores, then [combine_scores]. *)
Definition health_risk_scores
    (temp_c humidity : float) (raw_air : RawAirQuality float)
    (profile : option Profile) : result Scores :=
  hi_c <- B64.compute_heat_index_c temp_c humidity ;;
  let raw_weather := mkRawWeather temp_c humidity hi_c in
  let air_score :=
    B64.score_air_pollution (aqi raw_air) (pm25 raw_air) (o3 raw_air) in
  let heat_score_val := B64.score_heat hi_c in
  B64.combine_scores air_score heat_score_val
    (temperature_c raw_weather) (weather_humidity raw_weather)
    (heat_index_c raw_weather) profile.

(* ================================================================== *)
(** * The specification's own formulas

    Written after the words of the specification, to be compared with the
    functions above. *)

Module Spec.

(** Overall risk (spec 4.7): the weighted average in exact arithmetic,
    rounded half to even, clamped to 1..4. *)
Definition weighted_average (asthma heat dehydration : Z) : Q :=
  0.30 * inject_Z asthma + 0.35 * inject_Z heat + 0.35 * inject_Z dehydration.

Definition clamp (lo hi x : Z) : Z := Z.max lo (Z.min x hi).

Definition overall_score (asthma heat dehydration : Z) : Z :=
  clamp 1 4 (round_half_even (weighted_average asthma heat dehydration)).

(** Dehydration (spec 4.5): the highest heat-index breakpoint crossed,
    then the humidity bump, then the age bump, each against the score as
    it stands. *)
Definition dehydration_base (heat_index_c : float) : Z :=
  if (38 <=? heat_index_c)%float then 4
  else if (32 <=? heat_index_c)%float then 3
  else if (27 <=? heat_index_c)%float then 2
  else 1.

Definition bump (guard : bool) (s : Z) : Z :=
  if guard && (s <? 4)%Z then (s + 1)%Z else s.

Definition is_senior (age : option Z) : bool :=
  match age with
  | Some a => (65 <=? a)%Z
  | None => false
  end.

Definition dehydration_score
    (humidity heat_index_c : float) (age : option Z) : Z :=
  clamp 1 4
    (bump (is_senior age)
       (bump (70 <=? humidity)%float (dehydration_base heat_index_c))).

(** Air pollution (spec 4.2): the table, then two independent capped
    bumps. *)
Definition air_base (aqi : Z) : Z :=
  if (aqi =? 1)%Z then 0
  else if (aqi =? 2)%Z then 1
  else if (aqi =? 3)%Z then 2
  else if (aqi =? 4)%Z then 4
  else if (aqi =? 5)%Z then 5
  else 0.

Definition exceeds (x : option float) (threshold : float) : bool :=
  match x with
  | Some v => (threshold <? v)%float
  | None => false
  end.

Definition add_capped (guard : bool) (s : Z) : Z :=
  if guard then Z.min 5 (s + 1) else s.

Definition air_score (aqi : Z) (pm25 o3 : option float) : Z :=
  add_capped (exceeds o3 100) (add_capped (exceeds pm25 35) (air_base aqi)).

(** Profile sensitivity (spec 4.6): a label matches when, lower-cased, it
    contains a keyword. *)
Definition label_matches (keywords : list string) (label : string) : Prop :=
  exists k, In k keywords /\ contains k (lower label) = true.

Definition at_risk (profile : option Profile) : Prop :=
  exists p, profile = Some p /\
    ((exists a, age p = Some a /\ (65 <= a)%Z) \/
     (exists c, In c (conditions p) /\
                label_matches (resp_keywords ++ cardio_keywords) c)).

(** Level and score of a [RiskScore] agree. *)
Definition consistent (r : RiskScore) : Prop :=
  level r = level_from_score (score r).

(** Heat index (spec 4.1), in exact arithmetic; [T] is the temperature
    in Fahrenheit and [H] the relative humidity (the specification's R). *)
Definition celsius (f : R) : R := ((f - 32) * 5 / 9)%R.

Definition rothfusz (T H : R) : R :=
  (-42.379 + 2.04901523 * T + 10.14333127 * H - 0.22475541 * T * H
   - 0.00683783 * T ^ 2 - 0.05481717 * H ^ 2 + 0.00122874 * T ^ 2 * H
   + 0.00085282 * T * H ^ 2 - 0.00000199 * T ^ 2 * H ^ 2)%R.

End Spec.

(** Rank of a level, for comparing levels. *)
Definition level_rank (l : string) : Z :=
  if String.eqb l "Low" then 1
  else if String.eqb l "Moderate" then 2
  else if String.eqb l "High" then 3
  else if String.eqb l "Very High" then 4
  else 0.

(** The integers [lo, lo + 1, ..., lo + n - 1]. *)
Definition Zrange (lo : Z) (n : nat) : list Z :=
  map (fun i => (lo + Z.of_nat i)%Z) (seq 0 n).

(** Checkers evaluated over the finite range of scores. *)
Definition overall_agrees (a h d : Z) : bool :=
  match B64.compute_overall_risk a h d with
  | Ok r =>
    (score r =? Spec.overall_score a h d)%Z &&
    String.eqb (level r) (level_from_score (score r))
  | Raise _ => false
  end.

Definition forall_scores (P : Z -> Z -> Z -> bool) : bool :=
  forallb (fun a => forallb (fun h => forallb (fun d => P a h d)
    (Zrange 0 6)) (Zrange 0 6)) (Zrange 0 6).

(** Characters of a string, for the keyword lists: no keyword is empty
    or holds the separator of [" ".join]. *)
Definition space : ascii := " "%char.

Fixpoint has_char (c : ascii) (s : string) : bool :=
  match s with
  | EmptyString => false
  | String a s' => Ascii.eqb c a || has_char c s'
  end.

Definition plain_keywords (keywords : list string) : bool :=
  forallb (fun k => negb (has_char space k) && negb (String.eqb k ""))
          keywords.

(* ================================================================== *)
(** * The hourly forecast of [health_risk] ([app/main.py] 257-292) *)

(** One entry of [weather_json["hourly"]], as the loop reads it:
    [h.get("temp")], [h.get("humidity")], [h.get("dt")]. *)
Record Hourly : Type := mkHourly {
  h_temp : option float;
  h_humidity : option float;
  h_dt : option Z
}.

(** [ForecastPoint] of [app/models/schemas.py]; [D] is the type read for
    [datetime]. *)
Record ForecastPoint (D : Type) : Type := mkForecastPoint {
  time : D;
  asthma_risk_level : string;
  heat_risk_level : string;
  overall_risk_score : Z
}.

Arguments mkForecastPoint {D}.
Arguments time {D}.
Arguments asthma_risk_level {D}.
Arguments heat_risk_level {D}.
Arguments overall_risk_score {D}.

Section Forecast.

(** [datetime.fromtimestamp(h_dt, tz=timezone.utc)], which raises on a
    timestamp out of the platform's range. *)
Variable datetime : Type.
Variable fromtimestamp : Z -> result datetime.

(** The body of [for h in hourly:]; an entry that lacks a field is
    skipped ([continue]), an exception ends the loop. *)
Fixpoint forecast_loop (air_score : Z) (profile : option Profile)
    (hourly : list Hourly) : result (list (ForecastPoint datetime)) :=
  match hourly with
  | [] => Ok []
  | h :: rest =>
    match h_temp h, h_humidity h, h_dt h with
    | Some h_temp_c, Some h_humidity, Some h_dt =>
      (* Heat index and heat score for that hour *)
      h_hi_c <- B64.compute_heat_index_c h_temp_c h_humidity ;;
      let h_heat_score := B64.score_heat h_hi_c in
      (* Reuse current air score *)
      let h_air_score := air_score in
      h_scores <-
        B64.combine_scores h_air_score h_heat_score h_temp_c h_humidity
                           h_hi_c profile ;;
      time <- fromtimestamp h_dt ;;
      let point :=
        mkForecastPoint time (level (asthma_risk h_scores))
                        (level (heat_risk h_scores))
                        (score (overall_risk h_scores)) in
      forecast_points <- forecast_loop air_score profile rest ;;
      Ok (point :: forecast_points)
    | _, _, _ => forecast_loop air_score profile rest
    end
  end.

(** [hourly = weather_json.get("hourly", [])[:24]], then the loop. *)
Definition forecast (air_score : Z) (profile : option Profile)
    (hourly : list Hourly) : result (list (ForecastPoint datetime)) :=
  forecast_loop air_score profile (firstn 24 hourly).

(** What a forecast point owes to the hourly entry it is built from: its
    timestamp, the asthma level of the current air score, a heat level
    and an overall score of the engine. *)
Definition point_of (air_score : Z) (profile : option Profile)
    (h : Hourly) (pt : ForecastPoint datetime) : Prop :=
  (exists dt, h_dt h = Some dt /\ fromtimestamp dt = Ok (time pt)) /\
  asthma_risk_level pt
  = level_from_score
      (if at_risk profile then Z.min 5 (air_score + 1) else air_score) /\
  (1 <= level_rank (heat_risk_level pt) <= 4)%Z /\
  (1 <= overall_risk_score pt <= 4)%Z.

End Forecast.

Arguments forecast_loop {datetime}.
Arguments forecast {datetime}.
Arguments point_of {datetime}.

(** An hourly entry that has its three fields. *)
Definition complete (h : Hourly) : bool :=
  match h_temp h, h_humidity h, h_dt h with
  | Some _, Some _, Some _ => true
  | _, _, _ => false
  end.

(** A float that is not below zero: not a negative number and not minus
    infinity. *)
Definition not_neg (x : spec_float) : bool :=
  match x with
  | S754_infinity true | S754_finite true _ _ => false
  | _ => true
  end.

(** Checkers evaluated over the finite range of scores: the overall score
    lies between the least and the largest component (clamped to 1..4),
    and does not decrease when the components grow. *)
Definition overall_between (a h d : Z) : bool :=
  let s := Spec.overall_score a h d in
  (Spec.clamp 1 4 (Z.min a (Z.min h d)) <=? s)%Z &&
  (s <=? Spec.clamp 1 4 (Z.max a (Z.max h d)))%Z.

Definition overall_monotone (a h d : Z) : bool :=
  forall_scores (fun a' h' d' =>
    implb ((a <=? a')%Z && (h <=? h')%Z && (d <=? d')%Z)
          (Spec.overall_score a h d <=? Spec.overall_score a' h' d')%Z).

(* ================================================================== *)
(** * Real values of binary64 floats

    What the rounding-error analysis of the float operations speaks of:
    the real number a float stands for, and the integers the rounding of
    [SpecFloat] works on. *)

Open Scope R_scope.

(** The real number a float stands for (0 for an infinity or a NaN). *)
Definition bpow (z : Z) : R := powerRZ 2 z.

Definition sign_of (s : bool) : R := if s then -1 else 1.

Definition SF2R (x : spec_float) : R :=
  match x with
  | S754_finite s m e => sign_of s * IZR (Zpos m) * bpow e
  | _ => 0
  end.

Definition SFfinite (x : spec_float) : bool :=
  match x with
  | S754_zero _ | S754_finite _ _ _ => true
  | _ => false
  end.

(** The sign bit of a float that is not a NaN. *)
Definition sign_bit (x : spec_float) : bool :=
  match x with
  | S754_zero s | S754_infinity s | S754_finite s _ _ => s
  | S754_nan => false
  end.

(** Half a unit in the last place of 1, and half the least subnormal. *)
Definition u64 : R := bpow (-53).
Definition eta64 : R := bpow (-1075).

(** The value and the finiteness of a primitive float. *)
Definition B2R (x : float) : R := SF2R (Prim2SF x).
Definition finite (x : float) : bool := SFfinite (Prim2SF x).

(** [mrs] is the integer part of [N / D] with the position of the rest:
    the round bit says whether the rest is at least one half, the sticky
    bit whether it is neither zero nor one half. *)
Definition loc_inv (N D : Z) (mrs : shr_record) : Prop :=
  shr_m mrs = (N / D)%Z /\
  shr_r mrs = (D <=? 2 * (N mod D))%Z /\
  shr_s mrs = (negb (N mod D =? 0) && negb (2 * (N mod D) =? D))%Z.

(** The float of magnitude [k * 2 ^ E], for [k] up to [2 ^ 53]. *)
Definition SF_of (sx : bool) (k E : Z) : spec_float :=
  match k with
  | Zpos m =>
    if (k <? 2 ^ 53)%Z then S754_finite sx m E
    else S754_finite sx (Pos.div2 m) (E + 1)
  | _ => S754_zero sx
  end.

(** [x] stands for the real number [r] with a relative error of at most
    [k] half units in the last place. *)
Definition rel (x : float) (r k : R) : Prop :=
  finite x = true /\ Rabs (B2R x - r) <= k * u64 * Rabs r.

(** [x] stands for [r] with an error of at most [k * u64 * M], where [M]
    bounds the terms [r] is made of. *)
Definition approx (x : float) (r M k : R) : Prop :=
  finite x = true /\ Rabs (B2R x - r) <= k * u64 * M /\ Rabs r <= M.

(** The numerator and the denominator of a finite float. *)
Definition float_num (x : float) : Z :=
  match Prim2SF x with
  | S754_finite s m e =>
    (if s then Zneg m else Zpos m) * 2 ^ Z.max e 0
  | _ => 0
  end.

Definition float_den (x : float) : Z :=
  match Prim2SF x with
  | S754_finite s m e => 2 ^ Z.max (- e) 0
  | _ => 1
  end.

(** The literal [c] is the float nearest to [n / d] (within half a unit
    in the last place), resp. is [n / d]. *)
Definition lit_ok (c : float) (n : Z) (d : positive) : bool :=
  finite c &&
  (Z.abs (float_num c * Zpos d - n * float_den c) * 2 ^ 53
   <=? Z.abs n * float_den c)%Z.

Definition lit_exact (c : float) (n : Z) : bool :=
  finite c && (float_num c =? n * float_den c)%Z.

(* ================================================================== *)
(** * The specification's formulas on binary64 *)

(** The conversions and the two corrections of the heat index on
    binary64, after the words of the specification. *)
Definition fahrenheit_f (c : float) : float := (c * 9 / 5 + 32)%float.
Definition celsius_f (f : float) : float := ((f - 32) * 5 / 9)%float.

Definition low_band (T R : float) : bool :=
  ((R <? 13) && ((80 <=? T) && (T <=? 112)))%float.

Definition high_band (T R : float) : bool :=
  ((85 <? R) && ((80 <=? T) && (T <=? 87)))%float.

Definition low_humidity_correction_f (T R : float) : float :=
  ((13 - R) / 4 * PrimFloat.sqrt ((17 - abs (T - 95)) / 17))%float.

Definition high_humidity_correction_f (T R : float) : float :=
  ((R - 85) / 10 * ((87 - T) / 5))%float.

(** The Rothfusz regression as the code evaluates it on binary64, from
    left to right. *)
Definition regression (T R : float) : float :=
  (-42.379
   + 2.04901523 * T
   + 10.14333127 * R
   - 0.22475541 * T * R
   - 0.00683783 * T * T
   - 0.05481717 * R * R
   + 0.00122874 * T * T * R
   + 0.00085282 * T * R * R
   - 0.00000199 * T * T * R * R)%float.

(** The sum of the absolute values of the terms of the regression, for
    [T] and [H] that are not negative. *)
Definition rothfusz_abs (T H : R) : R :=
  42.379 + 2.04901523 * T + 10.14333127 * H + 0.22475541 * T * H
  + 0.00683783 * T ^ 2 + 0.05481717 * H ^ 2 + 0.00122874 * T ^ 2 * H
  + 0.00085282 * T * H ^ 2 + 0.00000199 * T ^ 2 * H ^ 2.

(** A whole number of tenths as [round(x, 1)] returns it: the float
    nearest to [y / 10]. *)
Definition tenths (y : Z) : float :=
  if (y =? 0)%Z then 0%float else PyFloat.nearest y 10.

(** [nearest y 10] is a positive float within 2^-46 of [y / 10]. *)
Definition tenth_ok (y : Z) : bool :=
  match Prim2SF (PyFloat.nearest y 10) with
  | S754_finite false m e =>
    (e <? 0)%Z &&
    (Z.abs (10 * Zpos m - y * 2 ^ (- e)) * 2 ^ 46 <=? 10 * 2 ^ (- e))%Z
  | _ => false
  end.

(** A signal strength: the float 0, or a float above 0 and at most 1. *)
Definition is_signal (s : float) : Prop :=
  s = 0%float \/ ((0 <? s)%float = true /\ (s <=? 1)%float = true).

(** Every signal of a dimension is zero. *)
Definition all_zero (s : float * float * float) : bool :=
  let '(s1, s2, s3) := s in
  ((s1 =? 0) && (s2 =? 0) && (s3 =? 0))%float.

(** [y] tenths are the share of the signal [s] in the sum of the
    signals, out of 1000, rounded to a whole number. *)
Definition share_of (y : Z) (s : float) (sig : float * float * float) : Prop :=
  let '(s1, s2, s3) := sig in
  (0 <= y <= 1000)%Z /\
  Rabs (IZR y - 1000 * (B2R s / (B2R s1 + B2R s2 + B2R s3)))
  <= 1 / 2 + bpow (-40).

(** What the claim says of the percentages [p] of a dimension with the
    signals [s], read on binary64: with every signal zero the divisor is
    1.0 and every percentage is 0; otherwise the divisor is the sum,
    each percentage is [round(signal / sum * 100, 1)], a whole number of
    tenths that is the share of the signal, the tenths add up to 999,
    1000 or 1001, and the three floats add up to 100 within 0.1 and a
    rounding error, whether added exactly or in binary64. *)
Definition dimension_ok (s p : float * float * float) : Prop :=
  let '(s1, s2, s3) := s in
  let '(p1, p2, p3) := p in
  (all_zero s = true ->
   B64.total_or_one s = 1%float /\ p = (0, 0, 0)%float) /\
  (all_zero s = false ->
   B64.total_or_one s = (s1 + s2 + s3)%float /\
   p = (PyFloat.round1 (s1 / (s1 + s2 + s3) * 100),
        PyFloat.round1 (s2 / (s1 + s2 + s3) * 100),
        PyFloat.round1 (s3 / (s1 + s2 + s3) * 100))%float /\
   exists y1 y2 y3 : Z,
     p = (tenths y1, tenths y2, tenths y3) /\
     share_of y1 s1 s /\ share_of y2 s2 s /\ share_of y3 s3 s /\
     (999 <= y1 + y2 + y3 <= 1001)%Z /\
     Rabs (B2R p1 + B2R p2 + B2R p3 - 100) <= 0.1 + bpow (-44) /\
     finite (p1 + p2 + p3) = true /\
     Rabs (B2R (p1 + p2 + p3) - 100) <= 0.1 + bpow (-43)).

(** Percentages of one dimension that lie between 0 and 100. *)
Definition in_range (p : float * float * float) : bool :=
  let '(p1, p2, p3) := p in
  ((0 <=? p1) && (p1 <=? 100) && ((0 <=? p2) && (p2 <=? 100))
   && ((0 <=? p3) && (p3 <=? 100)))%float.

Definition tenth_in_range (y : Z) : bool :=
  ((0 <=? tenths y) && (tenths y <=? 100))%float.

(** The age signal of the dehydration dimension for the age [a]: zero up
    to 40, one from 70 on, strictly between in between. *)
Definition age_signal_ok (a : Z) : bool :=
  let x := (PyFloat.nearest (a - 40) 1 / 30)%float in
  if (a <=? 40)%Z then negb (0 <? PyFloat.min 1 x)%float
  else if (70 <=? a)%Z then negb (x <? 1)%float
  else ((0 <? x) && (x <? 1))%float.

Close Scope R_scope.

(* ================================================================== *)
(** * Properties *)

Lemma level_from_score_cases (s : Z) :
  ((s <= 1)%Z -> level_from_score s = "Low"%string) /\
  (s = 2%Z -> level_from_score s = "Moderate"%string) /\
  (s = 3%Z -> level_from_score s = "High"%string) /\
  ((4 <= s)%Z -> level_from_score s = "Very High"%string).
Proof.
  unfold level_from_score.
  repeat split; intros H.
  - apply Z.leb_le in H. now rewrite H.
  - subst s. reflexivity.
  - subst s. reflexivity.
  - destruct (Z.leb_spec s 1); [lia|].
    destruct (Z.eqb_spec s 2); [lia|].
    destruct (Z.eqb_spec s 3); [lia|]. reflexivity.
Qed.

Lemma clamp_bounds (x : Z) : (1 <= Spec.clamp 1 4 x <= 4)%Z.
Proof. unfold Spec.clamp. lia. Qed.

(** C2: [compute_dehydration_risk] starts from 1, takes the highest
    heat-index breakpoint crossed (27 -> 2, 32 -> 3, 38 -> 4), adds one
    for a humidity of 70 or more when the score is below 4, then one for
    a known age of 65 or more when the score, as it then stands, is below
    4, and clamps to 1..4; the level is that of the score.  Temperature
    35, humidity 75, heat index 33, age 70 give score 4, "Very High". *)
Theorem C2_dehydration (temperature_c humidity heat_index_c : float) (age : option Z) :
  let s := Spec.dehydration_score humidity heat_index_c age in
  B64.compute_dehydration_risk temperature_c humidity heat_index_c age
    = mkRiskScore (level_from_score s) s /\
  (1 <= s <= 4)%Z /\
  B64.compute_dehydration_risk 35 75 33 (Some 70%Z)
    = mkRiskScore "Very High" 4.
Proof.
  cbv zeta. split; [|split].
  - unfold B64.compute_dehydration_risk, Spec.dehydration_score,
      Spec.dehydration_base, Spec.bump, Spec.is_senior, Spec.clamp.
    destruct (38 <=? heat_index_c)%float, (32 <=? heat_index_c)%float,
      (27 <=? heat_index_c)%float, (70 <=? humidity)%float;
      destruct age as [a|]; try destruct (65 <=? a)%Z; reflexivity.
  - apply clamp_bounds.
  - vm_compute. reflexivity.
Qed.

(** C3: [score_air_pollution] is the table 1 -> 0, 2 -> 1, 3 -> 2,
    4 -> 4, 5 -> 5 (any other AQI gives 0), plus one capped at 5 when
    PM2.5 is present and above 35, plus one capped at 5 when ozone is
    present and above 100, the two bumps being independent.  AQI 1 gives
    0, AQI 3 gives 2, AQI 5 with PM2.5 50 and ozone 150 gives 5. *)
Theorem C3_air (aqi : Z) (pm25 o3 : option float) :
  B64.score_air_pollution aqi pm25 o3 = Spec.air_score aqi pm25 o3 /\
  ((aqi < 1 \/ 5 < aqi)%Z -> Spec.air_base aqi = 0%Z) /\
  B64.score_air_pollution 1 None None = 0%Z /\
  B64.score_air_pollution 3 None None = 2%Z /\
  B64.score_air_pollution 5 (Some 50%float) (Some 150%float) = 5%Z.
Proof.
  split; [|split; [|repeat split; vm_compute; reflexivity]].
  - unfold B64.score_air_pollution, Spec.air_score, Spec.add_capped, Spec.exceeds, Spec.air_base.
    simpl dict_get.
    destruct pm25, o3; reflexivity.
  - intros H. unfold Spec.air_base.
    repeat match goal with |- context [(aqi =? ?k)%Z] => destruct (Z.eqb_spec aqi k); [lia|] end.
    reflexivity.
Qed.

Lemma C3_witness :
  Spec.air_base 9 = 0%Z /\ B64.score_air_pollution 9 None None = 0%Z.
Proof.
  split.
  - apply (proj1 (proj2 (C3_air 9 None None))). right. lia.
  - rewrite (proj1 (C3_air 9 None None)). reflexivity.
Defined.

Lemma In_Zrange (lo x : Z) (n : nat) :
  (lo <= x < lo + Z.of_nat n)%Z -> In x (Zrange lo n).
Proof.
  intros H. unfold Zrange. apply in_map_iff.
  exists (Z.to_nat (x - lo)). split; [lia|].
  apply in_seq. lia.
Qed.

Lemma forall_scores_spec (P : Z -> Z -> Z -> bool) :
  forall_scores P = true ->
  forall a h d, (0 <= a <= 5)%Z -> (0 <= h <= 5)%Z -> (0 <= d <= 5)%Z ->
  P a h d = true.
Proof.
  unfold forall_scores. intros H a h d Ha Hh Hd.
  rewrite forallb_forall in H.
  specialize (H a (In_Zrange 0 a 6 ltac:(lia))).
  rewrite forallb_forall in H.
  specialize (H h (In_Zrange 0 h 6 ltac:(lia))).
  rewrite forallb_forall in H.
  exact (H d (In_Zrange 0 d 6 ltac:(lia))).
Qed.

Lemma overall_agrees_all : forall_scores overall_agrees = true.
Proof. vm_compute. reflexivity. Qed.

Lemma riskscore_eta (r : RiskScore) (s : Z) :
  score r = s -> level r = level_from_score (score r) ->
  r = mkRiskScore (level_from_score s) s.
Proof. destruct r; simpl; intros; subst; reflexivity. Qed.

Lemma overall_risk_spec (a h d : Z) :
  (0 <= a <= 5)%Z -> (0 <= h <= 5)%Z -> (0 <= d <= 5)%Z ->
  let s := Spec.overall_score a h d in
  B64.compute_overall_risk a h d = Ok (mkRiskScore (level_from_score s) s).
Proof.
  intros Ha Hh Hd s.
  pose proof (forall_scores_spec _ overall_agrees_all a h d Ha Hh Hd) as H.
  unfold overall_agrees in H.
  destruct (B64.compute_overall_risk a h d) as [r|e]; [|discriminate].
  apply andb_true_iff in H. destruct H as [H1 H2].
  apply Z.eqb_eq in H1. apply String.eqb_eq in H2.
  f_equal. now apply riskscore_eta.
Qed.

(** C1: for component scores in 0..5, the range of the component
    scorers, [compute_overall_risk] returns the score
    [clamp (round (0.30 a + 0.35 h + 0.35 d)) 1 4], the weighted average
    being the exact one and [round] rounding half to even, with the level
    [level_from_score] gives that score.  The code computes the average
    on binary64; on 0..5 the two agree. *)
Theorem C1_overall_risk (a h d : Z) :
  (0 <= a <= 5)%Z -> (0 <= h <= 5)%Z -> (0 <= d <= 5)%Z ->
  let s := Spec.overall_score a h d in
  B64.compute_overall_risk a h d = Ok (mkRiskScore (level_from_score s) s).
Proof. apply overall_risk_spec. Qed.

Lemma C1_witness :
  B64.compute_overall_risk 2 3 3 = Ok (mkRiskScore "High" 3).
Proof. apply (C1_overall_risk 2 3 3); lia. Defined.

(** ** Strings *)

Lemma startswith_append_space (k s1 s2 : string) :
  has_char space k = false -> k <> "" ->
  startswith k (s1 ++ String space s2) = startswith k s1.
Proof.
  revert s1. induction k as [|c k IH]; intros s1 Hk Hne; [congruence|].
  cbn [has_char] in Hk. apply orb_false_iff in Hk. destruct Hk as [Hc Hk].
  destruct s1 as [|a s1]; cbn [append startswith].
  - rewrite Ascii.eqb_sym, Hc. reflexivity.
  - destruct (Ascii.eqb c a); cbn [andb]; [|reflexivity].
    destruct k as [|c' k']; [reflexivity|].
    apply IH; [exact Hk|discriminate].
Qed.

Lemma contains_nil (k : string) : k <> "" -> contains k "" = false.
Proof. destruct k; [congruence|reflexivity]. Qed.

Lemma contains_append_space (k s1 s2 : string) :
  has_char space k = false -> k <> "" ->
  contains k (s1 ++ String space s2) = contains k s1 || contains k s2.
Proof.
  intros Hk Hne. induction s1 as [|a s1 IH].
  - rewrite contains_nil by assumption. simpl.
    change (String space s2) with ("" ++ String space s2).
    rewrite startswith_append_space by assumption.
    destruct k; [congruence|reflexivity].
  - change (String a s1 ++ String space s2) with (String a (s1 ++ String space s2)).
    cbn [contains].
    change (String a (s1 ++ String space s2)) with (String a s1 ++ String space s2).
    rewrite startswith_append_space by assumption.
    rewrite IH. now rewrite orb_assoc.
Qed.

Lemma contains_join (k : string) (l : list string) :
  has_char space k = false -> k <> "" ->
  contains k (join " " l) = existsb (contains k) l.
Proof.
  intros Hk Hne. induction l as [|x l IH].
  - cbn [join existsb]. now apply contains_nil.
  - destruct l as [|y l].
    + cbn [join existsb]. now rewrite orb_false_r.
    + change (join " " (x :: y :: l)) with (x ++ String space (join " " (y :: l))).
      rewrite contains_append_space by assumption.
      rewrite IH. reflexivity.
Qed.

Lemma keywords_space_free :
  plain_keywords (resp_keywords ++ cardio_keywords) = true.
Proof. reflexivity. Qed.

Lemma keyword_contains_join (keywords : list string) (l : list string) :
  plain_keywords keywords = true ->
  any_in keywords (join " " l) = true <->
  exists c k, In c l /\ In k keywords /\ contains k c = true.
Proof.
  intros Hkw. unfold any_in. rewrite existsb_exists.
  unfold plain_keywords in Hkw. rewrite forallb_forall in Hkw.
  split.
  - intros [k [Hin Hc]].
    specialize (Hkw k Hin). apply andb_true_iff in Hkw. destruct Hkw as [H1 H2].
    apply negb_true_iff in H1, H2. apply String.eqb_neq in H2.
    rewrite contains_join in Hc by assumption.
    apply existsb_exists in Hc. destruct Hc as [c [Hcl Hcc]].
    exists c, k. auto.
  - intros [c [k [Hcl [Hin Hcc]]]].
    exists k. split; [assumption|].
    specialize (Hkw k Hin). apply andb_true_iff in Hkw. destruct Hkw as [H1 H2].
    apply negb_true_iff in H1, H2. apply String.eqb_neq in H2.
    rewrite contains_join by assumption.
    apply existsb_exists. exists c. auto.
Qed.

Lemma has_keyword_spec (keywords conds : list string) :
  plain_keywords keywords = true ->
  has_keyword keywords conds = true <->
  exists c, In c conds /\ Spec.label_matches keywords c.
Proof.
  intros Hkw. unfold has_keyword. rewrite keyword_contains_join by assumption.
  unfold Spec.label_matches. split.
  - intros [c [k [Hc [Hk Hcc]]]].
    apply in_map_iff in Hc. destruct Hc as [c0 [Heq Hc0]]. subst c.
    exists c0. split; [assumption|]. exists k. auto.
  - intros [c [Hc [k [Hk Hcc]]]].
    exists (lower c), k. split; [|auto]. apply in_map. assumption.
Qed.

Lemma at_risk_spec (profile : option Profile) :
  at_risk profile = true <-> Spec.at_risk profile.
Proof.
  unfold at_risk, Spec.at_risk. destruct profile as [p|].
  - pose proof (has_keyword_spec (resp_keywords ++ cardio_keywords) (conditions p)
                  keywords_space_free) as Hk.
    destruct (has_keyword (resp_keywords ++ cardio_keywords) (conditions p)).
    + split; [intros _|reflexivity].
      exists p. split; [reflexivity|]. right. apply Hk. reflexivity.
    + split.
      * intros H. exists p. split; [reflexivity|]. left.
        destruct (age p) as [a|]; [|discriminate].
        exists a. split; [reflexivity|]. now apply Z.leb_le.
      * intros [p' [Heq [[a [Ha Hle]]|Hc]]]; inversion Heq; subst p'.
        -- rewrite Ha. now apply Z.leb_le.
        -- apply Hk in Hc. discriminate.
  - split; [discriminate|]. intros [p [H _]]. discriminate.
Qed.

Lemma dehydration_risk_spec (t h hi : float) (a : option Z) :
  B64.compute_dehydration_risk t h hi a
  = mkRiskScore (level_from_score (Spec.dehydration_score h hi a))
                (Spec.dehydration_score h hi a).
Proof.
  unfold B64.compute_dehydration_risk, Spec.dehydration_score,
    Spec.dehydration_base, Spec.bump, Spec.is_senior, Spec.clamp.
  destruct (38 <=? hi)%float, (32 <=? hi)%float, (27 <=? hi)%float,
    (70 <=? h)%float; destruct a as [a|]; try destruct (65 <=? a)%Z;
    reflexivity.
Qed.

Lemma dehydration_score_bounds (h hi : float) (a : option Z) :
  (1 <= Spec.dehydration_score h hi a <= 4)%Z.
Proof. apply clamp_bounds. Qed.

Lemma overall_risk_consistent (a h d : Z) (r : RiskScore) :
  B64.compute_overall_risk a h d = Ok r -> Spec.consistent r.
Proof.
  unfold B64.compute_overall_risk, bind.
  destruct (PyFloat.of_int a); [|discriminate].
  destruct (PyFloat.of_int h); [|discriminate].
  destruct (PyFloat.of_int d); [|discriminate].
  destruct (PyFloat.round _); [|discriminate].
  intros H. inversion H. reflexivity.
Qed.

Lemma overall_risk_bounds (a h d : Z) (r : RiskScore) :
  B64.compute_overall_risk a h d = Ok r -> (1 <= score r <= 4)%Z.
Proof.
  unfold B64.compute_overall_risk, bind.
  destruct (PyFloat.of_int a); [|discriminate].
  destruct (PyFloat.of_int h); [|discriminate].
  destruct (PyFloat.of_int d); [|discriminate].
  destruct (PyFloat.round _); [|discriminate].
  intros H. inversion H. simpl. lia.
Qed.

(** What [combine_scores] returns, component by component. *)
Lemma combine_scores_inv (air heat : Z) (t h hi : float)
    (profile : option Profile) (sc : Scores) :
  B64.combine_scores air heat t h hi profile = Ok sc ->
  let A := if at_risk profile then Z.min 5 (air + 1) else air in
  let H := if at_risk profile then Z.min 5 (heat + 1) else heat in
  asthma_risk sc = mkRiskScore (level_from_score A) A /\
  heat_risk sc = mkRiskScore (level_from_score H) H /\
  dehydration_risk sc
    = B64.compute_dehydration_risk t h hi (profile_age profile) /\
  B64.compute_overall_risk (score (asthma_risk sc)) (score (heat_risk sc))
      (score (dehydration_risk sc)) = Ok (overall_risk sc).
Proof.
  unfold B64.combine_scores, bind. cbv zeta.
  destruct (B64.compute_overall_risk _ _ _) as [o|e] eqn:Ho; [|discriminate].
  intros H. inversion H. subst sc. clear H. cbn [asthma_risk heat_risk dehydration_risk overall_risk].
  repeat split; try reflexivity. exact Ho.
Qed.


(** C5: [combine_scores] takes the profile to be at risk exactly when
    the age is 65 or more or some condition label, lower-cased, contains
    a respiratory or cardiovascular keyword.  When at risk, the asthma
    score is [min 5 (air_score + 1)] and the heat score
    [min 5 (heat_score + 1)]; otherwise they are the scores given.  The
    dehydration score is that of [compute_dehydration_risk] on the
    readings and the age, and the overall score that of
    [compute_overall_risk] on the three component scores. *)
Theorem C5_profile_sensitivity
    (air heat : Z) (t h hi : float) (profile : option Profile) (sc : Scores) :
  B64.combine_scores air heat t h hi profile = Ok sc ->
  (Spec.at_risk profile ->
     asthma_risk sc = mkRiskScore (level_from_score (Z.min 5 (air + 1)))
                                  (Z.min 5 (air + 1)) /\
     heat_risk sc = mkRiskScore (level_from_score (Z.min 5 (heat + 1)))
                                (Z.min 5 (heat + 1))) /\
  (~ Spec.at_risk profile ->
     asthma_risk sc = mkRiskScore (level_from_score air) air /\
     heat_risk sc = mkRiskScore (level_from_score heat) heat) /\
  dehydration_risk sc
    = B64.compute_dehydration_risk t h hi (profile_age profile) /\
  B64.compute_overall_risk (score (asthma_risk sc)) (score (heat_risk sc))
      (score (dehydration_risk sc)) = Ok (overall_risk sc).
Proof.
  intros H. apply combine_scores_inv in H. cbv zeta in H.
  destruct H as [Ha [Hh [Hd Ho]]].
  pose proof (at_risk_spec profile) as Hr.
  destruct (at_risk profile).
  - split; [intros _; split; assumption|].
    split; [|split; assumption].
    intros Hn. exfalso. apply Hn. apply Hr. reflexivity.
  - split; [intros Hs; apply Hr in Hs; discriminate|].
    split; [intros _; split; assumption|split; assumption].
Qed.

Lemma C5_witness :
  let p := Some (mkProfile (Some 70%Z) ["Mild ASTHMA"]) in
  exists sc,
    B64.combine_scores 2 3 35 75 33 p = Ok sc /\
    asthma_risk sc = mkRiskScore "High" 3 /\
    heat_risk sc = mkRiskScore "Very High" 4.
Proof.
  cbv zeta. eexists. split; [vm_compute; reflexivity|].
  apply (C5_profile_sensitivity 2 3 35 75 33
           (Some (mkProfile (Some 70%Z) ["Mild ASTHMA"])) _ eq_refl).
  exists (mkProfile (Some 70%Z) ["Mild ASTHMA"]). split; [reflexivity|].
  left. exists 70%Z. split; [reflexivity|lia].
Defined.

(** C6: [level_from_score] is total, with [s <= 1] "Low", 2 "Moderate",
    3 "High" and [4 <= s] "Very High"; every [RiskScore] the engine
    builds (by [compute_dehydration_risk], by [compute_overall_risk], and
    the four entries of the [Scores] of [combine_scores]) has the level
    of its score. *)
Theorem C6_levels_consistent :
  (forall s : Z,
     ((s <= 1)%Z -> level_from_score s = "Low") /\
     (s = 2%Z -> level_from_score s = "Moderate") /\
     (s = 3%Z -> level_from_score s = "High") /\
     ((4 <= s)%Z -> level_from_score s = "Very High")) /\
  (forall t h hi a, Spec.consistent (B64.compute_dehydration_risk t h hi a)) /\
  (forall a h d r,
     B64.compute_overall_risk a h d = Ok r -> Spec.consistent r) /\
  (forall air heat t h hi profile sc,
     B64.combine_scores air heat t h hi profile = Ok sc ->
     Spec.consistent (asthma_risk sc) /\ Spec.consistent (heat_risk sc) /\
     Spec.consistent (dehydration_risk sc) /\
     Spec.consistent (overall_risk sc)).
Proof.
  split; [exact level_from_score_cases|].
  split; [intros; rewrite dehydration_risk_spec; reflexivity|].
  split; [exact overall_risk_consistent|].
  intros air heat t h hi profile sc H.
  apply combine_scores_inv in H. cbv zeta in H.
  destruct H as [Ha [Hh [Hd Ho]]].
  unfold Spec.consistent.
  rewrite Ha at 1 2. rewrite Hh at 1 2. rewrite Hd at 1 2.
  rewrite dehydration_risk_spec. cbn [level score].
  repeat split; try reflexivity.
  eapply overall_risk_consistent, Ho.
Qed.

Lemma C6_witness :
  level_from_score 100 = "Very High" /\
  Spec.consistent (mkRiskScore "Very High" 4).
Proof.
  split.
  - apply (proj1 C6_levels_consistent 100%Z). lia.
  - apply (proj1 (proj2 (proj2 C6_levels_consistent)) 0%Z 5%Z 5%Z).
    vm_compute. reflexivity.
Defined.

Open Scope R_scope.

(** ** Monotonicity of the regression in the humidity *)

(** The slope of [rothfusz T] between two humidities of sum [S] is
    [slope T S]; it is linear in [S], and positive at both ends of the
    band, [S = 26] and [S = 170]. *)
Lemma rothfusz_difference (T H1 H2 : R) :
  Spec.rothfusz T H2 - Spec.rothfusz T H1 =
  (H2 - H1) *
  ((10.14333127 - 0.22475541 * T + 0.00122874 * T ^ 2)
   + (0.00085282 * T - 0.05481717 - 0.00000199 * T ^ 2) * (H1 + H2)).
Proof. unfold Spec.rothfusz. field. Qed.

Lemma slope_at_26 (T : R) :
  80 <= T ->
  0 <= (10.14333127 - 0.22475541 * T + 0.00122874 * T ^ 2)
       + (0.00085282 * T - 0.05481717 - 0.00000199 * T ^ 2) * 26.
Proof.
  intros H. pose proof (pow2_ge_0 (T - 86.0587)) as Hsq. nra.
Qed.

Lemma slope_at_170 (T : R) :
  80 <= T ->
  0 <= (10.14333127 - 0.22475541 * T + 0.00122874 * T ^ 2)
       + (0.00085282 * T - 0.05481717 - 0.00000199 * T ^ 2) * 170.
Proof. intros H. nra. Qed.

Lemma rothfusz_monotone (T H1 H2 : R) :
  80 <= T -> 13 <= H1 -> H1 <= H2 -> H2 <= 85 ->
  Spec.rothfusz T H1 <= Spec.rothfusz T H2.
Proof.
  intros HT Hlo Hle Hhi.
  assert (D : 0 <= Spec.rothfusz T H2 - Spec.rothfusz T H1); [|lra].
  rewrite rothfusz_difference.
  apply Rmult_le_pos; [lra|].
  pose proof (slope_at_26 T HT) as H26.
  pose proof (slope_at_170 T HT) as H170.
  set (A := 10.14333127 - 0.22475541 * T + 0.00122874 * T ^ 2) in *.
  set (B := 0.00085282 * T - 0.05481717 - 0.00000199 * T ^ 2) in *.
  assert (E : A + B * (H1 + H2)
    = ((170 - (H1 + H2)) * (A + B * 26) + ((H1 + H2) - 26) * (A + B * 170)) / 144)
    by field.
  rewrite E.
  apply Rmult_le_pos; [|lra].
  apply Rplus_le_le_0_compat; apply Rmult_le_pos; lra.
Qed.

Lemma Rabs_le_bounds (x a : R) : Rabs x <= a -> - a <= x <= a.
Proof. unfold Rabs. destruct (Rcase_abs x); lra. Qed.

(** ** The functions of the binary64 engine return *)

Lemma of_int_returns (z : Z) :
  (Z.abs z < PyFloat.int_overflow)%Z ->
  PyFloat.of_int z = Ok (PyFloat.nearest z 1).
Proof.
  intros H. unfold PyFloat.of_int.
  apply Z.ltb_lt in H. now rewrite H.
Qed.

Lemma percent_returns (s total : float) :
  (total =? 0)%float = false ->
  B64.percent s total = Ok (PyFloat.round1 (s / total * 100)%float).
Proof.
  intros H. unfold B64.percent, PyFloat.div. now rewrite H.
Qed.

Lemma total_or_one_nonzero (s : float * float * float) :
  (B64.total_or_one s =? 0)%float = false.
Proof.
  destruct s as [[s1 s2] s3]. unfold B64.total_or_one, PyFloat.or_else.
  destruct (s1 + s2 + s3 =? 0)%float eqn:E; [reflexivity|exact E].
Qed.

Lemma percentages_returns (s : float * float * float) :
  returns (B64.percentages s) = true.
Proof.
  pose proof (total_or_one_nonzero s) as H.
  destruct s as [[s1 s2] s3]. unfold B64.percentages.
  rewrite !percent_returns by exact H. reflexivity.
Qed.




Open Scope float_scope.

(** ** Binary64 arithmetic under the guard of the square root *)

Lemma iter_xO_Z (p d : positive) :
  Zpos (Pos.iter xO p d) = (Zpos p * 2 ^ Zpos d)%Z.
Proof.
  induction d as [|d IH] using Pos.peano_ind.
  - cbn [Pos.iter]. lia.
  - rewrite Pos.iter_succ, Pos2Z.inj_xO, IH, Pos2Z.inj_succ, Z.pow_succ_r by lia.
    ring.
Qed.

Lemma digits2_iter_xO (p d : positive) :
  digits2_pos (Pos.iter xO p d) = (digits2_pos p + d)%positive.
Proof.
  induction d as [|d IH] using Pos.peano_ind.
  - cbn [Pos.iter digits2_pos]. lia.
  - rewrite Pos.iter_succ. cbn [digits2_pos]. rewrite IH. lia.
Qed.

Lemma digits2_size (p : positive) : digits2_pos p = Pos.size p.
Proof. induction p; cbn [digits2_pos Pos.size]; congruence. Qed.

Lemma digits2_bound (p : positive) (k : Z) :
  (0 <= k)%Z -> (Zpos p < 2 ^ k)%Z -> (Zpos (digits2_pos p) <= k)%Z.
Proof.
  intros Hk Hp. rewrite digits2_size.
  pose proof (Pos.size_le p) as H.
  apply Pos2Z.pos_le_pos in H. rewrite Pos2Z.inj_pow in H.
  assert (L : (2 ^ Zpos (Pos.size p) < 2 ^ (k + 1))%Z).
  { rewrite Z.pow_add_r, Z.pow_1_r by lia. lia. }
  apply Z.pow_lt_mono_r_iff in L; lia.
Qed.

Lemma shl_align_fst (m : positive) (e e' : Z) :
  (e' <= e)%Z ->
  Zpos (fst (shl_align m e e')) = (Zpos m * 2 ^ (e - e'))%Z.
Proof.
  intros H. unfold shl_align.
  destruct (e' - e)%Z as [|q|q] eqn:E; cbn [fst].
  - replace (e - e')%Z with 0%Z by lia. lia.
  - lia.
  - rewrite iter_xO_Z. f_equal. f_equal. lia.
Qed.

Lemma binary_round_exact (s : bool) (p : positive) (e : Z) (d : positive) :
  (Zpos (digits2_pos p) + Zpos d = 53)%Z ->
  (-1074 <= e - Zpos d <= 971)%Z ->
  binary_round prec emax s p e = S754_finite s (Pos.iter xO p d) (e - Zpos d).
Proof.
  intros Hn He. unfold binary_round.
  assert (Hf : fexp prec emax (Zpos (digits2_pos p) + e) = (e - Zpos d)%Z).
  { unfold fexp, emin, prec, emax. lia. }
  rewrite Hf. unfold shl_align.
  replace (e - Zpos d - e)%Z with (Zneg d) by lia.
  unfold binary_round_aux, shr_fexp. cbn [Zdigits2].
  rewrite digits2_iter_xO.
  assert (H0 : (fexp prec emax (Zpos (digits2_pos p + d) + (e - Zpos d))
                - (e - Zpos d) = 0)%Z).
  { unfold fexp, emin, prec, emax. lia. }
  rewrite H0.
  cbn [shr shr_record_of_loc shr_m loc_of_shr_record round_nearest_even
       Zdigits2].
  rewrite digits2_iter_xO, H0. cbn [shr shr_m shr_record_of_loc].
  assert (Hle : (e - Zpos d <=? emax - prec)%Z = true).
  { apply Z.leb_le. unfold emax, prec. lia. }
  rewrite Hle. reflexivity.
Qed.

Lemma binary_round_aux_not_neg (m e : Z) (l : location) :
  not_neg (binary_round_aux prec emax false m e l) = true.
Proof.
  unfold binary_round_aux.
  destruct (shr_fexp prec emax m e l) as [mrs' e'].
  destruct (shr_fexp prec emax _ e' loc_Exact) as [mrs'' e''].
  destruct (shr_m mrs''); [reflexivity| |reflexivity].
  destruct (e'' <=? emax - prec)%Z; reflexivity.
Qed.

Lemma binary_normalize_not_neg (w e : Z) :
  (0 <= w)%Z -> not_neg (binary_normalize prec emax w e false) = true.
Proof.
  intros H. destruct w as [|q|q]; [reflexivity| |lia].
  unfold binary_normalize, binary_round.
  destruct (shl_align q e _) as [mz ez]. apply binary_round_aux_not_neg.
Qed.

Lemma div_not_neg (x : spec_float) (m : positive) (e : Z) :
  not_neg x = true -> not_neg (SF64div x (S754_finite false m e)) = true.
Proof.
  unfold SF64div, SFdiv.
  destruct x as [s|[|]| |[|] mx ex]; try discriminate; try reflexivity.
  intros _. cbn [xorb].
  destruct (SFdiv_core_binary prec emax (Zpos mx) ex (Zpos m) e) as [[mz ez] lz].
  apply binary_round_aux_not_neg.
Qed.

Lemma ltb_zero_not_neg (x : spec_float) :
  not_neg x = true -> SFltb x (S754_zero false) = false.
Proof. destruct x as [s|[|]| |[|] mx ex]; try discriminate; reflexivity. Qed.

Lemma SFleb_finite (m1 m2 : positive) (e1 e2 : Z) :
  SFleb (S754_finite false m1 e1) (S754_finite false m2 e2) = true ->
  (e1 < e2)%Z \/ (e1 = e2 /\ (Zpos m1 <= Zpos m2)%Z).
Proof.
  unfold SFleb, SFcompare.
  destruct (Z.compare_spec e1 e2) as [E|E|E]; [|left; assumption|discriminate].
  pose proof (Pos.compare_spec m1 m2) as C. unfold Pos.compare in C.
  destruct C; [| |discriminate]; intros _; right; split; lia.
Qed.

(** A float between 80 and 112 has the exponent of 64..128, and its
    mantissa between those of 80 and 112. *)
Lemma between_80_112 (T : float) :
  (80 <=? T) = true -> (T <=? 112) = true ->
  exists m, Prim2SF T = S754_finite false m (-46) /\
            (5629499534213120 <= Zpos m <= 7881299347898368)%Z.
Proof.
  rewrite !leb_spec.
  change (Prim2SF 80) with (S754_finite false 5629499534213120 (-46)).
  change (Prim2SF 112) with (S754_finite false 7881299347898368 (-46)).
  destruct (Prim2SF T) as [s|s| |s m e].
  - discriminate.
  - destruct s; discriminate.
  - discriminate.
  - destruct s; [discriminate|].
    intros H1 H2. apply SFleb_finite in H1, H2.
    exists m. assert (e = (-46)%Z) by lia. subst e.
    split; [reflexivity|lia].
Qed.

Lemma abs_sub_95 (m : positive) :
  (5629499534213120 <= Zpos m <= 7881299347898368)%Z ->
  let A := SFabs (SF64sub (S754_finite false m (-46))
                          (S754_finite false 6685030696878080 (-46))) in
  A = S754_zero false \/
  exists p d, A = S754_finite false (Pos.iter xO p d) (-46 - Zpos d) /\
              (Zpos p <= 1196268651020288)%Z /\
              (Zpos (digits2_pos p) + Zpos d = 53)%Z /\ (2 <= Zpos d)%Z.
Proof.
  intros Hm A. subst A.
  change (SF64sub (S754_finite false m (-46))
                  (S754_finite false 6685030696878080 (-46)))
    with (binary_normalize prec emax (Zpos m - 6685030696878080) (-46) false).
  destruct (Zpos m - 6685030696878080)%Z as [|p|p] eqn:Hz.
  - left. reflexivity.
  - right.
    assert (Hp : (Zpos p <= 1196268651020288)%Z) by lia.
    assert (Hn : (Zpos (digits2_pos p) <= 51)%Z).
    { apply digits2_bound; [lia|].
      change (2 ^ 51)%Z with 2251799813685248%Z. lia. }
    exists p, (Z.to_pos (53 - Zpos (digits2_pos p))).
    assert (Hd : Zpos (Z.to_pos (53 - Zpos (digits2_pos p)))
                 = (53 - Zpos (digits2_pos p))%Z) by (apply Z2Pos.id; lia).
    unfold binary_normalize.
    rewrite (binary_round_exact false p (-46)
               (Z.to_pos (53 - Zpos (digits2_pos p)))) by lia.
    cbn [SFabs]. repeat split; lia.
  - right.
    assert (Hp : (Zpos p <= 1196268651020288)%Z) by lia.
    assert (Hn : (Zpos (digits2_pos p) <= 51)%Z).
    { apply digits2_bound; [lia|].
      change (2 ^ 51)%Z with 2251799813685248%Z. lia. }
    exists p, (Z.to_pos (53 - Zpos (digits2_pos p))).
    assert (Hd : Zpos (Z.to_pos (53 - Zpos (digits2_pos p)))
                 = (53 - Zpos (digits2_pos p))%Z) by (apply Z2Pos.id; lia).
    unfold binary_normalize.
    rewrite (binary_round_exact true p (-46)
               (Z.to_pos (53 - Zpos (digits2_pos p)))) by lia.
    cbn [SFabs]. repeat split; lia.
Qed.

Lemma sub_17_not_neg (p d : positive) :
  (Zpos p <= 1196268651020288)%Z -> (2 <= Zpos d)%Z ->
  not_neg (SF64sub (S754_finite false 4785074604081152 (-48))
                   (S754_finite false (Pos.iter xO p d) (-46 - Zpos d)))
  = true.
Proof.
  intros Hp Hd. unfold SF64sub, SFsub. cbn [cond_Zopp].
  replace (Z.min (-48) (-46 - Zpos d)) with (-46 - Zpos d)%Z by lia.
  apply binary_normalize_not_neg.
  rewrite !shl_align_fst by lia.
  rewrite iter_xO_Z.
  replace (-46 - Zpos d - (-46 - Zpos d))%Z with 0%Z by lia.
  replace (-48 - (-46 - Zpos d))%Z with (Zpos d - 2)%Z by lia.
  replace (Zpos d) with ((Zpos d - 2) + 2)%Z at 2 by lia.
  rewrite Z.pow_add_r by lia.
  assert (HX : (0 <= 2 ^ (Zpos d - 2))%Z) by (apply Z.pow_nonneg; lia).
  change (2 ^ 2)%Z with 4%Z. change (2 ^ 0)%Z with 1%Z.
  nia.
Qed.

Lemma sqrt_guard (T : float) :
  (80 <=? T) = true -> (T <=? 112) = true ->
  ((17 - abs (T - 95)) / 17 <? 0) = false.
Proof.
  intros H80 H112.
  destruct (between_80_112 T H80 H112) as [m [HT Hm]].
  rewrite ltb_spec, div_spec, sub_spec, abs_spec, sub_spec, HT.
  change (Prim2SF 95) with (S754_finite false 6685030696878080 (-46)).
  change (Prim2SF 17) with (S754_finite false 4785074604081152 (-48)).
  change (Prim2SF 0) with (S754_zero false).
  apply ltb_zero_not_neg, div_not_neg.
  destruct (abs_sub_95 m Hm) as [E|[p [d [E [Hp [_ Hd]]]]]]; rewrite E.
  - reflexivity.
  - now apply sub_17_not_neg.
Qed.

Lemma b64_heat_index_returns (temp_c humidity : float) :
  returns (B64.compute_heat_index_c temp_c humidity) = true.
Proof.
  unfold B64.compute_heat_index_c.
  set (T := temp_c * 9 / 5 + 32).
  destruct (T <? 80); [reflexivity|].
  destruct (humidity <? 13); cbn [andb].
  - destruct (80 <=? T) eqn:H80; cbn [andb].
    + destruct (T <=? 112) eqn:H112.
      * unfold PyFloat.sqrt. rewrite (sqrt_guard T H80 H112). reflexivity.
      * destruct (85 <? humidity); cbn [andb]; [destruct (T <=? 87)|]; reflexivity.
    + destruct (85 <? humidity); reflexivity.
  - destruct (85 <? humidity); cbn [andb]; [|reflexivity].
    destruct (80 <=? T); cbn [andb]; [destruct (T <=? 87)|]; reflexivity.
Qed.

(** ** Order of binary64 floats *)

Ltac sf_compare :=
  repeat match goal with
  | |- context [Z.compare ?a ?b] => destruct (Z.compare_spec a b)
  end;
  repeat match goal with
  | |- context [Pos.compare_cont Eq ?a ?b] =>
      let C := fresh "C" in
      pose proof (Pos.compare_spec a b) as C; unfold Pos.compare in C;
      destruct C
  end;
  cbn; intros; try reflexivity; try discriminate; try lia.

Lemma SFleb_trans (x y z : spec_float) :
  SFleb x y = true -> SFleb y z = true -> SFleb x z = true.
Proof.
  unfold SFleb, SFcompare.
  destruct x as [sx|sx| |sx mx ex], y as [sy|sy| |sy my ey],
    z as [sz|sz| |sz mz ez];
    try destruct sx; try destruct sy; try destruct sz;
    try reflexivity; try discriminate; sf_compare.
Qed.

Lemma SFltb_leb_trans (x y z : spec_float) :
  SFltb x y = true -> SFleb y z = true -> SFltb x z = true.
Proof.
  unfold SFleb, SFltb, SFcompare.
  destruct x as [sx|sx| |sx mx ex], y as [sy|sy| |sy my ey],
    z as [sz|sz| |sz mz ez];
    try destruct sx; try destruct sy; try destruct sz;
    try reflexivity; try discriminate; sf_compare.
Qed.

Lemma SFltb_leb (x y : spec_float) : SFltb x y = true -> SFleb x y = true.
Proof.
  unfold SFleb, SFltb. destruct (SFcompare x y) as [[| |]|];
    try reflexivity; discriminate.
Qed.

Lemma float_leb_trans (x y z : float) :
  (x <=? y) = true -> (y <=? z) = true -> (x <=? z) = true.
Proof. rewrite !leb_spec. apply SFleb_trans. Qed.

Lemma float_ltb_leb_trans (x y z : float) :
  (x <? y) = true -> (y <=? z) = true -> (x <? z) = true.
Proof. rewrite !ltb_spec, leb_spec. apply SFltb_leb_trans. Qed.

Lemma float_ltb_leb (x y : float) : (x <? y) = true -> (x <=? y) = true.
Proof. rewrite ltb_spec, leb_spec. apply SFltb_leb. Qed.

(** ** Not-a-number *)

Lemma SFeqb_refl (x : spec_float) : x <> S754_nan -> SFeqb x x = true.
Proof.
  destruct x as [s|s| |s m e]; intros H; try congruence; unfold SFeqb, SFcompare.
  - reflexivity.
  - destruct s; reflexivity.
  - rewrite Z.compare_refl, Pos.compare_cont_refl. destruct s; reflexivity.
Qed.

Lemma is_nan_nan (x : float) : is_nan x = true -> x = nan.
Proof.
  unfold is_nan. rewrite eqb_spec. intros H.
  apply Prim2SF_inj. change (Prim2SF nan) with S754_nan.
  destruct (Prim2SF x) as [s|s| |s m e] eqn:E; [| |reflexivity|];
    rewrite SFeqb_refl in H by discriminate; discriminate.
Qed.

Lemma float_ltb_not_nan (x y : float) : (x <? y) = true -> is_nan x = false.
Proof.
  unfold is_nan. rewrite ltb_spec, eqb_spec. intros H.
  rewrite SFeqb_refl; [reflexivity|].
  intros E. rewrite E in H. discriminate.
Qed.

Open Scope R_scope.

(* ================================================================== *)
(** * Rounding of binary64, from the definitions of [SpecFloat] *)

(** ** The shifts of [shr] on integers *)

Lemma shr_1_eq (m : Z) (r s : bool) :
  (0 <= m)%Z ->
  shr_1 (Build_shr_record m r s) = Build_shr_record (m / 2) (Z.odd m) (r || s).
Proof.
  intros Hm. destruct m as [|[p|p|]|p]; cbn [shr_1 Z.odd]; try lia.
  - reflexivity.
  - f_equal. rewrite Pos2Z.inj_xI. Z.div_mod_to_equations. lia.
  - f_equal. rewrite Pos2Z.inj_xO. Z.div_mod_to_equations. lia.
  - reflexivity.
Qed.

Lemma shr_1_inv (N D : Z) (mrs : shr_record) :
  (0 <= N)%Z -> (0 < D)%Z -> loc_inv N D mrs -> loc_inv N (D * 2) (shr_1 mrs).
Proof.
  intros HN HD [Hm [Hr Hs]]. destruct mrs as [m r s].
  cbn [shr_m shr_r shr_s] in *.
  pose proof (Z.mod_pos_bound N D HD) as Hrho.
  pose proof (Z.div_pos N D HN HD) as Hq.
  rewrite shr_1_eq by lia. unfold loc_inv. cbn [shr_m shr_r shr_s].
  assert (Ediv : (N / (D * 2) = N / D / 2)%Z) by (rewrite Z.div_div; lia).
  assert (Emod : (N mod (D * 2) = N mod D + D * ((N / D) mod 2))%Z)
    by (apply Z.rem_mul_r; lia).
  rewrite Ediv, Emod, Hm, Hr, Hs.
  set (q := (N / D)%Z) in *. set (rho := (N mod D)%Z) in *.
  assert (Hodd : Z.odd q = true /\ (q mod 2 = 1)%Z \/
                 Z.odd q = false /\ (q mod 2 = 0)%Z).
  { rewrite Zmod_odd. destruct (Z.odd q); auto. }
  split; [reflexivity|].
  destruct Hodd as [[Ho Hq2]|[Ho Hq2]]; rewrite Ho, Hq2; split.
  - symmetry. apply Z.leb_le. nia.
  - destruct (Z.leb_spec D (2 * rho)), (Z.eqb_spec rho 0),
      (Z.eqb_spec (2 * rho) D), (Z.eqb_spec (rho + D * 1) 0),
      (Z.eqb_spec (2 * (rho + D * 1)) (D * 2)); cbn; try reflexivity; lia.
  - symmetry. apply Z.leb_gt. nia.
  - destruct (Z.leb_spec D (2 * rho)), (Z.eqb_spec rho 0),
      (Z.eqb_spec (2 * rho) D), (Z.eqb_spec (rho + D * 0) 0),
      (Z.eqb_spec (2 * (rho + D * 0)) (D * 2)); cbn; try reflexivity; lia.
Qed.

Lemma iter_shr_inv (p : positive) :
  forall (N D : Z) (mrs : shr_record),
    (0 <= N)%Z -> (0 < D)%Z -> loc_inv N D mrs ->
    loc_inv N (D * 2 ^ Zpos p) (SpecFloat.iter_pos shr_1 p mrs).
Proof.
  induction p as [p IH|p IH|]; intros N D mrs HN HD H; cbn [SpecFloat.iter_pos].
  - assert (P : (0 < 2 ^ Zpos p)%Z) by (apply Z.pow_pos_nonneg; lia).
    replace (D * 2 ^ Zpos p~1)%Z with (D * 2 * 2 ^ Zpos p * 2 ^ Zpos p)%Z.
    + apply IH; [lia|nia|]. apply IH; [lia|lia|]. now apply shr_1_inv.
    + rewrite (Pos2Z.inj_xI p), Z.pow_add_r, Z.pow_1_r by lia.
      replace (2 * Zpos p)%Z with (Zpos p + Zpos p)%Z by lia.
      rewrite Z.pow_add_r by lia. ring.
  - assert (P : (0 < 2 ^ Zpos p)%Z) by (apply Z.pow_pos_nonneg; lia).
    replace (D * 2 ^ Zpos p~0)%Z with (D * 2 ^ Zpos p * 2 ^ Zpos p)%Z.
    + apply IH; [lia|nia|]. now apply IH.
    + rewrite (Pos2Z.inj_xO p).
      replace (2 * Zpos p)%Z with (Zpos p + Zpos p)%Z by lia.
      rewrite Z.pow_add_r by lia. ring.
  - rewrite Z.pow_1_r. now apply shr_1_inv.
Qed.

(** The record a location stands for, and back. *)
Lemma loc_of_record_of (m : Z) (l : location) :
  loc_of_shr_record (shr_record_of_loc m l) = l.
Proof. destruct l as [|[| |]]; reflexivity. Qed.

(** Rounding to nearest: the integer chosen is within one half of
    [N / D]. *)
Lemma round_nearest_even_inv (N D : Z) (mrs : shr_record) :
  (0 <= N)%Z -> (0 < D)%Z -> loc_inv N D mrs ->
  let k := round_nearest_even (shr_m mrs) (loc_of_shr_record mrs) in
  (N / D <= k <= N / D + 1)%Z /\
  (- D <= 2 * (k * D - N) <= D)%Z /\
  ((N mod D = 0)%Z -> k = (N / D)%Z).
Proof.
  intros HN HD [Hm [Hr Hs]]. destruct mrs as [m r s].
  cbn [shr_m shr_r shr_s] in *. cbv zeta.
  pose proof (Z.mod_pos_bound N D HD) as Hrho.
  pose proof (Z.div_mod N D ltac:(lia)) as Hdm.
  subst m. set (q := (N / D)%Z) in *. set (rho := (N mod D)%Z) in *.
  destruct r, s; cbn [loc_of_shr_record round_nearest_even];
    symmetry in Hr, Hs;
    destruct (Z.leb_spec D (2 * rho)); try discriminate Hr;
    destruct (Z.eqb_spec rho 0); destruct (Z.eqb_spec (2 * rho) D);
    try discriminate Hs; try lia;
    try (destruct (Z.even q)); repeat split; try nia.
Qed.

(** ** [binary_round_aux] on integers *)

Lemma digits2_bounds (p : positive) :
  (2 ^ (Zpos (digits2_pos p) - 1) <= Zpos p < 2 ^ Zpos (digits2_pos p))%Z.
Proof.
  rewrite digits2_size.
  pose proof (Pos.size_le p) as H1. pose proof (Pos.size_gt p) as H2.
  apply Pos2Z.pos_le_pos in H1. apply Pos2Z.pos_lt_pos in H2.
  rewrite Pos2Z.inj_pow in H1, H2.
  rewrite (Pos2Z.inj_xO p) in H1.
  replace (Zpos (Pos.size p)) with (Zpos (Pos.size p) - 1 + 1)%Z in H1 by lia.
  rewrite Z.pow_add_r, Z.pow_1_r in H1 by lia.
  lia.
Qed.

Lemma Zdigits2_bounds (q : Z) :
  (0 < q)%Z -> (2 ^ (Zdigits2 q - 1) <= q < 2 ^ Zdigits2 q)%Z.
Proof.
  intros H. destruct q as [|p|p]; try lia. cbn [Zdigits2].
  apply digits2_bounds.
Qed.

Lemma Zdigits2_nonneg (q : Z) : (0 <= Zdigits2 q)%Z.
Proof. destruct q; cbn [Zdigits2]; lia. Qed.

Lemma Zdigits2_le (q : Z) (d : Z) :
  (0 <= q)%Z -> (0 <= d)%Z -> (q < 2 ^ d)%Z -> (Zdigits2 q <= d)%Z.
Proof.
  intros H0 Hd H. destruct (Z.eq_dec q 0) as [->|Hn]; [cbn; lia|].
  pose proof (Zdigits2_bounds q ltac:(lia)) as [B _].
  pose proof (Zdigits2_nonneg q).
  assert (L : (2 ^ (Zdigits2 q - 1) < 2 ^ d)%Z) by lia.
  destruct (Z.eq_dec (Zdigits2 q) 0) as [E0|E0]; [lia|].
  apply Z.pow_lt_mono_r_iff in L; lia.
Qed.

Lemma shr_fexp_inv (q e : Z) (l : location) (N D : Z) :
  (0 <= N)%Z -> (0 < D)%Z -> loc_inv N D (shr_record_of_loc q l) ->
  (e <= fexp prec emax (Zdigits2 q + e))%Z ->
  exists mrs',
    shr_fexp prec emax q e l = (mrs', fexp prec emax (Zdigits2 q + e)) /\
    loc_inv N (D * 2 ^ (fexp prec emax (Zdigits2 q + e) - e)) mrs'.
Proof.
  intros HN HD H Hle. unfold shr_fexp, shr.
  set (E := fexp prec emax (Zdigits2 q + e)) in *.
  destruct (E - e)%Z as [|p|p] eqn:En; try lia.
  - exists (shr_record_of_loc q l). split; [f_equal; lia|].
    rewrite Z.pow_0_r, Z.mul_1_r. exact H.
  - eexists. split; [f_equal; lia|]. now apply iter_shr_inv.
Qed.

Lemma shr_fexp_exact (sx : bool) (k E : Z) :
  (0 <= k <= 2 ^ 53)%Z -> (-1074 <= E <= 970)%Z ->
  (let '(mrs, e) := shr_fexp prec emax k E loc_Exact in
   match shr_m mrs with
   | Z0 => S754_zero sx
   | Zpos m =>
     if (e <=? emax - prec)%Z then S754_finite sx m e else S754_infinity sx
   | Zneg _ => S754_nan
   end) = SF_of sx k E.
Proof.
  intros Hk HE.
  destruct (Z.eq_dec k (2 ^ 53)) as [->|Hne].
  - unfold shr_fexp. change (Zdigits2 (2 ^ 53)) with 54%Z.
    assert (F : (fexp prec emax (54 + E) - E = 1)%Z)
      by (unfold fexp, emin, prec, emax; lia).
    rewrite F. cbn [shr SpecFloat.iter_pos shr_record_of_loc].
    change (shr_1 {| shr_m := 2 ^ 53; shr_r := false; shr_s := false |})
      with {| shr_m := 2 ^ 52; shr_r := false; shr_s := false |}.
    cbn [shr_m]. change (2 ^ 52)%Z with (Zpos (2 ^ 52)).
    cbv iota.
    assert (L : (E + 1 <=? emax - prec)%Z = true)
      by (apply Z.leb_le; unfold emax, prec; lia).
    rewrite L. reflexivity.
  - assert (Hlt : (k < 2 ^ 53)%Z) by lia.
    pose proof (Zdigits2_le k 53 ltac:(lia) ltac:(lia) Hlt) as Hd.
    pose proof (Zdigits2_nonneg k) as Hd0.
    unfold shr_fexp, shr.
    destruct (fexp prec emax (Zdigits2 k + E) - E)%Z as [|p|p] eqn:En.
    + cbn [shr_record_of_loc shr_m]. unfold SF_of.
      destruct k as [|m|m]; try lia; [reflexivity|].
      assert (L : (E <=? emax - prec)%Z = true)
        by (apply Z.leb_le; unfold emax, prec; lia).
      apply Z.ltb_lt in Hlt. now rewrite L, Hlt.
    + unfold fexp, emin, prec, emax in En. lia.
    + cbn [shr_record_of_loc shr_m]. unfold SF_of.
      destruct k as [|m|m]; try lia; [reflexivity|].
      assert (L : (E <=? emax - prec)%Z = true)
        by (apply Z.leb_le; unfold emax, prec; lia).
      apply Z.ltb_lt in Hlt. now rewrite L, Hlt.
Qed.

(** Rounding [N / D * 2 ^ e], given as its integer part [q] and the
    position [l] of the rest, to binary64: the result is [k * 2 ^ E],
    with [E] the exponent of the format and [k] within one half of
    [N / (D * 2 ^ (E - e))]. *)
Lemma binary_round_aux_Z (sx : bool) (q e : Z) (l : location) (N D : Z) :
  (0 <= N)%Z -> (0 < D)%Z -> loc_inv N D (shr_record_of_loc q l) ->
  let E := fexp prec emax (Zdigits2 q + e) in
  (e <= E)%Z -> (E <= 970)%Z ->
  exists k,
    binary_round_aux prec emax sx q e l = SF_of sx k E /\
    (0 <= k <= 2 ^ 53)%Z /\
    (N / (D * 2 ^ (E - e)) <= k <= N / (D * 2 ^ (E - e)) + 1)%Z /\
    (- (D * 2 ^ (E - e)) <= 2 * (k * (D * 2 ^ (E - e)) - N)
     <= D * 2 ^ (E - e))%Z /\
    ((N mod (D * 2 ^ (E - e)) = 0)%Z -> k = (N / (D * 2 ^ (E - e)))%Z).
Proof.
  intros HN HD H E Hle Hmax.
  destruct (shr_fexp_inv q e l N D HN HD H Hle) as [mrs' [E1 I1]].
  fold E in E1, I1.
  assert (P : (0 < 2 ^ (E - e))%Z) by (apply Z.pow_pos_nonneg; lia).
  assert (HD' : (0 < D * 2 ^ (E - e))%Z) by nia.
  pose proof (round_nearest_even_inv N _ mrs' HN HD' I1) as R.
  cbv zeta in R.
  set (k := round_nearest_even (shr_m mrs') (loc_of_shr_record mrs')) in *.
  destruct R as [R1 [R2 R3]].
  assert (Hq : q = (N / D)%Z).
  { destruct H as [Hm _]. destruct l as [|[| |]]; exact Hm. }
  assert (Hq0 : (0 <= q)%Z) by (rewrite Hq; apply Z.div_pos; lia).
  assert (HEmin : (-1074 <= E)%Z)
    by (unfold E, fexp, emin, prec, emax; lia).
  assert (Hk : (0 <= k <= 2 ^ 53)%Z).
  { assert (Q0 : (0 <= N / (D * 2 ^ (E - e)))%Z) by (apply Z.div_pos; lia).
    split; [lia|].
    assert (Q1 : (N / (D * 2 ^ (E - e)) < 2 ^ 53)%Z); [|lia].
    rewrite <- Z.div_div by lia. rewrite <- Hq.
    apply Z.div_lt_upper_bound; [lia|].
    destruct (Z.eq_dec q 0) as [->|Hn].
    { assert (0 < 2 ^ 53)%Z by (apply Z.pow_pos_nonneg; lia). nia. }
    pose proof (Zdigits2_bounds q ltac:(lia)) as [_ B].
    pose proof (Zdigits2_nonneg q) as Hd0.
    assert (S : (Zdigits2 q <= (E - e) + 53)%Z)
      by (unfold E, fexp, emin, prec, emax; lia).
    rewrite <- Z.pow_add_r by lia.
    eapply Z.lt_le_trans; [exact B|].
    apply Z.pow_le_mono_r; lia. }
  exists k. split; [|repeat split; try lia; exact R3].
  unfold binary_round_aux. rewrite E1. fold k.
  apply shr_fexp_exact; lia.
Qed.

(** ** [binary_round_aux] on real numbers *)

Lemma bpow_pos (z : Z) : 0 < bpow z.
Proof. apply powerRZ_lt. lra. Qed.

Lemma bpow_add (a b : Z) : bpow (a + b) = bpow a * bpow b.
Proof. apply powerRZ_add. lra. Qed.

Lemma bpow_IZR (n : Z) : (0 <= n)%Z -> bpow n = IZR (2 ^ n).
Proof.
  intros H. unfold bpow. rewrite <- (Z2Nat.id n H) at 1 2.
  rewrite <- pow_powerRZ, <- pow_IZR. reflexivity.
Qed.

Lemma bpow_le (a b : Z) : (a <= b)%Z -> bpow a <= bpow b.
Proof.
  intros H. replace b with (a + (b - a))%Z by lia.
  rewrite bpow_add, (bpow_IZR (b - a)) by lia.
  assert (P : (0 < 2 ^ (b - a))%Z) by (apply Z.pow_pos_nonneg; lia).
  assert (P1 : (1 <= 2 ^ (b - a))%Z) by lia. clear P. rename P1 into P.
  apply IZR_le in P. pose proof (bpow_pos a). nra.
Qed.

Lemma bpow_0 : bpow 0 = 1.
Proof. reflexivity. Qed.

Lemma bpow_1 : bpow 1 = 2.
Proof. unfold bpow. simpl. lra. Qed.

Lemma bpow_m1 : bpow (-1) = / 2.
Proof. unfold bpow. simpl. f_equal. lra. Qed.

Lemma SF2R_SF_of (sx : bool) (k E : Z) :
  (0 <= k <= 2 ^ 53)%Z ->
  SF2R (SF_of sx k E) = sign_of sx * IZR k * bpow E /\
  SFfinite (SF_of sx k E) = true /\ sign_bit (SF_of sx k E) = sx.
Proof.
  intros Hk. unfold SF_of. destruct k as [|m|m]; try lia.
  - cbn. split; [lra|split; reflexivity].
  - destruct (Z.ltb_spec (Zpos m) (2 ^ 53)) as [L|L].
    + repeat split; reflexivity.
    + assert (E53 : Zpos m = (2 ^ 53)%Z) by lia.
      assert (Em : m = (2 ^ 53)%positive) by (apply Pos2Z.inj; exact E53).
      subst m. split; [|split; reflexivity].
      cbn [SF2R]. change (Pos.div2 (2 ^ 53)) with (2 ^ 52)%positive.
      rewrite bpow_add, bpow_1.
      change (Zpos (2 ^ 53)) with (2 * Zpos (2 ^ 52))%Z.
      rewrite mult_IZR. lra.
Qed.

(** The rounding error of [binary_round_aux]: at most [u64] of the exact
    value, or [eta64] in the subnormal range. *)
Lemma binary_round_aux_R (sx : bool) (q e : Z) (l : location) (N D : Z) :
  (0 <= N)%Z -> (0 < D)%Z -> loc_inv N D (shr_record_of_loc q l) ->
  (e <= fexp prec emax (Zdigits2 q + e))%Z ->
  (fexp prec emax (Zdigits2 q + e) <= 970)%Z ->
  let X := IZR N / IZR D * bpow e in
  exists v,
    SF2R (binary_round_aux prec emax sx q e l) = sign_of sx * v /\
    SFfinite (binary_round_aux prec emax sx q e l) = true /\
    0 <= v /\ Rabs (v - X) <= u64 * X + eta64 /\
    (((Zdigits2 q + e - 53 < -1074)%Z -> e = (-1074)%Z /\ (N mod D = 0)%Z) ->
     Rabs (v - X) <= u64 * X) /\
    sign_bit (binary_round_aux prec emax sx q e l) = sx.
Proof.
  intros HN HD H Hle Hmax X.
  destruct (binary_round_aux_Z sx q e l N D HN HD H Hle Hmax)
    as [k [Er [Hk [_ [Hr Hex]]]]].
  set (E := fexp prec emax (Zdigits2 q + e)) in *.
  destruct (SF2R_SF_of sx k E Hk) as [Ev [Ef Es]].
  exists (IZR k * bpow E). rewrite Er.
  split; [rewrite Ev; ring|]. split; [exact Ef|].
  pose proof (bpow_pos E) as PE. pose proof (bpow_pos e) as Pe.
  assert (Hk0 : 0 <= IZR k) by (apply IZR_le; lia).
  split; [nra|].
  (* the exact value and the error, in reals *)
  assert (Dpos : 0 < IZR D) by (apply IZR_lt; lia).
  assert (Npos : 0 <= IZR N) by (apply IZR_le; lia).
  assert (Xpos : 0 <= X).
  { unfold X. apply Rmult_le_pos; [|lra].
    apply Rmult_le_pos; [lra|]. left. now apply Rinv_0_lt_compat. }
  assert (BE : bpow E = bpow e * IZR (2 ^ (E - e))).
  { rewrite <- bpow_IZR, <- bpow_add by lia. f_equal. lia. }
  set (P := (2 ^ (E - e))%Z) in *.
  assert (PP : (0 < P)%Z) by (apply Z.pow_pos_nonneg; lia).
  assert (PR : 0 < IZR P) by (apply IZR_lt; lia).
  destruct Hr as [Hr1 Hr2].
  apply IZR_le in Hr1, Hr2.
  rewrite ?mult_IZR, ?minus_IZR, ?mult_IZR in Hr1, Hr2.
  rewrite opp_IZR, mult_IZR in Hr1.
  assert (Err : Rabs (IZR k * bpow E - X) <= bpow E / 2).
  { unfold X. rewrite BE. apply Rabs_le.
    assert (EX : IZR N / IZR D * bpow e
                 = bpow e * IZR N / IZR D) by (field; lra).
    rewrite EX.
    assert (G : forall a b : R, - (IZR D * b) <= 2 * (a * (IZR D * b) - IZR N)
                 <= IZR D * b ->
                 - (bpow e * b / 2) <= a * (bpow e * b) - bpow e * IZR N / IZR D
                 <= bpow e * b / 2).
    { intros a b [G1 G2].
      assert (T : a * (bpow e * b) - bpow e * IZR N / IZR D
                  = bpow e / IZR D * (a * (IZR D * b) - IZR N))
        by (field; lra).
      rewrite T.
      assert (T2 : bpow e * b / 2 = bpow e / IZR D * (IZR D * b / 2))
        by (field; lra).
      rewrite T2.
      assert (C : 0 < bpow e / IZR D)
        by (apply Rmult_lt_0_compat; [lra|now apply Rinv_0_lt_compat]).
      split; nra. }
    apply G. split; lra. }
  (* half a unit of the result against the size of the exact value *)
  assert (Hhalf : bpow E / 2 <= u64 * X + eta64).
  { destruct (Z.eq_dec E (-1074)) as [E1074|Hn].
    - rewrite E1074. unfold eta64, u64.
      replace (-1075)%Z with (-1074 + -1)%Z by lia.
      rewrite bpow_add, bpow_m1.
      pose proof (bpow_pos (-53)). pose proof (bpow_pos (-1074)).
      assert (0 <= bpow (-53) * X) by (apply Rmult_le_pos; lra). lra.
    - assert (Ed : E = (Zdigits2 q + e - 53)%Z)
        by (unfold E, fexp, emin, prec, emax in *; lia).
      assert (Hq : q = (N / D)%Z).
      { destruct H as [Hm _]. destruct l as [|[| |]]; exact Hm. }
      assert (Hq0 : (0 < q)%Z).
      { destruct (Z.eq_dec q 0) as [Q0|Q0].
        - rewrite Q0 in Ed. cbn [Zdigits2] in Ed.
          unfold E, fexp, emin, prec, emax in *. lia.
        - assert (0 <= q)%Z by (rewrite Hq; apply Z.div_pos; lia). lia. }
      pose proof (Zdigits2_bounds q Hq0) as [B _].
      (* X >= q * 2^e >= 2^(d-1+e) = 2^(E+52) *)
      assert (XQ : IZR q * bpow e <= X).
      { unfold X. apply Rmult_le_compat_r; [lra|].
        apply (Rmult_le_reg_r (IZR D)); [lra|].
        replace (IZR N / IZR D * IZR D) with (IZR N) by (field; lra).
        rewrite <- mult_IZR. apply IZR_le. rewrite Hq.
        rewrite Z.mul_comm. apply Z.mul_div_le. lia. }
      assert (QB : bpow (Zdigits2 q - 1) <= IZR q).
      { pose proof (Zdigits2_nonneg q).
        destruct (Z.eq_dec (Zdigits2 q) 0) as [Z0|Z0].
        - rewrite Z0. change (0 - 1)%Z with (-1)%Z.
          rewrite bpow_m1. apply IZR_le in B.
          assert (1 <= IZR q) by (apply IZR_le; lia). lra.
        - rewrite bpow_IZR by lia. now apply IZR_le. }
      assert (EQ : bpow E / 2 = u64 * (bpow (Zdigits2 q - 1) * bpow e)).
      { unfold u64. rewrite <- !bpow_add.
        replace (-53 + (Zdigits2 q - 1 + e))%Z with (E + -1)%Z by lia.
        rewrite bpow_add, bpow_m1. lra. }
      rewrite EQ. unfold eta64.
      pose proof (bpow_pos (-1075)). pose proof (bpow_pos (-53)).
      unfold u64.
      assert (bpow (Zdigits2 q - 1) * bpow e <= X) by nra.
      nra. }
  split; [lra|]. split; [|exact Es].
  intros Hrel.
  destruct (Z_lt_le_dec (Zdigits2 q + e - 53) (-1074)) as [Lo|Hi].
  - destruct (Hrel Lo) as [He Hm].
    assert (EE : E = e).
    { unfold E, fexp, emin, prec, emax in *.
      change IntDef.Z.sub with Z.sub in *.
      change IntDef.Z.max with Z.max in *. lia. }
    assert (P1 : P = 1%Z) by (unfold P; rewrite EE, Z.sub_diag; reflexivity).
    rewrite P1, Z.mul_1_r in Hex. specialize (Hex Hm).
    assert (EN : N = (D * k)%Z).
    { rewrite Hex. apply Z.div_exact in Hm; [exact Hm|lia]. }
    assert (EX : IZR k * bpow E = X).
    { unfold X. rewrite EE, EN, mult_IZR. field. lra. }
    rewrite EX. replace (X - X) with 0 by ring. rewrite Rabs_R0.
    pose proof (bpow_pos (-53)). unfold u64.
    apply Rmult_le_pos; lra.
  - assert (Ed : E = (Zdigits2 q + e - 53)%Z).
    { unfold E, fexp, emin, prec, emax in *.
      change IntDef.Z.sub with Z.sub in *.
      change IntDef.Z.max with Z.max in *. lia. }
    assert (Hq : q = (N / D)%Z).
    { destruct H as [Hm _]. destruct l as [|[| |]]; exact Hm. }
    assert (Hq0 : (0 < q)%Z).
    { destruct (Z.eq_dec q 0) as [Q0|Q0].
      - rewrite Q0 in Ed. cbn [Zdigits2] in Ed. lia.
      - assert (0 <= q)%Z by (rewrite Hq; apply Z.div_pos; lia). lia. }
    pose proof (Zdigits2_bounds q Hq0) as [B _].
    assert (XQ : IZR q * bpow e <= X).
    { unfold X. apply Rmult_le_compat_r; [lra|].
      apply (Rmult_le_reg_r (IZR D)); [lra|].
      replace (IZR N / IZR D * IZR D) with (IZR N) by (field; lra).
      rewrite <- mult_IZR. apply IZR_le. rewrite Hq.
      rewrite Z.mul_comm. apply Z.mul_div_le. lia. }
    assert (QB : bpow (Zdigits2 q - 1) <= IZR q).
    { pose proof (Zdigits2_nonneg q).
      destruct (Z.eq_dec (Zdigits2 q) 0) as [Z0|Z0].
      - rewrite Z0. change (0 - 1)%Z with (-1)%Z.
        rewrite bpow_m1. apply IZR_le in B.
        assert (1 <= IZR q) by (apply IZR_le; lia). lra.
      - rewrite bpow_IZR by lia. now apply IZR_le. }
    assert (EQ : bpow E / 2 = u64 * (bpow (Zdigits2 q - 1) * bpow e)).
    { unfold u64. rewrite <- !bpow_add.
      replace (-53 + (Zdigits2 q - 1 + e))%Z with (E + -1)%Z by lia.
      rewrite bpow_add, bpow_m1. lra. }
    pose proof (bpow_pos (-53)). unfold u64 in *.
    assert (bpow (Zdigits2 q - 1) * bpow e <= X) by nra.
    assert (bpow E / 2 <= bpow (-53) * X) by (rewrite EQ; nra).
    lra.
Qed.

(** ** Multiplication *)

Lemma bpow_lt_inv (a b : Z) : bpow a < bpow b -> (a < b)%Z.
Proof.
  intros H. destruct (Z_lt_le_dec a b) as [L|L]; [exact L|].
  apply bpow_le in L. lra.
Qed.

Lemma loc_inv_exact (N : Z) :
  (0 <= N)%Z -> loc_inv N 1 (shr_record_of_loc N loc_Exact).
Proof.
  intros H. unfold loc_inv. cbn [shr_record_of_loc shr_m shr_r shr_s].
  rewrite Z.div_1_r, Z.mod_1_r. repeat split.
Qed.

(** A valid finite float: its exponent is that of the format. *)
Lemma valid_finite (s : bool) (m : positive) (e : Z) :
  valid_binary (S754_finite s m e) = true ->
  e = fexp prec emax (Zpos (digits2_pos m) + e) /\ (e <= 971)%Z.
Proof.
  unfold valid_binary, bounded, canonical_mantissa.
  intros H. apply andb_true_iff in H. destruct H as [H1 H2].
  apply Z.eqb_eq in H1. apply Z.leb_le in H2.
  unfold emax, prec in H2. split; [now symmetry|lia].
Qed.

Lemma Zdigits2_lower (q t : Z) :
  (0 <= t)%Z -> (2 ^ t <= q)%Z -> (t + 1 <= Zdigits2 q)%Z.
Proof.
  intros Ht H.
  assert (P : (0 < 2 ^ t)%Z) by (apply Z.pow_pos_nonneg; lia).
  pose proof (Zdigits2_bounds q ltac:(lia)) as [_ B].
  pose proof (Zdigits2_nonneg q).
  assert (L : (2 ^ t < 2 ^ Zdigits2 q)%Z) by lia.
  apply Z.pow_lt_mono_r_iff in L; lia.
Qed.

Lemma SF2R_abs_finite (s : bool) (m : positive) (e : Z) :
  Rabs (SF2R (S754_finite s m e)) = IZR (Zpos m) * bpow e.
Proof.
  cbn [SF2R]. pose proof (bpow_pos e).
  assert (0 < IZR (Zpos m)) by (apply IZR_lt; lia).
  assert (0 < IZR (Zpos m) * bpow e) by nra.
  unfold sign_of. destruct s.
  - replace (-1 * IZR (Zpos m) * bpow e) with (- (IZR (Zpos m) * bpow e)) by ring.
    rewrite Rabs_Ropp. apply Rabs_pos_eq. lra.
  - rewrite Rmult_assoc, Rmult_1_l. apply Rabs_pos_eq. lra.
Qed.

Lemma sign_of_xorb (a b : bool) : sign_of (xorb a b) = sign_of a * sign_of b.
Proof. destruct a, b; unfold sign_of; cbn; lra. Qed.

Lemma Rabs_sign_of (s : bool) (a b : R) :
  Rabs (sign_of s * a - sign_of s * b) = Rabs (a - b).
Proof.
  unfold sign_of. destruct s.
  - replace (-1 * a - -1 * b) with (- (a - b)) by ring. apply Rabs_Ropp.
  - f_equal. ring.
Qed.

Lemma err_nonneg (a : R) : 0 <= u64 * Rabs a + eta64.
Proof.
  pose proof (Rabs_pos a). pose proof (bpow_pos (-53)).
  pose proof (bpow_pos (-1075)). unfold u64, eta64.
  assert (0 <= bpow (-53) * Rabs a) by (apply Rmult_le_pos; lra). lra.
Qed.

Lemma err_exact (a : R) : Rabs (a - a) <= u64 * Rabs a + eta64.
Proof.
  replace (a - a) with 0 by ring. rewrite Rabs_R0. apply err_nonneg.
Qed.

Lemma rel_exact (a : R) : Rabs (a - a) <= u64 * Rabs a.
Proof.
  replace (a - a) with 0 by ring. rewrite Rabs_R0.
  pose proof (Rabs_pos a). pose proof (bpow_pos (-53)). unfold u64.
  apply Rmult_le_pos; lra.
Qed.

(** The exact value is below two to the number of digits. *)
Lemma below_digits (q e : Z) (X : R) :
  (0 <= q)%Z -> X < IZR (q + 1) * bpow e -> bpow (-1022) <= X ->
  (-1022 < Zdigits2 q + e)%Z.
Proof.
  intros Hq HX Hlow.
  pose proof (Zdigits2_nonneg q) as Hd.
  assert (B : (q + 1 <= 2 ^ Zdigits2 q)%Z).
  { destruct (Z.eq_dec q 0) as [->|Q0]; [cbn; lia|].
    pose proof (Zdigits2_bounds q ltac:(lia)) as [_ B]. lia. }
  apply IZR_le in B. rewrite <- bpow_IZR in B by lia.
  pose proof (bpow_pos e).
  assert (L : bpow (-1022) < bpow (Zdigits2 q + e)).
  { rewrite bpow_add. nra. }
  now apply bpow_lt_inv in L.
Qed.

(** Multiplication of spec floats. *)
Lemma SFmul_R (x y : spec_float) :
  valid_binary x = true -> valid_binary y = true ->
  SFfinite x = true -> SFfinite y = true ->
  Rabs (SF2R x * SF2R y) < bpow 1023 ->
  SFfinite (SF64mul x y) = true /\
  Rabs (SF2R (SF64mul x y) - SF2R x * SF2R y)
  <= u64 * Rabs (SF2R x * SF2R y) + eta64 /\
  (bpow (-1022) <= Rabs (SF2R x * SF2R y) ->
   Rabs (SF2R (SF64mul x y) - SF2R x * SF2R y)
   <= u64 * Rabs (SF2R x * SF2R y)) /\
  sign_bit (SF64mul x y) = xorb (sign_bit x) (sign_bit y).
Proof.
  intros Vx Vy Fx Fy Hb.
  destruct x as [sx|sx| |sx mx ex]; try discriminate Fx;
    destruct y as [sy|sy| |sy my ey]; try discriminate Fy;
    unfold SF64mul, SFmul;
    try (split; [reflexivity|]; cbn [SF2R];
         rewrite ?Rmult_0_l, ?Rmult_0_r;
         split; [apply err_exact|];
         split; [intros _; apply rel_exact|reflexivity]).
  destruct (valid_finite _ _ _ Vx) as [Ex Hx].
  destruct (valid_finite _ _ _ Vy) as [Ey Hy].
  pose proof (digits2_bounds mx) as [Bx1 Bx2].
  pose proof (digits2_bounds my) as [By1 By2].
  set (dx := Zpos (digits2_pos mx)) in *.
  set (dy := Zpos (digits2_pos my)) in *.
  assert (Hdx : (1 <= dx)%Z) by (unfold dx; lia).
  assert (Hdy : (1 <= dy)%Z) by (unfold dy; lia).
  assert (Pl : (2 ^ (dx + dy - 2) <= Zpos mx * Zpos my)%Z).
  { replace (dx + dy - 2)%Z with ((dx - 1) + (dy - 1))%Z by lia.
    rewrite Z.pow_add_r by lia.
    assert (0 < 2 ^ (dx - 1))%Z by (apply Z.pow_pos_nonneg; lia).
    assert (0 < 2 ^ (dy - 1))%Z by (apply Z.pow_pos_nonneg; lia).
    nia. }
  assert (Dl : (dx + dy - 2 + 1 <= Zdigits2 (Zpos mx * Zpos my))%Z)
    by (apply Zdigits2_lower; [lia|exact Pl]).
  change (Zpos (mx * my)) with (Zpos mx * Zpos my)%Z.
  set (q := (Zpos mx * Zpos my)%Z) in *.
  (* value of the product *)
  assert (Val : Rabs (SF2R (S754_finite sx mx ex) * SF2R (S754_finite sy my ey))
                = IZR q / IZR 1 * bpow (ex + ey)).
  { rewrite Rabs_mult, !SF2R_abs_finite. unfold q.
    rewrite mult_IZR, bpow_add. field. }
  rewrite Val in *.
  assert (Hle : (ex + ey <= fexp prec emax (Zdigits2 q + (ex + ey)))%Z).
  { unfold fexp, emin, prec, emax in *. lia. }
  assert (Hmax : (fexp prec emax (Zdigits2 q + (ex + ey)) <= 970)%Z).
  { assert (Q1 : bpow (Zdigits2 q - 1 + (ex + ey)) < bpow 1023).
    { eapply Rle_lt_trans; [|exact Hb].
      rewrite bpow_add. unfold Rdiv. rewrite Rinv_1, Rmult_1_r.
      apply Rmult_le_compat_r; [left; apply bpow_pos|].
      pose proof (Zdigits2_bounds q ltac:(lia)) as [B _].
      rewrite bpow_IZR by lia. now apply IZR_le. }
    apply bpow_lt_inv in Q1.
    unfold fexp, emin, prec, emax. lia. }
  destruct (binary_round_aux_R (xorb sx sy) q (ex + ey) loc_Exact q 1
              ltac:(lia) ltac:(lia) (loc_inv_exact q ltac:(lia)) Hle Hmax)
    as [v [Ev [Ef [Hv [Herr [Hrel Hsign]]]]]].
  split; [exact Ef|].
  rewrite Ev.
  assert (Prod : SF2R (S754_finite sx mx ex) * SF2R (S754_finite sy my ey)
                 = sign_of (xorb sx sy) * (IZR q / IZR 1 * bpow (ex + ey))).
  { cbn [SF2R]. rewrite sign_of_xorb. unfold q.
    rewrite mult_IZR, bpow_add. field. }
  rewrite Prod, Rabs_sign_of. split; [exact Herr|].
  split; [|exact Hsign].
  intros Hlow. apply Hrel. intros Lo. exfalso.
  assert (Hq0 : (0 <= q)%Z) by (unfold q; lia).
  assert (HX : IZR q / IZR 1 * bpow (ex + ey) < IZR (q + 1) * bpow (ex + ey)).
  { pose proof (bpow_pos (ex + ey)). rewrite plus_IZR.
    unfold Rdiv. rewrite Rinv_1, Rmult_1_r. nra. }
  pose proof (below_digits q (ex + ey) _ Hq0 HX Hlow) as BD. lia.
Qed.

(** ** Addition and subtraction *)

(** [binary_round] on a positive integer and an exponent of the
    format. *)
Lemma binary_round_R (s : bool) (p : positive) (e : Z) :
  IZR (Zpos p) * bpow e < bpow 1023 ->
  SFfinite (binary_round prec emax s p e) = true /\
  exists v, SF2R (binary_round prec emax s p e) = sign_of s * v /\
            Rabs (v - IZR (Zpos p) * bpow e)
            <= u64 * (IZR (Zpos p) * bpow e) + eta64 /\
            ((-1074 <= e)%Z ->
             Rabs (v - IZR (Zpos p) * bpow e)
             <= u64 * (IZR (Zpos p) * bpow e)).
Proof.
  intros Hb. unfold binary_round.
  set (E := fexp prec emax (Zpos (digits2_pos p) + e)).
  assert (HE : (-1074 <= E)%Z).
  { unfold E, fexp, emin, prec, emax.
    change IntDef.Z.sub with Z.sub. change IntDef.Z.max with Z.max. lia. }
  assert (Sh : exists mz ez,
             shl_align p e E = (mz, ez) /\
             ((-1074 <= e)%Z -> (-1074 <= ez)%Z) /\
             (ez <= fexp prec emax (Zdigits2 (Zpos mz) + ez))%Z /\
             (Zdigits2 (Zpos mz) + ez = Zpos (digits2_pos p) + e)%Z /\
             IZR (Zpos mz) * bpow ez = IZR (Zpos p) * bpow e).
  { unfold shl_align. destruct (E - e)%Z as [|d|d] eqn:Ed.
    - exists p, e. split; [reflexivity|]. split; [tauto|].
      cbn [Zdigits2]. fold E.
      split; [lia|]. split; reflexivity.
    - exists p, e. split; [reflexivity|]. split; [tauto|].
      cbn [Zdigits2]. fold E.
      split; [lia|]. split; reflexivity.
    - exists (Pos.iter xO p d), E. split; [reflexivity|].
      split; [intros _; exact HE|].
      cbn [Zdigits2]. rewrite digits2_iter_xO.
      assert (Eq : (Zpos (digits2_pos p + d) + E = Zpos (digits2_pos p) + e)%Z)
        by lia.
      rewrite Eq. fold E. split; [lia|]. split; [reflexivity|].
      rewrite iter_xO_Z, mult_IZR.
      replace (bpow e) with (bpow (E + Zpos d)) by (f_equal; lia).
      rewrite bpow_add, (bpow_IZR (Zpos d)) by lia. ring. }
  destruct Sh as [mz [ez [Es [Hlow [Hle [Hd Hv]]]]]]. rewrite Es.
  assert (Hmax : (fexp prec emax (Zdigits2 (Zpos mz) + ez) <= 970)%Z).
  { rewrite Hd.
    assert (Q1 : bpow (Zpos (digits2_pos p) - 1 + e) < bpow 1023).
    { eapply Rle_lt_trans; [|exact Hb].
      rewrite bpow_add.
      apply Rmult_le_compat_r; [left; apply bpow_pos|].
      pose proof (digits2_bounds p) as [B _].
      rewrite bpow_IZR by lia. now apply IZR_le. }
    apply bpow_lt_inv in Q1. clear -Q1.
    unfold fexp, emin, prec, emax. apply Z.max_lub; lia. }
  destruct (binary_round_aux_R s (Zpos mz) ez loc_Exact (Zpos mz) 1
              ltac:(lia) ltac:(lia) (loc_inv_exact (Zpos mz) ltac:(lia)) Hle Hmax)
    as [v [Ev [Ef [Hv0 [Herr [Hrel _]]]]]].
  split; [exact Ef|]. exists v. split; [exact Ev|].
  replace (IZR (Zpos mz) / IZR 1 * bpow ez) with (IZR (Zpos mz) * bpow ez)
    in Herr, Hrel by (field).
  rewrite Hv in Herr, Hrel. split; [exact Herr|].
  intros He. apply Hrel. intros Lo. split; [|apply Z.mod_1_r].
  specialize (Hlow He).
  unfold fexp, emin, prec, emax in Hle.
  change IntDef.Z.sub with Z.sub in Hle.
  change IntDef.Z.max with Z.max in Hle. lia.
Qed.

Lemma binary_normalize_R (M e : Z) :
  Rabs (IZR M * bpow e) < bpow 1023 ->
  SFfinite (binary_normalize prec emax M e false) = true /\
  Rabs (SF2R (binary_normalize prec emax M e false) - IZR M * bpow e)
  <= u64 * Rabs (IZR M * bpow e) + eta64 /\
  ((-1074 <= e)%Z ->
   Rabs (SF2R (binary_normalize prec emax M e false) - IZR M * bpow e)
   <= u64 * Rabs (IZR M * bpow e)).
Proof.
  intros Hb. pose proof (bpow_pos e) as Pe.
  destruct M as [|p|p]; unfold binary_normalize.
  - split; [reflexivity|]. cbn [SF2R]. rewrite Rmult_0_l.
    split; [apply err_exact|intros _; apply rel_exact].
  - assert (Pp : 0 < IZR (Zpos p)) by (apply IZR_lt; lia).
    assert (A : Rabs (IZR (Zpos p) * bpow e) = IZR (Zpos p) * bpow e)
      by (apply Rabs_pos_eq; nra).
    rewrite A in *.
    destruct (binary_round_R false p e Hb) as [Ef [v [Ev Herr]]].
    split; [exact Ef|]. rewrite Ev. unfold sign_of. rewrite Rmult_1_l.
    exact Herr.
  - assert (Pp : 0 < IZR (Zpos p)) by (apply IZR_lt; lia).
    assert (N : IZR (Zneg p) = - IZR (Zpos p))
      by (change (Zneg p) with (- Zpos p)%Z; apply opp_IZR).
    assert (A : Rabs (IZR (Zneg p) * bpow e) = IZR (Zpos p) * bpow e).
    { rewrite N. replace (- IZR (Zpos p) * bpow e)
        with (- (IZR (Zpos p) * bpow e)) by ring.
      rewrite Rabs_Ropp. apply Rabs_pos_eq. nra. }
    rewrite A in *.
    destruct (binary_round_R true p e Hb) as [Ef [v [Ev Herr]]].
    split; [exact Ef|]. rewrite Ev, N. unfold sign_of.
    replace (-1 * v - - IZR (Zpos p) * bpow e)
      with (- (v - IZR (Zpos p) * bpow e)) by ring.
    rewrite Rabs_Ropp. exact Herr.
Qed.

Lemma cond_Zopp_R (s : bool) (m : Z) :
  IZR (cond_Zopp s m) = sign_of s * IZR m.
Proof.
  unfold cond_Zopp, sign_of. destruct s; [rewrite opp_IZR|]; ring.
Qed.

Lemma aligned_value (s : bool) (m : positive) (e ez : Z) :
  (ez <= e)%Z ->
  IZR (cond_Zopp s (Zpos (fst (shl_align m e ez)))) * bpow ez
  = SF2R (S754_finite s m e).
Proof.
  intros H. rewrite cond_Zopp_R, shl_align_fst by exact H.
  cbn [SF2R]. rewrite mult_IZR.
  replace (bpow e) with (bpow (ez + (e - ez))) by (f_equal; lia).
  rewrite bpow_add, (bpow_IZR (e - ez)) by lia. ring.
Qed.

Lemma SFadd_R (x y : spec_float) :
  valid_binary x = true -> valid_binary y = true ->
  SFfinite x = true -> SFfinite y = true ->
  Rabs (SF2R x + SF2R y) < bpow 1023 ->
  SFfinite (SF64add x y) = true /\
  Rabs (SF2R (SF64add x y) - (SF2R x + SF2R y))
  <= u64 * Rabs (SF2R x + SF2R y).
Proof.
  intros Vx Vy Fx Fy Hb.
  destruct x as [sx|sx| |sx mx ex]; try discriminate Fx;
    destruct y as [sy|sy| |sy my ey]; try discriminate Fy;
    unfold SF64add, SFadd.
  - split; [destruct sx, sy; reflexivity|].
    replace (SF2R (S754_zero sx) + SF2R (S754_zero sy)) with 0
      by (cbn [SF2R]; ring).
    replace (SF2R _) with 0 by (destruct sx, sy; reflexivity).
    apply rel_exact.
  - split; [reflexivity|].
    replace (SF2R (S754_zero sx) + SF2R (S754_finite sy my ey))
      with (SF2R (S754_finite sy my ey)) by (cbn [SF2R]; ring).
    apply rel_exact.
  - split; [reflexivity|].
    replace (SF2R (S754_finite sx mx ex) + SF2R (S754_zero sy))
      with (SF2R (S754_finite sx mx ex)) by (cbn [SF2R]; ring).
    apply rel_exact.
  - cbv zeta.
    set (ez := Z.min ex ey).
    set (M := (cond_Zopp sx (Zpos (fst (shl_align mx ex ez)))
               + cond_Zopp sy (Zpos (fst (shl_align my ey ez))))%Z).
    assert (V : IZR M * bpow ez
                = SF2R (S754_finite sx mx ex) + SF2R (S754_finite sy my ey)).
    { unfold M. rewrite plus_IZR, Rmult_plus_distr_r.
      rewrite !aligned_value by (unfold ez; lia). reflexivity. }
    rewrite <- V in *.
    destruct (binary_normalize_R M ez Hb) as [Ef [_ Hrel]].
    split; [exact Ef|]. apply Hrel.
    destruct (valid_finite _ _ _ Vx) as [Ex _].
    destruct (valid_finite _ _ _ Vy) as [Ey _].
    unfold ez. unfold fexp, emin, prec, emax in Ex, Ey.
    change IntDef.Z.sub with Z.sub in *.
    change IntDef.Z.max with Z.max in *. lia.
Qed.

Lemma SFsub_R (x y : spec_float) :
  valid_binary x = true -> valid_binary y = true ->
  SFfinite x = true -> SFfinite y = true ->
  Rabs (SF2R x - SF2R y) < bpow 1023 ->
  SFfinite (SF64sub x y) = true /\
  Rabs (SF2R (SF64sub x y) - (SF2R x - SF2R y))
  <= u64 * Rabs (SF2R x - SF2R y).
Proof.
  intros Vx Vy Fx Fy Hb.
  destruct x as [sx|sx| |sx mx ex]; try discriminate Fx;
    destruct y as [sy|sy| |sy my ey]; try discriminate Fy;
    unfold SF64sub, SFsub.
  - split; [destruct sx, sy; reflexivity|].
    replace (SF2R (S754_zero sx) - SF2R (S754_zero sy)) with 0
      by (cbn [SF2R]; ring).
    replace (SF2R _) with 0 by (destruct sx, sy; reflexivity).
    apply rel_exact.
  - split; [reflexivity|].
    replace (SF2R (S754_zero sx) - SF2R (S754_finite sy my ey))
      with (SF2R (S754_finite (negb sy) my ey))
      by (cbn [SF2R]; unfold sign_of; destruct sy; cbn; ring).
    apply rel_exact.
  - split; [reflexivity|].
    replace (SF2R (S754_finite sx mx ex) - SF2R (S754_zero sy))
      with (SF2R (S754_finite sx mx ex)) by (cbn [SF2R]; ring).
    apply rel_exact.
  - cbv zeta.
    set (ez := Z.min ex ey).
    set (M := (cond_Zopp sx (Zpos (fst (shl_align mx ex ez)))
               - cond_Zopp sy (Zpos (fst (shl_align my ey ez))))%Z).
    assert (V : IZR M * bpow ez
                = SF2R (S754_finite sx mx ex) - SF2R (S754_finite sy my ey)).
    { unfold M. rewrite minus_IZR, Rmult_minus_distr_r.
      rewrite !aligned_value by (unfold ez; lia). reflexivity. }
    rewrite <- V in *.
    destruct (binary_normalize_R M ez Hb) as [Ef [_ Hrel]].
    split; [exact Ef|]. apply Hrel.
    destruct (valid_finite _ _ _ Vx) as [Ex _].
    destruct (valid_finite _ _ _ Vy) as [Ey _].
    unfold ez. unfold fexp, emin, prec, emax in Ex, Ey.
    change IntDef.Z.sub with Z.sub in *.
    change IntDef.Z.max with Z.max in *. lia.
Qed.

(** ** Division *)

Lemma new_location_inv (D r q : Z) :
  (0 < D)%Z -> (0 <= r < D)%Z ->
  loc_inv (q * D + r) D (shr_record_of_loc q (new_location D r)).
Proof.
  intros HD Hr.
  assert (Ed : ((q * D + r) / D = q)%Z).
  { symmetry. apply (Z.div_unique_pos _ _ _ r); lia. }
  assert (Em : ((q * D + r) mod D = r)%Z).
  { symmetry. apply (Z.mod_unique_pos _ _ q); lia. }
  unfold loc_inv. rewrite Ed, Em.
  unfold new_location, new_location_even, new_location_odd.
  destruct (Z.even D) eqn:Ev; destruct (Z.eqb_spec r 0) as [R0|R0];
    cbn [shr_record_of_loc shr_m shr_r shr_s negb andb].
  - subst r. repeat split. symmetry. apply Z.leb_gt. lia.
  - destruct (Z.compare_spec (2 * r) D) as [C|C|C];
      cbn [shr_record_of_loc shr_m shr_r shr_s];
      repeat split; symmetry;
      try (apply Z.leb_le; lia); try (apply Z.leb_gt; lia);
      destruct (Z.eqb_spec (2 * r) D); cbn; try reflexivity; lia.
  - subst r. repeat split. symmetry. apply Z.leb_gt. lia.
  - assert (Hodd : (2 * r <> D)%Z).
    { intros C. rewrite <- C in Ev. rewrite Z.even_mul in Ev. discriminate Ev. }
    destruct (Z.compare_spec (2 * r + 1) D) as [C|C|C];
      cbn [shr_record_of_loc shr_m shr_r shr_s];
      repeat split; symmetry;
      try (apply Z.leb_le; lia); try (apply Z.leb_gt; lia);
      destruct (Z.eqb_spec (2 * r) D); cbn; try reflexivity; lia.
Qed.

Lemma fexp_monotone (a b : Z) :
  (a <= b)%Z -> (fexp prec emax a <= fexp prec emax b)%Z.
Proof. unfold fexp, emin, prec, emax. lia. Qed.

Lemma SFdiv_R (x y : spec_float) :
  valid_binary x = true -> valid_binary y = true ->
  SFfinite x = true -> SFfinite y = true -> SF2R y <> 0 ->
  Rabs (SF2R x / SF2R y) < bpow 1023 ->
  SFfinite (SF64div x y) = true /\
  Rabs (SF2R (SF64div x y) - SF2R x / SF2R y)
  <= u64 * Rabs (SF2R x / SF2R y) + eta64 /\
  (bpow (-1022) <= Rabs (SF2R x / SF2R y) ->
   Rabs (SF2R (SF64div x y) - SF2R x / SF2R y)
   <= u64 * Rabs (SF2R x / SF2R y)) /\
  sign_bit (SF64div x y) = xorb (sign_bit x) (sign_bit y).
Proof.
  intros Vx Vy Fx Fy Hy0 Hb.
  destruct y as [sy|sy| |sy my ey]; try discriminate Fy;
    [exfalso; apply Hy0; reflexivity|].
  destruct x as [sx|sx| |sx mx ex]; try discriminate Fx;
    unfold SF64div, SFdiv.
  { split; [reflexivity|]. cbn [SF2R]. unfold Rdiv. rewrite Rmult_0_l.
    split; [apply err_exact|]. split; [intros _; apply rel_exact|reflexivity]. }
  destruct (valid_finite _ _ _ Vx) as [Ex Hx].
  destruct (valid_finite _ _ _ Vy) as [Ey Hy].
  pose proof (digits2_bounds mx) as [Bx1 Bx2].
  pose proof (digits2_bounds my) as [By1 By2].
  unfold SFdiv_core_binary. cbn [Zdigits2].
  set (dx := Zpos (digits2_pos mx)) in *.
  set (dy := Zpos (digits2_pos my)) in *.
  assert (Hdx : (1 <= dx)%Z) by (unfold dx; lia).
  assert (Hdy : (1 <= dy)%Z) by (unfold dy; lia).
  set (e' := Z.min (fexp prec emax (dx + ex - (dy + ey))) (ex - ey)).
  set (s := (ex - ey - e')%Z).
  assert (Hs : (0 <= s)%Z) by (unfold s, e'; lia).
  set (N := (Zpos mx * 2 ^ s)%Z).
  assert (EN : match s with
               | Zpos _ => Z.shiftl (Zpos mx) s
               | Z0 => Zpos mx
               | Zneg _ => 0%Z
               end = N).
  { unfold N. destruct s as [|p|p] eqn:Es; try lia.
    apply Z.shiftl_mul_pow2. lia. }
  rewrite EN.
  assert (P2 : (0 < 2 ^ s)%Z) by (apply Z.pow_pos_nonneg; lia).
  assert (HN : (0 < N)%Z) by (unfold N; nia).
  pose proof (Z.div_mod N (Zpos my) ltac:(lia)) as Hdm.
  pose proof (Z.mod_pos_bound N (Zpos my) ltac:(lia)) as Hmod.
  unfold Z.div, Z.modulo in Hdm, Hmod.
  destruct (Z.div_eucl N (Zpos my)) as [q r] eqn:Edm.
  assert (Hq0 : (0 <= q)%Z) by nia.
  assert (EqN : N = (q * Zpos my + r)%Z) by lia.
  pose proof (new_location_inv (Zpos my) r q ltac:(lia) Hmod) as I.
  rewrite <- EqN in I.
  assert (Hq : q = (N / Zpos my)%Z) by (unfold Z.div; now rewrite Edm).
  (* the quotient has enough digits *)
  assert (Dq : (dx - dy + s <= Zdigits2 q)%Z).
  { pose proof (Zdigits2_nonneg q) as Q0.
    destruct (Z_lt_le_dec (dx - 1 + s - dy) 0) as [T|T]; [lia|].
    assert (L : (2 ^ (dx - 1 + s - dy) <= q)%Z).
    { rewrite Hq. apply Z.div_le_lower_bound; [lia|].
      assert (A1 : (Zpos my * 2 ^ (dx - 1 + s - dy)
                    <= 2 ^ dy * 2 ^ (dx - 1 + s - dy))%Z).
      { apply Z.mul_le_mono_nonneg_r; [|lia].
        apply Z.pow_nonneg. lia. }
      rewrite <- Z.pow_add_r in A1 by lia.
      replace (dy + (dx - 1 + s - dy))%Z with ((dx - 1) + s)%Z in A1 by lia.
      rewrite Z.pow_add_r in A1 by lia.
      unfold N. nia. }
    pose proof (Zdigits2_lower q _ T L). lia. }
  assert (Hle : (e' <= fexp prec emax (Zdigits2 q + e'))%Z).
  { assert (M : (fexp prec emax (dx + ex - (dy + ey))
                 <= fexp prec emax (Zdigits2 q + e'))%Z)
      by (apply fexp_monotone; unfold s in *; lia).
    unfold e' at 1. lia. }
  (* the exact value *)
  assert (Pm : 0 < IZR (Zpos my)) by (apply IZR_lt; lia).
  assert (Px : 0 < IZR (Zpos mx)) by (apply IZR_lt; lia).
  pose proof (bpow_pos ex) as Pex. pose proof (bpow_pos ey) as Pey.
  pose proof (bpow_pos e') as Pe'.
  assert (Bs : bpow ex = bpow ey * bpow e' * IZR (2 ^ s)).
  { rewrite <- bpow_IZR, <- !bpow_add by lia. f_equal. unfold s. lia. }
  assert (Val : Rabs (SF2R (S754_finite sx mx ex) / SF2R (S754_finite sy my ey))
                = IZR N / IZR (Zpos my) * bpow e').
  { unfold Rdiv. rewrite Rabs_mult, Rabs_inv, !SF2R_abs_finite.
    unfold N. rewrite mult_IZR, Bs. field. split; lra. }
  rewrite Val in *.
  assert (Hmax : (fexp prec emax (Zdigits2 q + e') <= 970)%Z).
  { destruct (Z.eq_dec q 0) as [Q0|Q0].
    - rewrite Q0 in *. cbn [Zdigits2] in *.
      unfold fexp, emin, prec, emax in *. unfold s, e' in *.
      unfold fexp, emin, prec, emax in *. clear -Dq Hle.
      change IntDef.Z.sub with Z.sub in *.
      change IntDef.Z.max with Z.max in *. clearbody dx dy. lia.
    - assert (Q1 : bpow (Zdigits2 q - 1 + e') < bpow 1023).
      { eapply Rle_lt_trans; [|exact Hb].
        rewrite bpow_add.
        apply Rmult_le_compat_r; [lra|].
        pose proof (Zdigits2_bounds q ltac:(lia)) as [B _].
        pose proof (Zdigits2_nonneg q).
        assert (Zdigits2 q <> 0)%Z
          by (destruct q; [lia|discriminate|lia]).
        rewrite bpow_IZR by lia.
        apply Rle_trans with (IZR q); [now apply IZR_le|].
        apply (Rmult_le_reg_r (IZR (Zpos my))); [lra|].
        replace (IZR N / IZR (Zpos my) * IZR (Zpos my)) with (IZR N)
          by (field; lra).
        rewrite <- mult_IZR. apply IZR_le. lia. }
      apply bpow_lt_inv in Q1. clear -Q1.
      unfold fexp, emin, prec, emax. apply Z.max_lub; lia. }
  destruct (binary_round_aux_R (xorb sx sy) q e' (new_location (Zpos my) r)
              N (Zpos my) ltac:(lia) ltac:(lia) I Hle Hmax)
    as [v [Ev [Ef [Hv [Herr [Hrel Hsign]]]]]].
  split; [exact Ef|].
  rewrite Ev.
  assert (Quot : SF2R (S754_finite sx mx ex) / SF2R (S754_finite sy my ey)
                 = sign_of (xorb sx sy) * (IZR N / IZR (Zpos my) * bpow e')).
  { cbn [SF2R]. rewrite sign_of_xorb. unfold N.
    rewrite mult_IZR, Bs. unfold sign_of. destruct sx, sy; field; lra. }
  rewrite Quot, Rabs_sign_of. split; [exact Herr|].
  split; [|exact Hsign].
  intros Hlow. apply Hrel. intros Lo. exfalso.
  assert (HX : IZR N / IZR (Zpos my) * bpow e' < IZR (q + 1) * bpow e').
  { apply Rmult_lt_compat_r; [lra|].
    apply (Rmult_lt_reg_r (IZR (Zpos my))); [lra|].
    replace (IZR N / IZR (Zpos my) * IZR (Zpos my)) with (IZR N)
      by (field; lra).
    rewrite <- mult_IZR. apply IZR_lt. lia. }
  pose proof (below_digits q e' _ Hq0 HX Hlow) as BD. lia.
Qed.

(** ** Order of valid floats and order of their values *)

Lemma valid_magnitude_lt (m1 m2 : positive) (e1 e2 : Z) (s1 s2 : bool) :
  valid_binary (S754_finite s1 m1 e1) = true ->
  valid_binary (S754_finite s2 m2 e2) = true ->
  (e1 < e2)%Z ->
  IZR (Zpos m1) * bpow e1 < IZR (Zpos m2) * bpow e2.
Proof.
  intros V1 V2 L.
  destruct (valid_finite _ _ _ V1) as [E1 _].
  destruct (valid_finite _ _ _ V2) as [E2 _].
  pose proof (digits2_bounds m1) as [_ B1].
  pose proof (digits2_bounds m2) as [B2 _].
  set (d1 := Zpos (digits2_pos m1)) in *.
  set (d2 := Zpos (digits2_pos m2)) in *.
  unfold fexp, emin, prec, emax in E1, E2.
  change IntDef.Z.sub with Z.sub in *. change IntDef.Z.max with Z.max in *.
  assert (D2 : d2 = 53%Z) by lia.
  assert (D1 : (d1 <= 53)%Z) by lia.
  assert (P1 : (0 < d1)%Z) by (unfold d1; lia).
  rewrite D2 in B2.
  assert (B1' : (Zpos m1 < 2 ^ 53)%Z).
  { eapply Z.lt_le_trans; [exact B1|].
    apply Z.pow_le_mono_r; lia. }
  apply IZR_lt in B1'. apply IZR_le in B2.
  rewrite <- bpow_IZR in B1', B2 by lia.
  pose proof (bpow_pos e1). pose proof (bpow_pos e2).
  assert (S1 : bpow 53 * bpow e1 <= bpow (53 - 1) * bpow e2).
  { rewrite <- !bpow_add. apply bpow_le. lia. }
  apply Rlt_le_trans with (bpow 53 * bpow e1); [nra|].
  apply Rle_trans with (bpow (53 - 1) * bpow e2); [exact S1|nra].
Qed.

Lemma magnitude_compare (m1 m2 : positive) (e1 e2 : Z) (s1 s2 : bool) :
  valid_binary (S754_finite s1 m1 e1) = true ->
  valid_binary (S754_finite s2 m2 e2) = true ->
  match (match Z.compare e1 e2 with
         | Lt => Lt
         | Gt => Gt
         | Eq => Pos.compare_cont Eq m1 m2
         end) with
  | Lt => IZR (Zpos m1) * bpow e1 < IZR (Zpos m2) * bpow e2
  | Eq => m1 = m2 /\ e1 = e2
  | Gt => IZR (Zpos m2) * bpow e2 < IZR (Zpos m1) * bpow e1
  end.
Proof.
  intros V1 V2.
  destruct (Z.compare_spec e1 e2) as [E|L|L].
  - subst e2. change (Pos.compare_cont Eq m1 m2) with (Pos.compare m1 m2).
    pose proof (bpow_pos e1).
    destruct (Pos.compare_spec m1 m2) as [E|L|L].
    + now split.
    + apply Rmult_lt_compat_r; [lra|]. apply IZR_lt. lia.
    + apply Rmult_lt_compat_r; [lra|]. apply IZR_lt. lia.
  - eapply valid_magnitude_lt; eauto.
  - eapply valid_magnitude_lt; eauto.
Qed.

Lemma SFcompare_R (x y : spec_float) :
  valid_binary x = true -> valid_binary y = true ->
  SFfinite x = true -> SFfinite y = true ->
  match SFcompare x y with
  | Some Lt => SF2R x < SF2R y
  | Some Eq => SF2R x = SF2R y
  | Some Gt => SF2R y < SF2R x
  | None => False
  end.
Proof.
  intros Vx Vy Fx Fy.
  destruct x as [sx|sx| |sx mx ex]; try discriminate Fx;
    destruct y as [sy|sy| |sy my ey]; try discriminate Fy;
    cbn [SFcompare].
  - reflexivity.
  - pose proof (SF2R_abs_finite sy my ey) as A. cbn [SF2R] in *.
    pose proof (bpow_pos ey).
    assert (0 < IZR (Zpos my)) by (apply IZR_lt; lia).
    assert (0 < IZR (Zpos my) * bpow ey) by nra.
    unfold sign_of. destruct sy; nra.
  - cbn [SF2R]. pose proof (bpow_pos ex).
    assert (0 < IZR (Zpos mx)) by (apply IZR_lt; lia).
    assert (0 < IZR (Zpos mx) * bpow ex) by nra.
    unfold sign_of. destruct sx; nra.
  - cbn [SF2R]. pose proof (bpow_pos ex). pose proof (bpow_pos ey).
    assert (0 < IZR (Zpos mx)) by (apply IZR_lt; lia).
    assert (0 < IZR (Zpos my)) by (apply IZR_lt; lia).
    assert (0 < IZR (Zpos mx) * bpow ex) by nra.
    assert (0 < IZR (Zpos my) * bpow ey) by nra.
    pose proof (magnitude_compare mx my ex ey sx sy Vx Vy) as M.
    unfold sign_of.
    destruct sx, sy; try nra.
    + destruct (Z.compare ex ey);
        [destruct (Pos.compare_cont Eq mx my)|..]; cbn [CompOpp];
        try nra.
      destruct M as [-> ->]. reflexivity.
    + destruct (Z.compare ex ey);
        [destruct (Pos.compare_cont Eq mx my)|..];
        try nra.
      destruct M as [-> ->]. reflexivity.
Qed.

(** ** Floats: values, comparisons and operations *)

Lemma finite_not_nan (x : float) : finite x = true -> is_nan x = false.
Proof.
  unfold finite. intros F.
  destruct (is_nan x) eqn:N; [|reflexivity].
  unfold is_nan in N. rewrite eqb_spec in N.
  destruct (Prim2SF x) as [s|s| |s m e]; try discriminate F.
  - destruct s; discriminate N.
  - unfold SFeqb in N. cbn [SFcompare] in N.
    rewrite Z.compare_refl, Pos.compare_cont_refl in N.
    destruct s; discriminate N.
Qed.

Lemma ltb_R (x y : float) :
  finite x = true -> finite y = true ->
  (x <? y)%float = true <-> B2R x < B2R y.
Proof.
  unfold finite, B2R. intros Fx Fy. rewrite ltb_spec. unfold SFltb.
  pose proof (SFcompare_R _ _ (Prim2SF_valid x) (Prim2SF_valid y) Fx Fy) as C.
  destruct (SFcompare (Prim2SF x) (Prim2SF y)) as [[| |]|];
    split; intros H; try discriminate H; try reflexivity; try lra;
    try contradiction.
Qed.

Lemma leb_R (x y : float) :
  finite x = true -> finite y = true ->
  (x <=? y)%float = true <-> B2R x <= B2R y.
Proof.
  unfold finite, B2R. intros Fx Fy. rewrite leb_spec. unfold SFleb.
  pose proof (SFcompare_R _ _ (Prim2SF_valid x) (Prim2SF_valid y) Fx Fy) as C.
  destruct (SFcompare (Prim2SF x) (Prim2SF y)) as [[| |]|];
    split; intros H; try discriminate H; try reflexivity; try lra;
    try contradiction.
Qed.

Lemma eqb_R (x y : float) :
  finite x = true -> finite y = true ->
  (x =? y)%float = true <-> B2R x = B2R y.
Proof.
  unfold finite, B2R. intros Fx Fy. rewrite eqb_spec. unfold SFeqb.
  pose proof (SFcompare_R _ _ (Prim2SF_valid x) (Prim2SF_valid y) Fx Fy) as C.
  destruct (SFcompare (Prim2SF x) (Prim2SF y)) as [[| |]|];
    split; intros H; try discriminate H; try reflexivity; try lra;
    try contradiction.
Qed.

Lemma ltb_false_R (x y : float) :
  finite x = true -> finite y = true ->
  (x <? y)%float = false <-> B2R y <= B2R x.
Proof.
  intros Fx Fy. pose proof (ltb_R x y Fx Fy) as [A B].
  destruct (x <? y)%float; split; intros H; try discriminate H;
    try reflexivity.
  - specialize (A eq_refl). lra.
  - destruct (Rlt_le_dec (B2R x) (B2R y)) as [L|L]; [|exact L].
    specialize (B L). discriminate B.
Qed.

Lemma eqb_false_R (x y : float) :
  finite x = true -> finite y = true ->
  (x =? y)%float = false <-> B2R x <> B2R y.
Proof.
  intros Fx Fy. pose proof (eqb_R x y Fx Fy) as [A B].
  destruct (x =? y)%float; split; intros H; try discriminate H;
    try reflexivity.
  - exfalso. apply H. now apply A.
  - intros E. specialize (B E). discriminate B.
Qed.

(** A float between two finite floats is finite. *)
Lemma between_finite (a b x : float) :
  finite a = true -> finite b = true ->
  (a <=? x)%float = true -> (x <=? b)%float = true -> finite x = true.
Proof.
  unfold finite. rewrite !leb_spec. unfold SFleb.
  intros Fa Fb H1 H2.
  destruct (Prim2SF x) as [s|s| |s m e]; try reflexivity.
  - destruct s.
    + destruct (Prim2SF a) as [sa|sa| |sa ma ea]; try discriminate Fa;
        discriminate H1.
    + destruct (Prim2SF b) as [sa|sa| |sa ma ea]; try discriminate Fb;
        discriminate H2.
  - destruct (Prim2SF a) as [sa|sa| |sa ma ea]; discriminate H1.
Qed.

Lemma mul_R (x y : float) :
  finite x = true -> finite y = true ->
  Rabs (B2R x * B2R y) < bpow 1023 ->
  finite (x * y) = true /\
  Rabs (B2R (x * y) - B2R x * B2R y) <= u64 * Rabs (B2R x * B2R y) + eta64 /\
  (bpow (-1022) <= Rabs (B2R x * B2R y) ->
   Rabs (B2R (x * y) - B2R x * B2R y) <= u64 * Rabs (B2R x * B2R y)) /\
  sign_bit (Prim2SF (x * y))
  = xorb (sign_bit (Prim2SF x)) (sign_bit (Prim2SF y)).
Proof.
  unfold finite, B2R. intros Fx Fy Hb. rewrite mul_spec.
  apply SFmul_R; auto using Prim2SF_valid.
Qed.

Lemma div_R (x y : float) :
  finite x = true -> finite y = true -> B2R y <> 0 ->
  Rabs (B2R x / B2R y) < bpow 1023 ->
  finite (x / y) = true /\
  Rabs (B2R (x / y) - B2R x / B2R y) <= u64 * Rabs (B2R x / B2R y) + eta64 /\
  (bpow (-1022) <= Rabs (B2R x / B2R y) ->
   Rabs (B2R (x / y) - B2R x / B2R y) <= u64 * Rabs (B2R x / B2R y)) /\
  sign_bit (Prim2SF (x / y))
  = xorb (sign_bit (Prim2SF x)) (sign_bit (Prim2SF y)).
Proof.
  unfold finite, B2R. intros Fx Fy Hy Hb. rewrite div_spec.
  apply SFdiv_R; auto using Prim2SF_valid.
Qed.

Lemma add_R (x y : float) :
  finite x = true -> finite y = true ->
  Rabs (B2R x + B2R y) < bpow 1023 ->
  finite (x + y) = true /\
  Rabs (B2R (x + y) - (B2R x + B2R y)) <= u64 * Rabs (B2R x + B2R y).
Proof.
  unfold finite, B2R. intros Fx Fy Hb. rewrite add_spec.
  apply SFadd_R; auto using Prim2SF_valid.
Qed.

Lemma sub_R (x y : float) :
  finite x = true -> finite y = true ->
  Rabs (B2R x - B2R y) < bpow 1023 ->
  finite (x - y) = true /\
  Rabs (B2R (x - y) - (B2R x - B2R y)) <= u64 * Rabs (B2R x - B2R y).
Proof.
  unfold finite, B2R. intros Fx Fy Hb. rewrite sub_spec.
  apply SFsub_R; auto using Prim2SF_valid.
Qed.

(** ** Constants *)

Lemma u64_val : u64 = / 9007199254740992.
Proof.
  unfold u64. change (-53)%Z with (- (53))%Z.
  unfold bpow. rewrite powerRZ_neg'. f_equal.
  change (powerRZ 2 53) with (bpow 53). rewrite bpow_IZR by lia.
  reflexivity.
Qed.

Lemma bpow_neg (n : Z) : (0 <= n)%Z -> bpow (- n) = / IZR (2 ^ n).
Proof.
  intros H. unfold bpow. rewrite powerRZ_neg'. f_equal.
  change (powerRZ 2 n) with (bpow n). now apply bpow_IZR.
Qed.

Lemma eta64_small : eta64 <= u64 * u64 * u64.
Proof.
  unfold eta64, u64. rewrite <- !bpow_add. apply bpow_le. lia.
Qed.

Lemma eta64_pos : 0 < eta64.
Proof. apply bpow_pos. Qed.

(** ** The sign of a float *)

Lemma get_sign_spec (x : float) :
  is_nan x = false -> get_sign x = sign_bit (Prim2SF x).
Proof.
  intros N. unfold get_sign, is_zero.
  rewrite ltb_spec. 
  assert (Ez : (x =? zero)%float = SFeqb (Prim2SF x) (S754_zero false))
    by (rewrite eqb_spec; reflexivity).
  rewrite Ez. change (Prim2SF zero) with (S754_zero false).
  destruct (Prim2SF x) as [s|s| |s m e] eqn:E.
  - change (SFeqb (S754_zero s) (S754_zero false)) with true. cbv iota.
    rewrite div_spec, E.
    change (Prim2SF one) with (S754_finite false 4503599627370496 (-52)).
    destruct s; reflexivity.
  - replace (SFeqb (S754_infinity s) (S754_zero false)) with false
      by (destruct s; reflexivity).
    rewrite E. destruct s; reflexivity.
  - unfold is_nan in N. rewrite eqb_spec, E in N. discriminate N.
  - replace (SFeqb (S754_finite s m e) (S754_zero false)) with false
      by (destruct s; reflexivity).
    rewrite E. destruct s; reflexivity.
Qed.

Lemma positive_sign (x : float) :
  finite x = true -> 0 < B2R x -> sign_bit (Prim2SF x) = false.
Proof.
  unfold finite, B2R. destruct (Prim2SF x) as [s|s| |s m e];
    try discriminate; cbn [SF2R sign_bit]; intros _ H; try lra.
  destruct s; [|reflexivity].
  pose proof (bpow_pos e). unfold sign_of in H.
  assert (0 < IZR (Zpos m)) by (apply IZR_lt; lia). nra.
Qed.

(** ** The exact value of a finite float as a fraction *)

Lemma to_frac_R (x : float) :
  finite x = true ->
  exists n d, PyFloat.to_frac x = Some (n, d) /\
              IZR n / IZR (Zpos d) = B2R x.
Proof.
  unfold finite, B2R, PyFloat.to_frac.
  destruct (Prim2SF x) as [s|s| |s m e]; try discriminate; intros _.
  - exists 0%Z, 1%positive. split; [reflexivity|]. cbn [SF2R]. lra.
  - assert (Ez : IZR (if s then Zneg m else Zpos m)
                 = sign_of s * IZR (Zpos m)).
    { unfold sign_of. destruct s; [|lra].
      change (Zneg m) with (- Zpos m)%Z. rewrite opp_IZR. lra. }
    destruct e as [|p|p].
    + eexists _, _. split; [reflexivity|]. cbn [SF2R].
      rewrite Ez, bpow_0. lra.
    + eexists _, _. split; [reflexivity|]. cbn [SF2R].
      rewrite mult_IZR, Ez, <- bpow_IZR by lia. lra.
    + eexists _, _. split; [reflexivity|]. cbn [SF2R].
      rewrite Ez. change (Zneg p) with (- Zpos p)%Z.
      rewrite bpow_neg by lia. rewrite Pos2Z.inj_pow. 
      unfold Rdiv. ring.
Qed.

(** ** Rounding a fraction to the nearest integer *)

Lemma round_half_even_frac_error (n : Z) (d : positive) :
  Rabs (IZR (round_half_even_frac n d) - IZR n / IZR (Zpos d)) <= 1 / 2.
Proof.
  unfold round_half_even_frac.
  pose proof (Z.div_mod n (Zpos d) ltac:(lia)) as Hdm.
  pose proof (Z.mod_pos_bound n (Zpos d) ltac:(lia)) as Hm.
  set (q := (n / Zpos d)%Z) in *. set (r := (n mod Zpos d)%Z) in *.
  assert (Pd : 0 < IZR (Zpos d)) by (apply IZR_lt; lia).
  assert (En : IZR n / IZR (Zpos d) = IZR q + IZR r / IZR (Zpos d)).
  { rewrite Hdm, plus_IZR, mult_IZR. field. lra. }
  rewrite En.
  assert (Hr0 : 0 <= IZR r / IZR (Zpos d)).
  { apply Rmult_le_pos; [apply IZR_le; lia|].
    left. now apply Rinv_0_lt_compat. }
  assert (Hr1 : IZR r / IZR (Zpos d) < 1).
  { apply (Rmult_lt_reg_r (IZR (Zpos d))); [lra|].
    replace (IZR r / IZR (Zpos d) * IZR (Zpos d)) with (IZR r)
      by (field; lra).
    rewrite Rmult_1_l. apply IZR_lt. lia. }
  assert (Half : forall c : comparison, (2 * r ?= Zpos d)%Z = c ->
            match c with
            | Lt => IZR r / IZR (Zpos d) < 1 / 2
            | Eq => IZR r / IZR (Zpos d) = 1 / 2
            | Gt => 1 / 2 < IZR r / IZR (Zpos d)
            end).
  { intros c Hc. destruct c.
    - apply Z.compare_eq in Hc. apply (f_equal IZR) in Hc.
      rewrite mult_IZR in Hc. rewrite <- Hc. field. 
      rewrite <- Hc in Pd. lra.
    - apply (proj1 (Z.compare_lt_iff _ _)) in Hc. apply IZR_lt in Hc.
      rewrite mult_IZR in Hc.
      apply (Rmult_lt_reg_r (IZR (Zpos d))); [lra|].
      replace (IZR r / IZR (Zpos d) * IZR (Zpos d)) with (IZR r)
        by (field; lra). lra.
    - apply (proj1 (Z.compare_gt_iff _ _)) in Hc. apply IZR_lt in Hc.
      rewrite mult_IZR in Hc.
      apply (Rmult_lt_reg_r (IZR (Zpos d))); [lra|].
      replace (IZR r / IZR (Zpos d) * IZR (Zpos d)) with (IZR r)
        by (field; lra). lra. }
  specialize (Half _ eq_refl).
  destruct (2 * r ?= Zpos d)%Z.
  - destruct (Z.even q); [|rewrite plus_IZR]; apply Rabs_le; lra.
  - apply Rabs_le; lra.
  - rewrite plus_IZR. apply Rabs_le; lra.
Qed.

(** ** One decimal place *)

Lemma tenth_table : forallb tenth_ok (Zrange 1 1000) = true.
Proof. vm_compute. reflexivity. Qed.

Lemma tenth_R (y : Z) :
  (1 <= y <= 1000)%Z ->
  finite (PyFloat.nearest y 10) = true /\
  0 < B2R (PyFloat.nearest y 10) /\
  Rabs (B2R (PyFloat.nearest y 10) - IZR y / 10) <= bpow (-46).
Proof.
  intros Hy.
  pose proof tenth_table as T. rewrite forallb_forall in T.
  specialize (T y (In_Zrange 1 y 1000 ltac:(lia))).
  unfold tenth_ok in T. unfold finite, B2R.
  destruct (Prim2SF (PyFloat.nearest y 10)) as [s|s| |s m e];
    try discriminate T.
  destruct s; [discriminate T|].
  apply andb_true_iff in T. destruct T as [T1 T2].
  apply Z.ltb_lt in T1. apply Z.leb_le in T2.
  split; [reflexivity|]. cbn [SF2R]. unfold sign_of. rewrite Rmult_1_l.
  assert (Pm : 0 < IZR (Zpos m)) by (apply IZR_lt; lia).
  pose proof (bpow_pos e) as Pe.
  split; [nra|].
  set (k := (- e)%Z) in *.
  assert (Ek : e = (- k)%Z) by (unfold k; lia).
  rewrite Ek, bpow_neg by lia.
  change (-46)%Z with (- (46))%Z. rewrite (bpow_neg 46) by lia.
  assert (P2 : (0 < 2 ^ k)%Z) by (apply Z.pow_pos_nonneg; lia).
  assert (PK : 0 < IZR (2 ^ k)) by (apply IZR_lt; lia).
  set (K := (2 ^ k)%Z) in *.
  assert (P46 : 0 < IZR (2 ^ 46)) by (apply IZR_lt; lia).
  assert (Eq : IZR (Zpos m) * / IZR K - IZR y / 10
               = IZR (10 * Zpos m - y * K) / (10 * IZR K)).
  { rewrite minus_IZR, !mult_IZR. field. lra. }
  rewrite Eq. unfold Rdiv. rewrite Rabs_mult.
  rewrite (Rabs_pos_eq (/ (10 * IZR K)))
    by (left; apply Rinv_0_lt_compat; lra).
  rewrite <- abs_IZR.
  apply IZR_le in T2. rewrite !mult_IZR in T2.
  apply (Rmult_le_reg_r (10 * IZR K * IZR (2 ^ 46))); [nra|].
  replace (IZR (Z.abs (10 * Zpos m - y * K)) * / (10 * IZR K)
           * (10 * IZR K * IZR (2 ^ 46)))
    with (IZR (Z.abs (10 * Zpos m - y * K)) * IZR (2 ^ 46))
    by (field; lra).
  replace (/ IZR (2 ^ 46) * (10 * IZR K * IZR (2 ^ 46)))
    with (10 * IZR K) by (field; lra).
  exact T2.
Qed.

(** [round(x, 1)] of a finite float. *)
Lemma round1_R (x : float) :
  finite x = true ->
  exists y : Z,
    Rabs (IZR y - 10 * B2R x) <= 1 / 2 /\
    PyFloat.round1 x
    = if (y =? 0)%Z then (if get_sign x then (-0)%float else 0%float)
      else PyFloat.nearest y 10.
Proof.
  intros F. destruct (to_frac_R x F) as [n [d [E V]]].
  unfold PyFloat.round1. rewrite E.
  exists (round_half_even_frac (10 * n) d). split; [|reflexivity].
  pose proof (round_half_even_frac_error (10 * n) d) as H.
  rewrite mult_IZR in H.
  replace (10 * B2R x) with (10 * IZR n / IZR (Zpos d)); [exact H|].
  rewrite <- V. unfold Rdiv. ring.
Qed.

(** ** Signals *)

Lemma B2R_0 : B2R 0 = 0.
Proof. reflexivity. Qed.

Lemma B2R_1 : B2R 1 = 1.
Proof.
  unfold B2R. change (Prim2SF 1) with (S754_finite false 4503599627370496 (-52)).
  cbn [SF2R]. unfold sign_of.
  change (-52)%Z with (- (52))%Z. rewrite bpow_neg by lia.
  change (2 ^ 52)%Z with 4503599627370496%Z. field.
Qed.

Lemma B2R_100 : B2R 100 = 100.
Proof.
  unfold B2R.
  change (Prim2SF 100) with (S754_finite false 7036874417766400 (-46)).
  cbn [SF2R]. unfold sign_of.
  change (-46)%Z with (- (46))%Z. rewrite bpow_neg by lia.
  change (2 ^ 46)%Z with 70368744177664%Z. field.
Qed.

Lemma finite_0 : finite 0 = true. Proof. reflexivity. Qed.
Lemma finite_1 : finite 1 = true. Proof. reflexivity. Qed.
Lemma finite_100 : finite 100 = true. Proof. reflexivity. Qed.

Lemma is_signal_R (s : float) :
  is_signal s ->
  finite s = true /\ 0 <= B2R s <= 1 /\
  sign_bit (Prim2SF s) = false /\ (B2R s = 0 -> s = 0%float).
Proof.
  intros [->|[H0 H1]].
  - repeat split; try reflexivity; rewrite B2R_0; lra.
  - assert (H0' : (0 <=? s)%float = true) by now apply float_ltb_leb.
    pose proof (between_finite 0 1 s finite_0 finite_1 H0' H1) as F.
    apply (ltb_R 0 s finite_0 F) in H0.
    apply (leb_R s 1 F finite_1) in H1.
    rewrite B2R_0 in H0. rewrite B2R_1 in H1.
    split; [exact F|]. split; [lra|].
    split; [now apply positive_sign|]. intros E. lra.
Qed.

Lemma clamp01_signal (x : float) : is_signal (B64._clamp01 x).
Proof.
  unfold B64._clamp01, PyFloat.max, PyFloat.min.
  destruct (x <? 1)%float eqn:E1.
  - destruct (0 <? x)%float eqn:E0.
    + right. split; [exact E0|now apply float_ltb_leb].
    + now left.
  - change (0 <? 1)%float with true. cbv iota.
    right. split; reflexivity.
Qed.

Lemma profile_signal (b : bool) :
  is_signal (if b then 1 else 0.2)%float.
Proof. destruct b; right; split; reflexivity. Qed.

(** ** The percentages of one dimension *)

Lemma bpow_m40 : bpow (-40) = / 1099511627776.
Proof. change (-40)%Z with (- (40))%Z. now rewrite bpow_neg by lia. Qed.

Lemma bpow_m43 : bpow (-43) = / 8796093022208.
Proof. change (-43)%Z with (- (43))%Z. now rewrite bpow_neg by lia. Qed.

Lemma bpow_m44 : bpow (-44) = / 17592186044416.
Proof. change (-44)%Z with (- (44))%Z. now rewrite bpow_neg by lia. Qed.

Lemma bpow_m46 : bpow (-46) = / 70368744177664.
Proof. change (-46)%Z with (- (46))%Z. now rewrite bpow_neg by lia. Qed.

Lemma small_lt_big (x : R) : Rabs x <= 1024 -> Rabs x < bpow 1023.
Proof.
  intros H. apply Rle_lt_trans with (bpow 10).
  - rewrite bpow_IZR by lia. exact H.
  - assert (L : bpow 11 <= bpow 1023) by (apply bpow_le; lia).
    assert (E : bpow 11 = 2 * bpow 10).
    { replace 11%Z with (1 + 10)%Z by lia. now rewrite bpow_add, bpow_1. }
    pose proof (bpow_pos 10). lra.
Qed.

(** The sum of three signals, as the code adds them. *)
Lemma total_R (s1 s2 s3 : float) :
  is_signal s1 -> is_signal s2 -> is_signal s3 ->
  let S := B2R s1 + B2R s2 + B2R s3 in
  finite (s1 + s2 + s3) = true /\
  (1 - u64) * (1 - u64) * S <= B2R (s1 + s2 + s3) /\
  B2R (s1 + s2 + s3) <= (1 + u64) * (1 + u64) * S.
Proof.
  intros H1 H2 H3 S.
  destruct (is_signal_R s1 H1) as [F1 [B1 _]].
  destruct (is_signal_R s2 H2) as [F2 [B2 _]].
  destruct (is_signal_R s3 H3) as [F3 [B3 _]].
  pose proof u64_val as U.
  destruct (add_R s1 s2 F1 F2) as [Fa Ea].
  { apply small_lt_big. rewrite Rabs_pos_eq; lra. }
  rewrite (Rabs_pos_eq (B2R s1 + B2R s2)) in Ea by lra.
  apply Rabs_le_bounds in Ea.
  assert (A0 : 0 <= B2R (s1 + s2) <= 3) by (rewrite U in Ea; lra).
  destruct (add_R (s1 + s2) s3 Fa F3) as [Ft Et].
  { apply small_lt_big. rewrite Rabs_pos_eq; lra. }
  rewrite (Rabs_pos_eq (B2R (s1 + s2) + B2R s3)) in Et by lra.
  apply Rabs_le_bounds in Et.
  split; [exact Ft|]. unfold S. rewrite U in *. split; lra.
Qed.

(** One percentage: [round(s / total * 100, 1)]. *)
Lemma percent_R (s t : float) :
  finite s = true -> sign_bit (Prim2SF s) = false -> 0 <= B2R s ->
  finite t = true -> 0 < B2R t -> B2R s <= (1 + 3 * u64) * B2R t ->
  exists y : Z,
    PyFloat.round1 (s / t * 100) = tenths y /\
    Rabs (IZR y - 1000 * (B2R s / B2R t)) <= 1 / 2 + 4000 * u64.
Proof.
  intros Fs Ss Hs Ft Ht Hst.
  pose proof u64_val as U. pose proof eta64_small as Hsmall.
  pose proof eta64_pos as Heta.
  set (W := B2R s / B2R t).
  assert (W0 : 0 <= W).
  { unfold W. apply Rmult_le_pos; [exact Hs|].
    left. now apply Rinv_0_lt_compat. }
  assert (W1 : W <= 1 + 3 * u64).
  { unfold W. apply (Rmult_le_reg_r (B2R t)); [exact Ht|].
    replace (B2R s / B2R t * B2R t) with (B2R s) by (field; lra).
    exact Hst. }
  destruct (div_R s t Fs Ft) as [Fq [Eq [_ Sq]]]; [lra| |].
  { apply small_lt_big. fold W. rewrite Rabs_pos_eq by lra.
    rewrite U in W1. lra. }
  fold W in Eq. rewrite (Rabs_pos_eq W) in Eq by lra.
  apply Rabs_le_bounds in Eq.
  assert (St : sign_bit (Prim2SF t) = false) by now apply positive_sign.
  rewrite Ss, St in Sq. cbn in Sq.
  assert (Q1 : Rabs (B2R (s / t)) <= 2).
  { apply Rabs_le. rewrite U in *. lra. }
  destruct (mul_R (s / t) 100 Fq finite_100) as [Fx [Ex [_ Sx]]].
  { apply small_lt_big. rewrite B2R_100, Rabs_mult.
    rewrite (Rabs_pos_eq 100) by lra. lra. }
  rewrite B2R_100 in Ex. rewrite Rabs_mult, (Rabs_pos_eq 100) in Ex by lra.
  apply Rabs_le_bounds in Ex.
  rewrite Sq in Sx. change (sign_bit (Prim2SF 100)) with false in Sx.
  cbn in Sx.
  destruct (round1_R (s / t * 100)%float Fx) as [y [Hy Er]].
  exists y. split.
  - rewrite Er. rewrite get_sign_spec by now apply finite_not_nan.
    rewrite Sx. reflexivity.
  - apply Rabs_le_bounds in Hy. apply Rabs_le_bounds in Q1.
    assert (Q2 : Rabs (B2R (s / t)) <= 2) by (apply Rabs_le; lra).
    assert (E1 : - (200 * u64 + eta64)
                 <= B2R (s / t * 100) - B2R (s / t) * 100
                 <= 200 * u64 + eta64).
    { assert (Rabs (B2R (s / t)) * 100 <= 200) by lra.
      rewrite U in *. split; lra. }
    apply Rabs_le. rewrite U in *. split; lra.
Qed.

Lemma shares_R (r1 r2 r3 T : R) (y1 y2 y3 : Z) :
  0 <= r1 -> 0 <= r2 -> 0 <= r3 -> 0 < r1 + r2 + r3 ->
  (1 - u64) * (1 - u64) * (r1 + r2 + r3) <= T ->
  T <= (1 + u64) * (1 + u64) * (r1 + r2 + r3) ->
  Rabs (IZR y1 - 1000 * (r1 / T)) <= 1 / 2 + 4000 * u64 ->
  Rabs (IZR y2 - 1000 * (r2 / T)) <= 1 / 2 + 4000 * u64 ->
  Rabs (IZR y3 - 1000 * (r3 / T)) <= 1 / 2 + 4000 * u64 ->
  ((0 <= y1 <= 1000)%Z /\
   Rabs (IZR y1 - 1000 * (r1 / (r1 + r2 + r3))) <= 1 / 2 + bpow (-40)) /\
  ((0 <= y2 <= 1000)%Z /\
   Rabs (IZR y2 - 1000 * (r2 / (r1 + r2 + r3))) <= 1 / 2 + bpow (-40)) /\
  ((0 <= y3 <= 1000)%Z /\
   Rabs (IZR y3 - 1000 * (r3 / (r1 + r2 + r3))) <= 1 / 2 + bpow (-40)) /\
  (999 <= y1 + y2 + y3 <= 1001)%Z.
Proof.
  intros H1 H2 H3 HS Lo Hi E1 E2 E3.
  pose proof u64_val as U. pose proof bpow_m40 as B40.
  set (S := r1 + r2 + r3) in *.
  assert (HT : 0 < T) by (rewrite U in Lo; lra).
  set (c := S / T).
  assert (Ec : c * T = S) by (unfold c; field; lra).
  assert (Hc : 1 - 2 * u64 <= c <= 1 + 3 * u64).
  { split.
    - apply (Rmult_le_reg_r T); [exact HT|]. rewrite Ec.
      rewrite U in *. lra.
    - apply (Rmult_le_reg_r T); [exact HT|]. rewrite Ec.
      rewrite U in *. lra. }
  assert (G : forall r (y : Z), 0 <= r -> r <= S ->
            Rabs (IZR y - 1000 * (r / T)) <= 1 / 2 + 4000 * u64 ->
            r / T = r / S * c /\ 0 <= r / S <= 1 /\
            - (2 * u64) <= r / S * c - r / S <= 3 * u64).
  { intros r y Hr HrS _.
    assert (F0 : 0 <= r / S).
    { apply Rmult_le_pos; [exact Hr|]. left. now apply Rinv_0_lt_compat. }
    assert (F1 : r / S <= 1).
    { apply (Rmult_le_reg_r S); [exact HS|].
      replace (r / S * S) with r by (field; lra). lra. }
    split; [unfold c; field; lra|]. split; [lra|].
    rewrite U in *. split; nra. }
  destruct (G r1 y1 H1 ltac:(unfold S; lra) E1) as [W1 [F1 D1]].
  destruct (G r2 y2 H2 ltac:(unfold S; lra) E2) as [W2 [F2 D2]].
  destruct (G r3 y3 H3 ltac:(unfold S; lra) E3) as [W3 [F3 D3]].
  assert (Fs : r1 / S + r2 / S + r3 / S = 1) by (unfold S in *; field; lra).
  rewrite W1 in E1. rewrite W2 in E2. rewrite W3 in E3.
  apply Rabs_le_bounds in E1, E2, E3.
  set (f1 := r1 / S) in *. set (f2 := r2 / S) in *. set (f3 := r3 / S) in *.
  set (w1 := f1 * c) in *. set (w2 := f2 * c) in *. set (w3 := f3 * c) in *.
  rewrite U in *. rewrite B40.
  assert (I : forall y : Z, -1 < IZR y -> IZR y < 1001 -> (0 <= y <= 1000)%Z).
  { intros y A B. apply lt_IZR in A, B. lia. }
  split; [split; [apply I; lra|apply Rabs_le; lra]|].
  split; [split; [apply I; lra|apply Rabs_le; lra]|].
  split; [split; [apply I; lra|apply Rabs_le; lra]|].
  assert (A : 998 < IZR (y1 + y2 + y3) < 1002).
  { rewrite !plus_IZR. split; lra. }
  destruct A as [A B]. apply lt_IZR in A, B. lia.
Qed.

Lemma tenths_R (y : Z) :
  (0 <= y <= 1000)%Z ->
  finite (tenths y) = true /\ 0 <= B2R (tenths y) /\
  ((0 < y)%Z -> 0 < B2R (tenths y)) /\
  Rabs (B2R (tenths y) - IZR y / 10) <= bpow (-46).
Proof.
  intros Hy. unfold tenths. destruct (Z.eqb_spec y 0) as [->|Hn].
  - split; [reflexivity|]. rewrite B2R_0. split; [lra|].
    split; [lia|]. replace (0 - 0 / 10) with 0 by field.
    rewrite Rabs_R0. left. apply bpow_pos.
  - destruct (tenth_R y ltac:(lia)) as [F [P E]].
    split; [exact F|]. split; [lra|]. split; [intros _; exact P|exact E].
Qed.

Lemma eqb_zero_signal (s : float) :
  is_signal s -> (s =? 0)%float = true -> s = 0%float.
Proof.
  intros H E. destruct (is_signal_R s H) as [F [_ [_ Z]]].
  apply Z. apply (eqb_R s 0 F finite_0) in E. now rewrite B2R_0 in E.
Qed.

Lemma percentages_zero :
  B64.total_or_one (0, 0, 0)%float = 1%float /\
  B64.percentages (0, 0, 0)%float = Ok (0, 0, 0)%float.
Proof. vm_compute. split; reflexivity. Qed.

Lemma percentages_ok (s1 s2 s3 : float) :
  is_signal s1 -> is_signal s2 -> is_signal s3 ->
  exists p, B64.percentages (s1, s2, s3) = Ok p /\
            dimension_ok (s1, s2, s3) p.
Proof.
  intros H1 H2 H3.
  destruct (all_zero (s1, s2, s3)) eqn:Z.
  - cbn [all_zero] in Z.
    apply andb_true_iff in Z. destruct Z as [Z Z3].
    apply andb_true_iff in Z. destruct Z as [Z1 Z2].
    apply (eqb_zero_signal s1 H1) in Z1.
    apply (eqb_zero_signal s2 H2) in Z2.
    apply (eqb_zero_signal s3 H3) in Z3. subst.
    exists (0, 0, 0)%float. split; [apply percentages_zero|].
    unfold dimension_ok. split.
    + intros _. split; [apply percentages_zero|reflexivity].
    + intros C. vm_compute in C. discriminate C.
  - destruct (is_signal_R s1 H1) as [F1 [B1 [S1 _]]].
    destruct (is_signal_R s2 H2) as [F2 [B2 [S2 _]]].
    destruct (is_signal_R s3 H3) as [F3 [B3 [S3 _]]].
    destruct (total_R s1 s2 s3 H1 H2 H3) as [Ft [Lo Hi]].
    pose proof u64_val as U.
    set (t := (s1 + s2 + s3)%float) in *.
    assert (HS : 0 < B2R s1 + B2R s2 + B2R s3).
    { cbn [all_zero] in Z.
      assert (N : B2R s1 <> 0 \/ B2R s2 <> 0 \/ B2R s3 <> 0).
      { destruct (s1 =? 0)%float eqn:E1;
          [|left; now apply (eqb_false_R s1 0 F1 finite_0) in E1].
        destruct (s2 =? 0)%float eqn:E2;
          [|right; left; now apply (eqb_false_R s2 0 F2 finite_0) in E2].
        destruct (s3 =? 0)%float eqn:E3;
          [discriminate Z|].
        right; right; now apply (eqb_false_R s3 0 F3 finite_0) in E3. }
      lra. }
    assert (HT : 0 < B2R t) by (rewrite U in Lo; lra).
    assert (Tn : (t =? 0)%float = false).
    { apply (eqb_false_R t 0 Ft finite_0). rewrite B2R_0. lra. }
    assert (Et : B64.total_or_one (s1, s2, s3) = t).
    { unfold B64.total_or_one, PyFloat.or_else. fold t. now rewrite Tn. }
    assert (HST : B2R s1 + B2R s2 + B2R s3 <= (1 + 3 * u64) * B2R t)
      by (rewrite U in *; lra).
    destruct (percent_R s1 t F1 S1 ltac:(lra) Ft HT ltac:(lra))
      as [y1 [P1 E1]].
    destruct (percent_R s2 t F2 S2 ltac:(lra) Ft HT ltac:(lra))
      as [y2 [P2 E2]].
    destruct (percent_R s3 t F3 S3 ltac:(lra) Ft HT ltac:(lra))
      as [y3 [P3 E3]].
    destruct (shares_R (B2R s1) (B2R s2) (B2R s3) (B2R t) y1 y2 y3 ltac:(lra) ltac:(lra) ltac:(lra)
                HS Lo Hi E1 E2 E3) as [[R1 A1] [[R2 A2] [[R3 A3] Hsum]]].
    eexists. split.
    + unfold B64.percentages. rewrite Et.
      rewrite !percent_returns by exact Tn. reflexivity.
    + unfold dimension_ok. split; [intros C; congruence|].
      intros _. split; [exact Et|]. split; [reflexivity|].
      exists y1, y2, y3. rewrite P1, P2, P3.
      split; [reflexivity|].
      split; [split; assumption|]. split; [split; assumption|].
      split; [split; assumption|]. split; [exact Hsum|].
      destruct (tenths_R y1 R1) as [G1 [N1 [_ T1]]].
      destruct (tenths_R y2 R2) as [G2 [N2 [_ T2]]].
      destruct (tenths_R y3 R3) as [G3 [N3 [_ T3]]].
      apply Rabs_le_bounds in T1, T2, T3.
      pose proof bpow_m43 as B43. pose proof bpow_m44 as B44.
      pose proof bpow_m46 as B46.
      destruct Hsum as [Hs1 Hs2]. apply IZR_le in Hs1, Hs2.
      rewrite !plus_IZR in Hs1, Hs2.
      destruct R1 as [R1a R1b]. destruct R2 as [R2a R2b].
      destruct R3 as [R3a R3b].
      apply IZR_le in R1a, R1b, R2a, R2b, R3a, R3b.
      assert (Sum : Rabs (B2R (tenths y1) + B2R (tenths y2) + B2R (tenths y3)
                          - 100) <= 0.1 + bpow (-44)).
      { apply Rabs_le. rewrite B44, B46 in *. split; lra. }
      split; [exact Sum|].
      apply Rabs_le_bounds in Sum.
      destruct (add_R (tenths y1) (tenths y2) G1 G2) as [Fa Ea].
      { apply small_lt_big. rewrite Rabs_pos_eq by lra.
        rewrite B46 in *. lra. }
      rewrite (Rabs_pos_eq (B2R (tenths y1) + B2R (tenths y2))) in Ea by lra.
      apply Rabs_le_bounds in Ea.
      assert (A0 : 0 <= B2R (tenths y1 + tenths y2) <= 201).
      { rewrite U, B46 in *. split; lra. }
      destruct (add_R (tenths y1 + tenths y2) (tenths y3) Fa G3) as [Fb Eb].
      { apply small_lt_big. rewrite Rabs_pos_eq by lra.
        rewrite B46 in *. lra. }
      rewrite (Rabs_pos_eq (B2R (tenths y1 + tenths y2) + B2R (tenths y3)))
        in Eb by lra.
      apply Rabs_le_bounds in Eb.
      split; [exact Fb|].
      apply Rabs_le. rewrite U, B43, B44, B46 in *. split; lra.
Qed.

(** ** The signals of the three dimensions *)

Lemma asthma_signals_spec
    (raw_air : RawAirQuality float) (profile : option Profile) :
  exists s1 s2 s3,
    B64.asthma_signals raw_air profile = (s1, s2, s3) /\
    is_signal s1 /\ is_signal s2 /\ (s3 = 0.2%float \/ s3 = 1%float).
Proof.
  unfold B64.asthma_signals. do 3 eexists.
  split; [reflexivity|].
  split; [apply clamp01_signal|]. split; [apply clamp01_signal|].
  destruct profile as [p|]; [|now left].
  destruct (has_keyword resp_keywords (conditions p) || age_and_ge_65 (age p));
    [now right|now left].
Qed.

Lemma heat_signals_spec
    (raw_weather : RawWeather float) (profile : option Profile) :
  exists s1 s2 s3,
    B64.heat_signals raw_weather profile = (s1, s2, s3) /\
    is_signal s1 /\ is_signal s2 /\ (s3 = 0.2%float \/ s3 = 1%float).
Proof.
  unfold B64.heat_signals. do 3 eexists.
  split; [reflexivity|].
  split; [apply clamp01_signal|]. split; [apply clamp01_signal|].
  destruct profile as [p|]; [|now left].
  destruct (has_keyword cardio_keywords (conditions p) || age_and_ge_65 (age p));
    [now right|now left].
Qed.

Lemma dehydration_signals_spec
    (raw_weather : RawWeather float) (profile : option Profile) :
  (forall a, profile_age profile = Some a ->
             (Z.abs (a - 40) < PyFloat.int_overflow)%Z) ->
  exists s1 s2 s3,
    B64.dehydration_signals raw_weather profile = Ok (s1, s2, s3) /\
    is_signal s1 /\ is_signal s2 /\ is_signal s3.
Proof.
  intros Hage. unfold B64.dehydration_signals.
  assert (E : exists v,
             PyFloat.of_int (match profile_age profile with
                             | Some a => a
                             | None => 30%Z
                             end - 40) = Ok v).
  { destruct (profile_age profile) as [a|].
    - eexists. apply of_int_returns. now apply Hage.
    - eexists. reflexivity. }
  destruct E as [v E]. rewrite E. cbn [bind].
  do 3 eexists. split; [reflexivity|].
  repeat split; apply clamp01_signal.
Qed.

Lemma profile_is_signal (s : float) :
  s = 0.2%float \/ s = 1%float -> is_signal s.
Proof. intros [->| ->]; right; split; reflexivity. Qed.

Lemma build_contributing_factors_spec
    (raw_weather : RawWeather float) (raw_air : RawAirQuality float)
    (profile : option Profile) (scores : Scores) :
  (forall a, profile_age profile = Some a ->
             (Z.abs (a - 40) < PyFloat.int_overflow)%Z) ->
  exists pa ph sd pd,
    B64.dehydration_signals raw_weather profile = Ok sd /\
    B64.build_contributing_factors raw_weather raw_air profile scores
    = Ok (mkContributingFactors
            (B64.factors
               ("PM2.5", "Ozone (O3)", "Profile (asthma/age)")%string pa)
            (B64.factors
               ("Heat Index", "Humidity", "Profile (age/heart/resp.)")%string
               ph)
            (B64.factors
               ("Heat Index", "Humidity", "Age (65+)")%string pd)) /\
    dimension_ok (B64.asthma_signals raw_air profile) pa /\
    dimension_ok (B64.heat_signals raw_weather profile) ph /\
    dimension_ok sd pd.
Proof.
  intros Hage.
  destruct (asthma_signals_spec raw_air profile)
    as [a1 [a2 [a3 [Ea [Ha1 [Ha2 Ha3]]]]]].
  destruct (heat_signals_spec raw_weather profile)
    as [h1 [h2 [h3 [Eh [Hh1 [Hh2 Hh3]]]]]].
  destruct (dehydration_signals_spec raw_weather profile Hage)
    as [d1 [d2 [d3 [Ed [Hd1 [Hd2 Hd3]]]]]].
  apply profile_is_signal in Ha3, Hh3.
  destruct (percentages_ok a1 a2 a3 Ha1 Ha2 Ha3) as [pa [Epa Hpa]].
  destruct (percentages_ok h1 h2 h3 Hh1 Hh2 Hh3) as [ph [Eph Hph]].
  destruct (percentages_ok d1 d2 d3 Hd1 Hd2 Hd3) as [pd [Epd Hpd]].
  exists pa, ph, (d1, d2, d3), pd.
  split; [exact Ed|].
  unfold B64.build_contributing_factors.
  rewrite Ea, Eh, Ed, Epa, Eph. cbn [bind]. rewrite Epd. cbn [bind].
  split; [reflexivity|]. split; [exact Hpa|]. split; [exact Hph|exact Hpd].
Qed.

Lemma B2R_02 : B2R 0.2 = 7205759403792794 / 36028797018963968.
Proof.
  unfold B2R.
  change (Prim2SF 0.2) with (S754_finite false 7205759403792794 (-55)).
  cbn [SF2R]. unfold sign_of.
  change (-55)%Z with (- (55))%Z. rewrite bpow_neg by lia.
  change (2 ^ 55)%Z with 36028797018963968%Z. field.
Qed.

Lemma finite_02 : finite 0.2 = true. Proof. reflexivity. Qed.

(** With a profile signal of 0.2 or 1 the sum of the signals is
    positive and the profile percentage is positive. *)
Lemma profile_percentage (s1 s2 s3 : float) :
  is_signal s1 -> is_signal s2 -> (s3 = 0.2%float \/ s3 = 1%float) ->
  (0.2 <=? s3)%float = true /\
  (0 <? s1 + s2 + s3)%float = true /\
  B64.total_or_one (s1, s2, s3) = (s1 + s2 + s3)%float /\
  exists p1 p2 p3,
    B64.percentages (s1, s2, s3) = Ok (p1, p2, p3) /\
    (0 <? p3)%float = true /\ dimension_ok (s1, s2, s3) (p1, p2, p3).
Proof.
  intros H1 H2 H3.
  assert (L3 : (0.2 <=? s3)%float = true) by (destruct H3; subst; reflexivity).
  assert (N3 : (s3 =? 0)%float = false) by (destruct H3; subst; reflexivity).
  assert (R3 : 0.2 <= B2R s3 <= 1).
  { destruct H3; subst; [rewrite B2R_02|rewrite B2R_1]; lra. }
  pose proof (profile_is_signal s3 H3) as H3'.
  destruct (is_signal_R s1 H1) as [F1 [B1 _]].
  destruct (is_signal_R s2 H2) as [F2 [B2 _]].
  destruct (total_R s1 s2 s3 H1 H2 H3') as [Ft [Lo _]].
  pose proof u64_val as U.
  assert (HT : 0 < B2R (s1 + s2 + s3)) by (rewrite U in Lo; lra).
  split; [exact L3|]. split.
  { apply (ltb_R 0 _ finite_0 Ft). now rewrite B2R_0. }
  destruct (percentages_ok s1 s2 s3 H1 H2 H3') as [[[p1 p2] p3] [Ep Hp]].
  assert (Z : all_zero (s1, s2, s3) = false).
  { cbn [all_zero]. rewrite N3. now rewrite andb_false_r. }
  pose proof Hp as Hp'.
  unfold dimension_ok in Hp. destruct Hp as [_ Hp].
  destruct (Hp Z) as [Et [_ [y1 [y2 [y3 [Ey [_ [_ [Sh _]]]]]]]]].
  split; [exact Et|].
  exists p1, p2, p3. split; [exact Ep|]. split; [|exact Hp'].
  injection Ey as _ _ ->.
  unfold share_of in Sh. destruct Sh as [Ry Ay].
  destruct (tenths_R y3 Ry) as [Fy [_ [Py _]]].
  apply (ltb_R 0 _ finite_0 Fy). rewrite B2R_0. apply Py.
  apply Rabs_le_bounds in Ay. rewrite bpow_m40 in Ay.
  assert (S3 : 0 < B2R s1 + B2R s2 + B2R s3 <= 3) by lra.
  assert (Q : 1 / 15 <= B2R s3 / (B2R s1 + B2R s2 + B2R s3)).
  { apply (Rmult_le_reg_r (B2R s1 + B2R s2 + B2R s3)); [lra|].
    replace (B2R s3 / (B2R s1 + B2R s2 + B2R s3)
             * (B2R s1 + B2R s2 + B2R s3)) with (B2R s3) by (field; lra).
    lra. }
  apply lt_IZR. lra.
Qed.

(** C10: in the asthma and in the heat dimension of
    [build_contributing_factors], on binary64 and for every input, the
    profile signal is 0.2 or 1.0, hence at least 0.2; the sum of the
    three signals is above zero, so the divisor is that sum and not the
    fallback 1.0, and the percentage of the profile is above zero, so
    the three percentages are not all zero.  In the dehydration dimension
    the three signals can all be zero (heat index 20, humidity 40, no
    profile: the age defaults to 30), the divisor is then 1.0 and the
    three percentages are zero. *)
Theorem C10_profile_signal
    (raw_weather : RawWeather float) (raw_air : RawAirQuality float)
    (profile : option Profile) :
  (exists s1 s2 s3 p1 p2 p3,
     B64.asthma_signals raw_air profile = (s1, s2, s3) /\
     (s3 = 0.2 \/ s3 = 1)%float /\ (0.2 <=? s3)%float = true /\
     (0 <? s1 + s2 + s3)%float = true /\
     B64.total_or_one (s1, s2, s3) = (s1 + s2 + s3)%float /\
     B64.percentages (s1, s2, s3) = Ok (p1, p2, p3) /\
     (0 <? p3)%float = true) /\
  (exists s1 s2 s3 p1 p2 p3,
     B64.heat_signals raw_weather profile = (s1, s2, s3) /\
     (s3 = 0.2 \/ s3 = 1)%float /\ (0.2 <=? s3)%float = true /\
     (0 <? s1 + s2 + s3)%float = true /\
     B64.total_or_one (s1, s2, s3) = (s1 + s2 + s3)%float /\
     B64.percentages (s1, s2, s3) = Ok (p1, p2, p3) /\
     (0 <? p3)%float = true) /\
  (B64.dehydration_signals (mkRawWeather 20 40 20)%float None
   = Ok (0, 0, 0)%float /\
   B64.total_or_one (0, 0, 0)%float = 1%float /\
   B64.percentages (0, 0, 0)%float = Ok (0, 0, 0)%float).
Proof.
  split; [|split].
  - destruct (asthma_signals_spec raw_air profile)
      as [s1 [s2 [s3 [E [H1 [H2 H3]]]]]].
    destruct (profile_percentage s1 s2 s3 H1 H2 H3)
      as [A [B [C [p1 [p2 [p3 [Hp [Hn _]]]]]]]].
    exists s1, s2, s3, p1, p2, p3. repeat split; assumption.
  - destruct (heat_signals_spec raw_weather profile)
      as [s1 [s2 [s3 [E [H1 [H2 H3]]]]]].
    destruct (profile_percentage s1 s2 s3 H1 H2 H3)
      as [A [B [C [p1 [p2 [p3 [Hp [Hn _]]]]]]]].
    exists s1, s2, s3, p1, p2, p3. repeat split; assumption.
  - vm_compute. repeat split; reflexivity.
Qed.

(** ** Chains of operations *)

Lemma float_den_pos (x : float) : (0 < float_den x)%Z.
Proof.
  unfold float_den. destruct (Prim2SF x); try lia;
    apply Z.pow_pos_nonneg; lia.
Qed.

Lemma B2R_frac (x : float) :
  B2R x = IZR (float_num x) / IZR (float_den x).
Proof.
  unfold B2R, float_num, float_den.
  destruct (Prim2SF x) as [s|s| |s m e]; cbn [SF2R]; try (field; lra).
  assert (Ez : IZR (if s then Zneg m else Zpos m) = sign_of s * IZR (Zpos m)).
  { unfold sign_of. destruct s; [|lra].
    change (Zneg m) with (- Zpos m)%Z. rewrite opp_IZR. lra. }
  rewrite mult_IZR, Ez.
  assert (P1 : (0 < 2 ^ Z.max e 0)%Z) by (apply Z.pow_pos_nonneg; lia).
  assert (P2 : (0 < 2 ^ Z.max (- e) 0)%Z) by (apply Z.pow_pos_nonneg; lia).
  apply IZR_lt in P1, P2.
  rewrite <- !bpow_IZR by lia. rewrite <- !bpow_IZR in P1, P2 by lia.
  replace (bpow e) with (bpow (Z.max e 0) * / bpow (Z.max (- e) 0)).
  - field. lra.
  - destruct (Z_le_gt_dec 0 e) as [L|G].
    + rewrite Z.max_l, (Z.max_r (- e) 0) by lia. rewrite bpow_0. field.
    + rewrite Z.max_r, (Z.max_l (- e) 0) by lia. rewrite bpow_0.
      rewrite bpow_IZR, <- bpow_neg by lia. rewrite Z.opp_involutive. lra.
Qed.

Lemma lit_exact_R (c : float) (n : Z) :
  lit_exact c n = true -> finite c = true /\ B2R c = IZR n.
Proof.
  unfold lit_exact. intros H. apply andb_true_iff in H. destruct H as [F E].
  split; [exact F|]. apply Z.eqb_eq in E. rewrite B2R_frac, E, mult_IZR.
  pose proof (float_den_pos c) as P. apply IZR_lt in P. field. lra.
Qed.

Lemma lit_ok_rel (c : float) (n : Z) (d : positive) :
  lit_ok c n d = true -> rel c (IZR n / IZR (Zpos d)) 1.
Proof.
  unfold lit_ok. intros H. apply andb_true_iff in H. destruct H as [F E].
  split; [exact F|]. apply Z.leb_le in E. rewrite B2R_frac.
  pose proof (float_den_pos c) as P. apply IZR_lt in P.
  assert (Pd : 0 < IZR (Zpos d)) by (apply IZR_lt; lia).
  set (N := float_num c) in *. set (D := float_den c) in *.
  apply IZR_le in E. rewrite !mult_IZR, !abs_IZR in E.
  rewrite minus_IZR, !mult_IZR in E.
  rewrite <- bpow_IZR in E by lia.
  assert (E1 : IZR N / IZR D - IZR n / IZR (Zpos d)
               = (IZR N * IZR (Zpos d) - IZR n * IZR D)
                 * / (IZR D * IZR (Zpos d))) by (field; lra).
  rewrite E1, Rabs_mult.
  assert (PP : 0 < IZR D * IZR (Zpos d)) by nra.
  rewrite (Rabs_pos_eq (/ (IZR D * IZR (Zpos d))))
    by (left; now apply Rinv_0_lt_compat).
  unfold Rdiv at 1. rewrite Rabs_mult.
  rewrite (Rabs_pos_eq (/ IZR (Zpos d)))
    by (left; now apply Rinv_0_lt_compat).
  apply (Rmult_le_reg_r (IZR D * IZR (Zpos d) * bpow 53)).
  { pose proof (bpow_pos 53). nra. }
  replace (Rabs (IZR N * IZR (Zpos d) - IZR n * IZR D)
           * / (IZR D * IZR (Zpos d)) * (IZR D * IZR (Zpos d) * bpow 53))
    with (Rabs (IZR N * IZR (Zpos d) - IZR n * IZR D) * bpow 53)
    by (field; lra).
  replace (1 * u64 * (Rabs (IZR n) * / IZR (Zpos d))
           * (IZR D * IZR (Zpos d) * bpow 53))
    with (Rabs (IZR n) * IZR D * (u64 * bpow 53)) by (field; lra).
  unfold u64. rewrite <- bpow_add. change (-53 + 53)%Z with 0%Z.
  rewrite bpow_0, Rmult_1_r. exact E.
Qed.

(** ** Products *)

Lemma rel_exact_var (x : float) : finite x = true -> rel x (B2R x) 0.
Proof.
  intros F. split; [exact F|].
  replace (B2R x - B2R x) with 0 by ring. rewrite Rabs_R0. lra.
Qed.

Lemma Rabs_near (X r e : R) :
  Rabs (X - r) <= e -> Rabs r - e <= Rabs X <= Rabs r + e.
Proof.
  intros H. split.
  - pose proof (Rabs_triang X (r - X)) as T.
    replace (X + (r - X)) with r in T by ring.
    rewrite (Rabs_minus_sym r X) in T. lra.
  - pose proof (Rabs_triang r (X - r)) as T.
    replace (r + (X - r)) with X in T by ring. lra.
Qed.

Lemma rel_mul (x y : float) (r s a b : R) :
  rel x r a -> rel y s b -> 0 <= a <= 10 -> 0 <= b <= 10 ->
  bpow (-1000) <= Rabs (r * s) <= bpow 1020 ->
  rel (x * y) (r * s) (a + b + 1.01).
Proof.
  intros [Fx Ex] [Fy Ey] Ha Hb [Plo Phi].
  pose proof u64_val as U.
  set (X := B2R x) in *. set (Y := B2R y) in *.
  set (p := Rabs r) in *. set (q := Rabs s) in *.
  assert (Hp : 0 <= p) by apply Rabs_pos.
  assert (Hq : 0 <= q) by apply Rabs_pos.
  rewrite Rabs_mult in Plo, Phi. fold p q in Plo, Phi.
  assert (Hu : 0 < u64 < / 1000000) by (rewrite U; lra).
  destruct (Rabs_near X r _ Ex) as [X1 X2]. fold p in X1, X2.
  destruct (Rabs_near Y s _ Ey) as [Y1 Y2]. fold q in Y1, Y2.
  assert (au : 0 <= a * u64 <= / 100000) by nra.
  assert (bu : 0 <= b * u64 <= / 100000) by nra.
  assert (Xlo : (1 - a * u64) * p <= Rabs X) by lra.
  assert (Xhi : Rabs X <= (1 + a * u64) * p) by lra.
  assert (Ylo : (1 - b * u64) * q <= Rabs Y) by lra.
  assert (Yhi : Rabs Y <= (1 + b * u64) * q) by lra.
  assert (PQ : 0 <= p * q) by now apply Rmult_le_pos.
  assert (XYhi : Rabs X * Rabs Y <= (1 + a * u64) * (1 + b * u64) * (p * q)).
  { replace ((1 + a * u64) * (1 + b * u64) * (p * q))
      with (((1 + a * u64) * p) * ((1 + b * u64) * q)) by ring.
    apply Rmult_le_compat; try apply Rabs_pos; assumption. }
  assert (XYlo : (1 - a * u64) * (1 - b * u64) * (p * q) <= Rabs X * Rabs Y).
  { replace ((1 - a * u64) * (1 - b * u64) * (p * q))
      with (((1 - a * u64) * p) * ((1 - b * u64) * q)) by ring.
    apply Rmult_le_compat; try assumption.
    - apply Rmult_le_pos; lra.
    - apply Rmult_le_pos; lra. }
  assert (K1 : (1 + a * u64) * (1 + b * u64) <= 1.0001) by nra.
  assert (K2 : 0.9999 <= (1 - a * u64) * (1 - b * u64)) by nra.
  assert (B1 : Rabs (X * Y) <= 1.0001 * (p * q)).
  { rewrite Rabs_mult. eapply Rle_trans; [exact XYhi|].
    apply Rmult_le_compat_r; assumption. }
  assert (B2 : 0.9999 * (p * q) <= Rabs (X * Y)).
  { rewrite Rabs_mult. eapply Rle_trans; [|exact XYlo].
    apply Rmult_le_compat_r; assumption. }
  assert (Big : bpow 1020 * 1.0001 < bpow 1023).
  { replace 1023%Z with (1020 + 3)%Z by lia. rewrite bpow_add.
    replace (bpow 3) with 8 by (rewrite bpow_IZR by lia; simpl; lra).
    pose proof (bpow_pos 1020). lra. }
  assert (Small : bpow (-1022) <= 0.9999 * bpow (-1000)).
  { replace (-1000)%Z with (-1022 + 22)%Z by lia. rewrite bpow_add.
    replace (bpow 22) with 4194304 by (rewrite bpow_IZR by lia; simpl; lra).
    pose proof (bpow_pos (-1022)). lra. }
  destruct (mul_R x y Fx Fy) as [Fm [_ [Em _]]]; [fold X Y; nra|].
  fold X Y in Em. specialize (Em ltac:(nra)).
  split; [exact Fm|].
  assert (D : Rabs (X * Y - r * s)
              <= (a * u64 * (1 + b * u64) + b * u64) * (p * q)).
  { replace (X * Y - r * s) with ((X - r) * Y + r * (Y - s)) by ring.
    eapply Rle_trans; [apply Rabs_triang|].
    rewrite !Rabs_mult. fold p.
    assert (T1 : Rabs (X - r) * Rabs Y
                 <= (a * u64 * p) * ((1 + b * u64) * q)).
    { apply Rmult_le_compat; try apply Rabs_pos; assumption. }
    assert (T2 : p * Rabs (Y - s) <= p * (b * u64 * q)).
    { apply Rmult_le_compat_l; assumption. }
    nra. }
  assert (Tot : Rabs (B2R (x * y) - r * s)
                <= u64 * ((1 + a * u64) * (1 + b * u64) * (p * q))
                   + (a * u64 * (1 + b * u64) + b * u64) * (p * q)).
  { replace (B2R (x * y) - r * s)
      with ((B2R (x * y) - X * Y) + (X * Y - r * s)) by ring.
    eapply Rle_trans; [apply Rabs_triang|].
    assert (u64 * Rabs (X * Y)
            <= u64 * ((1 + a * u64) * (1 + b * u64) * (p * q))).
    { apply Rmult_le_compat_l; [lra|]. rewrite Rabs_mult. exact XYhi. }
    lra. }
  eapply Rle_trans; [exact Tot|].
  rewrite Rabs_mult. fold p q.
  assert (K : u64 * ((1 + a * u64) * (1 + b * u64))
              + (a * u64 * (1 + b * u64) + b * u64)
              <= (a + b + 1.01) * u64).
  { assert (ab : 0 <= a * b <= 100) by nra.
    assert (E : u64 * ((1 + a * u64) * (1 + b * u64))
                + (a * u64 * (1 + b * u64) + b * u64)
                = (a + b + 1) * u64
                  + u64 * u64 * (a + b + a * b) + u64 * u64 * u64 * (a * b))
      by ring.
    rewrite E.
    assert (u64 * u64 * (a + b + a * b) <= u64 * (/ 1000000 * 120)).
    { rewrite Rmult_assoc. apply Rmult_le_compat_l; [lra|].
      apply Rmult_le_compat; lra. }
    assert (u64 * u64 * u64 * (a * b) <= u64 * (/ 1000000 * 100)).
    { rewrite !Rmult_assoc. apply Rmult_le_compat_l; [lra|].
      assert (0 <= u64 * (a * b) <= 100).
      { split; [apply Rmult_le_pos; lra|]. 
        replace 100 with (1 * 100) by ring.
        apply Rmult_le_compat; lra. }
      replace (/ 1000000 * 100) with (/ 1000000 * 100) by ring.
      apply Rmult_le_compat; lra. }
    lra. }
  replace (u64 * ((1 + a * u64) * (1 + b * u64) * (p * q))
           + (a * u64 * (1 + b * u64) + b * u64) * (p * q))
    with ((u64 * ((1 + a * u64) * (1 + b * u64))
           + (a * u64 * (1 + b * u64) + b * u64)) * (p * q)) by ring.
  apply Rmult_le_compat_r; assumption.
Qed.

(** ** Sums *)

Lemma rel_approx (x : float) (r k : R) : rel x r k -> approx x r (Rabs r) k.
Proof. intros [F E]. split; [exact F|]. split; [exact E|lra]. Qed.

Lemma approx_weaken (x : float) (r M k M' k' : R) :
  approx x r M k -> M <= M' -> 0 <= k <= k' -> approx x r M' k'.
Proof.
  intros [F [E B]] HM Hk. split; [exact F|].
  pose proof (Rabs_pos r) as P.
  pose proof u64_val as U.
  assert (Hu : 0 < u64) by (rewrite U; lra).
  split; [|lra].
  eapply Rle_trans; [exact E|].
  rewrite !Rmult_assoc.
  apply Rmult_le_compat; try lra.
  - apply Rmult_le_pos; lra.
  - apply Rmult_le_compat_l; lra.
Qed.

Lemma big_1020 : bpow 1020 * 1.0001 < bpow 1023.
Proof.
  replace 1023%Z with (1020 + 3)%Z by lia. rewrite bpow_add.
  replace (bpow 3) with 8 by (rewrite bpow_IZR by lia; simpl; lra).
  pose proof (bpow_pos 1020). lra.
Qed.

Lemma approx_add (x y : float) (r s M K a b c : R) :
  approx x r M a -> approx y s K b -> a <= c -> b <= c -> 0 <= c <= 20 ->
  M + K <= bpow 1020 ->
  approx (x + y) (r + s) (M + K) (c + 1.01).
Proof.
  intros [Fx [Ex Bx]] [Fy [Ey By]] Ha Hb Hc Hbig.
  pose proof u64_val as U.
  assert (Hu : 0 < u64 < / 1000000) by (rewrite U; lra).
  pose proof (Rabs_pos r) as Pr. pose proof (Rabs_pos s) as Ps.
  set (X := B2R x) in *. set (Y := B2R y) in *.
  assert (E1 : Rabs (X - r) <= c * u64 * M).
  { eapply Rle_trans; [exact Ex|].
    apply Rmult_le_compat_r; [lra|]. apply Rmult_le_compat_r; lra. }
  assert (E2 : Rabs (Y - s) <= c * u64 * K).
  { eapply Rle_trans; [exact Ey|].
    apply Rmult_le_compat_r; [lra|]. apply Rmult_le_compat_r; lra. }
  assert (D : Rabs (X + Y - (r + s)) <= c * u64 * (M + K)).
  { replace (X + Y - (r + s)) with ((X - r) + (Y - s)) by ring.
    eapply Rle_trans; [apply Rabs_triang|]. lra. }
  assert (RS : Rabs (r + s) <= M + K).
  { eapply Rle_trans; [apply Rabs_triang|]. lra. }
  assert (cu : 0 <= c * u64 <= / 10000) by nra.
  assert (S : Rabs (X + Y) <= (1 + c * u64) * (M + K)).
  { destruct (Rabs_near _ _ _ D) as [_ N]. lra. }
  assert (MK : 0 <= M + K) by lra.
  pose proof big_1020 as Big.
  destruct (add_R x y Fx Fy) as [Fa Ea]; [fold X Y; nra|].
  fold X Y in Ea.
  split; [exact Fa|]. split; [|exact RS].
  replace (B2R (x + y) - (r + s))
    with ((B2R (x + y) - (X + Y)) + (X + Y - (r + s))) by ring.
  eapply Rle_trans; [apply Rabs_triang|].
  assert (T : u64 * Rabs (X + Y) <= u64 * ((1 + c * u64) * (M + K))).
  { apply Rmult_le_compat_l; lra. }
  assert (K1 : u64 * (1 + c * u64) + c * u64 <= (c + 1.01) * u64) by nra.
  assert (K2 : (u64 * (1 + c * u64) + c * u64) * (M + K)
               <= (c + 1.01) * u64 * (M + K)).
  { apply Rmult_le_compat_r; assumption. }
  lra.
Qed.

Lemma approx_sub (x y : float) (r s M K a b c : R) :
  approx x r M a -> approx y s K b -> a <= c -> b <= c -> 0 <= c <= 20 ->
  M + K <= bpow 1020 ->
  approx (x - y) (r - s) (M + K) (c + 1.01).
Proof.
  intros [Fx [Ex Bx]] [Fy [Ey By]] Ha Hb Hc Hbig.
  pose proof u64_val as U.
  assert (Hu : 0 < u64 < / 1000000) by (rewrite U; lra).
  pose proof (Rabs_pos r) as Pr. pose proof (Rabs_pos s) as Ps.
  set (X := B2R x) in *. set (Y := B2R y) in *.
  assert (E1 : Rabs (X - r) <= c * u64 * M).
  { eapply Rle_trans; [exact Ex|].
    apply Rmult_le_compat_r; [lra|]. apply Rmult_le_compat_r; lra. }
  assert (E2 : Rabs (Y - s) <= c * u64 * K).
  { eapply Rle_trans; [exact Ey|].
    apply Rmult_le_compat_r; [lra|]. apply Rmult_le_compat_r; lra. }
  assert (D : Rabs (X - Y - (r - s)) <= c * u64 * (M + K)).
  { replace (X - Y - (r - s)) with ((X - r) + - (Y - s)) by ring.
    eapply Rle_trans; [apply Rabs_triang|]. rewrite Rabs_Ropp. lra. }
  assert (RS : Rabs (r - s) <= M + K).
  { replace (r - s) with (r + - s) by ring.
    eapply Rle_trans; [apply Rabs_triang|]. rewrite Rabs_Ropp. lra. }
  assert (cu : 0 <= c * u64 <= / 10000) by nra.
  assert (S : Rabs (X - Y) <= (1 + c * u64) * (M + K)).
  { destruct (Rabs_near _ _ _ D) as [_ N]. lra. }
  assert (MK : 0 <= M + K) by lra.
  pose proof big_1020 as Big.
  destruct (sub_R x y Fx Fy) as [Fa Ea]; [fold X Y; nra|].
  fold X Y in Ea.
  split; [exact Fa|]. split; [|exact RS].
  replace (B2R (x - y) - (r - s))
    with ((B2R (x - y) - (X - Y)) + (X - Y - (r - s))) by ring.
  eapply Rle_trans; [apply Rabs_triang|].
  assert (T : u64 * Rabs (X - Y) <= u64 * ((1 + c * u64) * (M + K))).
  { apply Rmult_le_compat_l; lra. }
  assert (K1 : u64 * (1 + c * u64) + c * u64 <= (c + 1.01) * u64) by nra.
  assert (K2 : (u64 * (1 + c * u64) + c * u64) * (M + K)
               <= (c + 1.01) * u64 * (M + K)).
  { apply Rmult_le_compat_r; assumption. }
  lra.
Qed.

(** ** Magnitudes *)

Lemma mag_mul (p v : R) (lo hi e : Z) :
  bpow lo <= Rabs p <= bpow hi -> 1 <= v <= bpow e ->
  bpow lo <= Rabs (p * v) <= bpow (hi + e).
Proof.
  intros [P1 P2] [V1 V2]. rewrite Rabs_mult, (Rabs_pos_eq v) by lra.
  pose proof (bpow_pos lo). rewrite bpow_add.
  pose proof (bpow_pos hi). split; nra.
Qed.

Lemma mag_range (p : R) (lo hi : Z) :
  bpow lo <= Rabs p <= bpow hi -> (-1000 <= lo)%Z -> (hi <= 1014)%Z ->
  bpow (-1000) <= Rabs p <= bpow 1020 /\ Rabs p <= bpow 1014.
Proof.
  intros [P1 P2] L H.
  assert (bpow (-1000) <= bpow lo) by now apply bpow_le.
  assert (bpow hi <= bpow 1014) by now apply bpow_le.
  assert (bpow 1014 <= bpow 1020) by (apply bpow_le; lia).
  lra.
Qed.

(** ** The regression *)

Lemma bpow_m20 : bpow (-20) = / 1048576.
Proof. change (-20)%Z with (- (20))%Z. now rewrite bpow_neg by lia. Qed.

Lemma bpow_7 : bpow 7 = 128.
Proof. rewrite bpow_IZR by lia. reflexivity. Qed.

Ltac lit n d :=
  split;
  [ match goal with
    | |- rel _ ?r _ =>
      replace r with (IZR n / IZR (Zpos d)) by lra;
      apply lit_ok_rel; vm_compute; reflexivity
    end
  | rewrite bpow_m20, ?bpow_7, ?bpow_0;
    first [ rewrite Rabs_pos_eq by lra | rewrite Rabs_left by lra ]; lra ].

Lemma lit_c0 : rel (-42.379)%float (-42.379) 1 /\
               bpow (-20) <= Rabs (-42.379) <= bpow 7.
Proof. lit (-42379)%Z 1000%positive. Qed.

Lemma lit_c1 : rel 2.04901523%float 2.04901523 1 /\
               bpow (-20) <= Rabs 2.04901523 <= bpow 7.
Proof. lit 204901523%Z 100000000%positive. Qed.

Lemma lit_c2 : rel 10.14333127%float 10.14333127 1 /\
               bpow (-20) <= Rabs 10.14333127 <= bpow 7.
Proof. lit 1014333127%Z 100000000%positive. Qed.

Lemma lit_c3 : rel 0.22475541%float 0.22475541 1 /\
               bpow (-20) <= Rabs 0.22475541 <= bpow 0.
Proof. lit 22475541%Z 100000000%positive. Qed.

Lemma lit_c4 : rel 0.00683783%float 0.00683783 1 /\
               bpow (-20) <= Rabs 0.00683783 <= bpow 0.
Proof. lit 683783%Z 100000000%positive. Qed.

Lemma lit_c5 : rel 0.05481717%float 0.05481717 1 /\
               bpow (-20) <= Rabs 0.05481717 <= bpow 0.
Proof. lit 5481717%Z 100000000%positive. Qed.

Lemma lit_c6 : rel 0.00122874%float 0.00122874 1 /\
               bpow (-20) <= Rabs 0.00122874 <= bpow 0.
Proof. lit 122874%Z 100000000%positive. Qed.

Lemma lit_c7 : rel 0.00085282%float 0.00085282 1 /\
               bpow (-20) <= Rabs 0.00085282 <= bpow 0.
Proof. lit 85282%Z 100000000%positive. Qed.

Lemma lit_c8 : rel 0.00000199%float 0.00000199 1 /\
               bpow (-20) <= Rabs 0.00000199 <= bpow 0.
Proof. lit 199%Z 100000000%positive. Qed.

(** One more factor: a float that stands for itself, at least 1. *)
Lemma mono_step (x y : float) (m k : R) (lo hi e : Z) :
  rel x m k /\ bpow lo <= Rabs m <= bpow hi ->
  finite y = true -> 1 <= B2R y <= bpow e ->
  0 <= k <= 8 -> (-1000 <= lo)%Z -> (hi + e <= 1014)%Z ->
  rel (x * y) (m * B2R y) (k + 1.01) /\
  bpow lo <= Rabs (m * B2R y) <= bpow (hi + e).
Proof.
  intros [Hr Hm] Fy Hy Hk Hlo Hhi.
  pose proof (mag_mul m (B2R y) lo hi e Hm Hy) as Hm'.
  split; [|exact Hm'].
  replace (k + 1.01) with (k + 0 + 1.01) by ring.
  apply rel_mul; [exact Hr|now apply rel_exact_var|lra|lra|].
  apply (mag_range _ lo (hi + e) Hm' Hlo Hhi).
Qed.

Lemma bpow_1020_1014 : bpow 1020 = 64 * bpow 1014.
Proof.
  replace 1020%Z with (6 + 1014)%Z by lia. rewrite bpow_add.
  rewrite (bpow_IZR 6) by lia. reflexivity.
Qed.

(** The regression on binary64 against the regression on the reals. *)
Lemma regression_approx (T R : float) :
  finite T = true -> finite R = true ->
  1 <= B2R T <= bpow 500 -> 1 <= B2R R <= bpow 7 ->
  approx (regression T R) (Spec.rothfusz (B2R T) (B2R R))
         (rothfusz_abs (B2R T) (B2R R)) 10.09 /\
  rothfusz_abs (B2R T) (B2R R) <= bpow 1020.
Proof.
  intros FT FR HT HR.
  set (t := B2R T) in *. set (h := B2R R) in *.
  (* the terms *)
  pose proof (mono_step _ T _ _ _ _ 500 lit_c1 FT HT
                ltac:(lra) ltac:(lia) ltac:(lia)) as M1.
  pose proof (mono_step _ R _ _ _ _ 7 lit_c2 FR HR
                ltac:(lra) ltac:(lia) ltac:(lia)) as M2.
  pose proof (mono_step _ T _ _ _ _ 500 lit_c3 FT HT
                ltac:(lra) ltac:(lia) ltac:(lia)) as M3a.
  pose proof (mono_step _ R _ _ _ _ 7 M3a FR HR
                ltac:(lra) ltac:(lia) ltac:(lia)) as M3.
  pose proof (mono_step _ T _ _ _ _ 500 lit_c4 FT HT
                ltac:(lra) ltac:(lia) ltac:(lia)) as M4a.
  pose proof (mono_step _ T _ _ _ _ 500 M4a FT HT
                ltac:(lra) ltac:(lia) ltac:(lia)) as M4.
  pose proof (mono_step _ R _ _ _ _ 7 lit_c5 FR HR
                ltac:(lra) ltac:(lia) ltac:(lia)) as M5a.
  pose proof (mono_step _ R _ _ _ _ 7 M5a FR HR
                ltac:(lra) ltac:(lia) ltac:(lia)) as M5.
  pose proof (mono_step _ T _ _ _ _ 500 lit_c6 FT HT
                ltac:(lra) ltac:(lia) ltac:(lia)) as M6a.
  pose proof (mono_step _ T _ _ _ _ 500 M6a FT HT
                ltac:(lra) ltac:(lia) ltac:(lia)) as M6b.
  pose proof (mono_step _ R _ _ _ _ 7 M6b FR HR
                ltac:(lra) ltac:(lia) ltac:(lia)) as M6.
  pose proof (mono_step _ T _ _ _ _ 500 lit_c7 FT HT
                ltac:(lra) ltac:(lia) ltac:(lia)) as M7a.
  pose proof (mono_step _ R _ _ _ _ 7 M7a FR HR
                ltac:(lra) ltac:(lia) ltac:(lia)) as M7b.
  pose proof (mono_step _ R _ _ _ _ 7 M7b FR HR
                ltac:(lra) ltac:(lia) ltac:(lia)) as M7.
  pose proof (mono_step _ T _ _ _ _ 500 lit_c8 FT HT
                ltac:(lra) ltac:(lia) ltac:(lia)) as M8a.
  pose proof (mono_step _ T _ _ _ _ 500 M8a FT HT
                ltac:(lra) ltac:(lia) ltac:(lia)) as M8b.
  pose proof (mono_step _ R _ _ _ _ 7 M8b FR HR
                ltac:(lra) ltac:(lia) ltac:(lia)) as M8c.
  pose proof (mono_step _ R _ _ _ _ 7 M8c FR HR
                ltac:(lra) ltac:(lia) ltac:(lia)) as M8.
  clear M3a M4a M5a M6a M6b M7a M7b M8a M8b M8c.
  fold t h in M1, M2, M3, M4, M5, M6, M7, M8.
  pose proof lit_c0 as M0.
  (* their sizes *)
  assert (B : forall m lo hi, bpow lo <= Rabs m <= bpow hi ->
              (hi <= 1014)%Z -> Rabs m <= bpow 1014).
  { intros m lo hi [_ H] L. apply bpow_le in L. lra. }
  destruct M0 as [R0 S0]. destruct M1 as [R1 S1]. destruct M2 as [R2 S2].
  destruct M3 as [R3 S3]. destruct M4 as [R4 S4]. destruct M5 as [R5 S5].
  destruct M6 as [R6 S6]. destruct M7 as [R7 S7]. destruct M8 as [R8 S8].
  apply B in S0, S1, S2, S3, S4, S5, S6, S7, S8; try lia. clear B.
  apply rel_approx in R0, R1, R2, R3, R4, R5, R6, R7, R8.
  pose proof bpow_1020_1014 as E20. pose proof (bpow_pos 1014) as P14.
  (* the sum, from left to right *)
  pose proof (approx_add _ _ _ _ _ _ _ _ 2.01 R0 R1
                ltac:(lra) ltac:(lra) ltac:(lra) ltac:(lra)) as A1.
  pose proof (approx_add _ _ _ _ _ _ _ _ 3.02 A1 R2
                ltac:(lra) ltac:(lra) ltac:(lra) ltac:(lra)) as A2.
  pose proof (approx_sub _ _ _ _ _ _ _ _ 4.03 A2 R3
                ltac:(lra) ltac:(lra) ltac:(lra) ltac:(lra)) as A3.
  pose proof (approx_sub _ _ _ _ _ _ _ _ 5.04 A3 R4
                ltac:(lra) ltac:(lra) ltac:(lra) ltac:(lra)) as A4.
  pose proof (approx_sub _ _ _ _ _ _ _ _ 6.05 A4 R5
                ltac:(lra) ltac:(lra) ltac:(lra) ltac:(lra)) as A5.
  pose proof (approx_add _ _ _ _ _ _ _ _ 7.06 A5 R6
                ltac:(lra) ltac:(lra) ltac:(lra) ltac:(lra)) as A6.
  pose proof (approx_add _ _ _ _ _ _ _ _ 8.07 A6 R7
                ltac:(lra) ltac:(lra) ltac:(lra) ltac:(lra)) as A7.
  pose proof (approx_sub _ _ _ _ _ _ _ _ 9.08 A7 R8
                ltac:(lra) ltac:(lra) ltac:(lra) ltac:(lra)) as A8.
  clear A1 A2 A3 A4 A5 A6 A7 R0 R1 R2 R3 R4 R5 R6 R7 R8.
  (* absolute values of the terms *)
  assert (Pt : 0 <= t) by lra. assert (Ph : 0 <= h) by lra.
  assert (Pth : 0 <= t * h) by now apply Rmult_le_pos.
  assert (Ptt : 0 <= t * t) by now apply Rmult_le_pos.
  assert (Phh : 0 <= h * h) by now apply Rmult_le_pos.
  assert (Ptth : 0 <= t * t * h) by now apply Rmult_le_pos.
  assert (Pthh : 0 <= t * h * h) by now apply Rmult_le_pos.
  assert (Ptthh : 0 <= t * t * h * h) by now apply Rmult_le_pos.
  assert (Eabs : Rabs (-42.379) + Rabs (2.04901523 * t)
                 + Rabs (10.14333127 * h) + Rabs (0.22475541 * t * h)
                 + Rabs (0.00683783 * t * t) + Rabs (0.05481717 * h * h)
                 + Rabs (0.00122874 * t * t * h)
                 + Rabs (0.00085282 * t * h * h)
                 + Rabs (0.00000199 * t * t * h * h)
                 = rothfusz_abs t h).
  { rewrite (Rabs_left (-42.379)) by lra.
    rewrite !Rabs_pos_eq
      by (repeat (first [apply (fun a => Rmult_le_pos a t)
                        |apply (fun a => Rmult_le_pos a h)];
                  [|lra]); lra).
    unfold rothfusz_abs. lra. }
  assert (Eval : -42.379 + 2.04901523 * t + 10.14333127 * h
                 - 0.22475541 * t * h - 0.00683783 * t * t
                 - 0.05481717 * h * h + 0.00122874 * t * t * h
                 + 0.00085282 * t * h * h - 0.00000199 * t * t * h * h
                 = Spec.rothfusz t h).
  { unfold Spec.rothfusz. lra. }
  rewrite Eabs, Eval in A8.
  split.
  - replace 10.09 with (9.08 + 1.01) by lra. exact A8.
  - rewrite <- Eabs. lra.
Qed.

Lemma B2R_32 : finite 32 = true /\ B2R 32 = 32.
Proof. apply (lit_exact_R 32 32). vm_compute. reflexivity. Qed.

Lemma B2R_5 : finite 5 = true /\ B2R 5 = 5.
Proof. apply (lit_exact_R 5 5). vm_compute. reflexivity. Qed.

Lemma B2R_9 : finite 9 = true /\ B2R 9 = 9.
Proof. apply (lit_exact_R 9 9). vm_compute. reflexivity. Qed.

Lemma B2R_80 : finite 80 = true /\ B2R 80 = 80.
Proof. apply (lit_exact_R 80 80). vm_compute. reflexivity. Qed.

Lemma B2R_13 : finite 13 = true /\ B2R 13 = 13.
Proof. apply (lit_exact_R 13 13). vm_compute. reflexivity. Qed.

Lemma B2R_85 : finite 85 = true /\ B2R 85 = 85.
Proof. apply (lit_exact_R 85 85). vm_compute. reflexivity. Qed.

Lemma B2R_2p500 : finite 0x1p500 = true /\ B2R 0x1p500 = bpow 500.
Proof.
  rewrite bpow_IZR by lia.
  apply (lit_exact_R 0x1p500 (2 ^ 500)). vm_compute. reflexivity.
Qed.

Lemma rothfusz_abs_bound (t h : R) :
  80 <= t -> 0 <= h <= 85 -> 0 <= rothfusz_abs t h <= 0.68 * (t * t).
Proof.
  intros Ht Hh. unfold rothfusz_abs.
  assert (T1 : 80 * t <= t * t) by nra.
  assert (T2 : 6400 <= t * t) by nra.
  assert (A1 : 0 <= t * h <= 85 * t) by nra.
  assert (A2 : 0 <= h * h <= 7225) by nra.
  assert (A3 : 0 <= t * t * h <= 85 * (t * t)) by nra.
  assert (A4 : 0 <= t * h * h <= 7225 * t).
  { split; [nra|]. replace (t * h * h) with (t * (h * h)) by ring. nra. }
  assert (A5 : 0 <= t * t * h * h <= 7225 * (t * t)).
  { split; [nra|]. replace (t * t * h * h) with (t * t * (h * h)) by ring.
    nra. }
  replace (t ^ 2) with (t * t) by ring.
  replace (h ^ 2) with (h * h) by ring.
  replace (0.22475541 * t * h) with (0.22475541 * (t * h)) by lra.
  replace (0.00122874 * (t * t) * h) with (0.00122874 * (t * t * h)) by lra.
  replace (0.00085282 * t * (h * h)) with (0.00085282 * (t * h * h)) by lra.
  replace (0.00000199 * (t * t) * (h * h))
    with (0.00000199 * (t * t * h * h)) by lra.
  split; lra.
Qed.

Lemma rothfusz_abs_ge (t h : R) :
  0 <= t -> 0 <= h -> Rabs (Spec.rothfusz t h) <= rothfusz_abs t h.
Proof.
  intros Ht Hh. unfold Spec.rothfusz, rothfusz_abs.
  assert (A1 : 0 <= t * h) by nra.
  assert (A2 : 0 <= h * h) by nra.
  assert (A0 : 0 <= t * t) by nra.
  assert (A3 : 0 <= t * t * h) by nra.
  assert (A4 : 0 <= t * h * h) by nra.
  assert (A5 : 0 <= t * t * h * h) by nra.
  replace (t ^ 2) with (t * t) by ring.
  replace (h ^ 2) with (h * h) by ring.
  replace (0.22475541 * t * h) with (0.22475541 * (t * h)) by lra.
  replace (0.00122874 * (t * t) * h) with (0.00122874 * (t * t * h)) by lra.
  replace (0.00085282 * t * (h * h)) with (0.00085282 * (t * h * h)) by lra.
  replace (0.00000199 * (t * t) * (h * h))
    with (0.00000199 * (t * t * h * h)) by lra.
  apply Rabs_le. split; lra.
Qed.

(** The conversion back to Celsius. *)
Lemma celsius_approx (x : float) (P Q : R) :
  approx x P Q 10.09 -> Q <= bpow 1020 ->
  finite ((x - 32) * 5 / 9) = true /\
  Rabs (B2R ((x - 32) * 5 / 9) - Spec.celsius P) <= u64 * (7.5 * Q + 55).
Proof.
  intros [Fx [Ex Bp]] HQ.
  pose proof u64_val as U. pose proof eta64_small as Hs.
  pose proof eta64_pos as He.
  assert (Hu : 0 < u64 < / 1000000) by (rewrite U; lra).
  assert (Heta : eta64 <= u64 * / 1000000).
  { eapply Rle_trans; [exact Hs|].
    rewrite Rmult_assoc. apply Rmult_le_compat_l; [lra|]. nra. }
  pose proof (Rabs_pos P) as PP.
  assert (Q0 : 0 <= Q) by lra.
  destruct B2R_32 as [F32 E32]. destruct B2R_5 as [F5 E5].
  destruct B2R_9 as [F9 E9].
  assert (Big : bpow 1023 = 8 * bpow 1020).
  { replace 1023%Z with (3 + 1020)%Z by lia. rewrite bpow_add.
    rewrite (bpow_IZR 3) by lia. reflexivity. }
  pose proof (bpow_pos 1020) as P20.
  assert (One : 1024 <= bpow 1020).
  { replace 1024 with (bpow 10) by (rewrite bpow_IZR by lia; reflexivity).
    apply bpow_le. lia. }
  set (X := B2R x) in *.
  assert (uQ : 0 <= u64 * Q <= / 1000000 * Q).
  { split; [apply Rmult_le_pos; lra|apply Rmult_le_compat_r; lra]. }
  assert (EX : Rabs (X - P) <= 10.09 * (u64 * Q)) by lra.
  apply Rabs_le_bounds in EX. apply Rabs_le_bounds in Bp.
  (* x - 32 *)
  assert (S1 : Rabs (X - 32) <= 1.0001 * Q + 32) by (apply Rabs_le; lra).
  destruct (sub_R x 32 Fx F32) as [Fc Ec]; [rewrite E32; fold X; lra|].
  rewrite E32 in Ec. fold X in Ec.
  set (C := B2R (x - 32)) in *.
  assert (EC : Rabs (C - (X - 32)) <= u64 * (1.0001 * Q + 32)).
  { eapply Rle_trans; [exact Ec|]. apply Rmult_le_compat_l; lra. }
  assert (uS : 0 <= u64 * (1.0001 * Q + 32) <= / 1000000 * (1.0001 * Q + 32)).
  { split; [apply Rmult_le_pos; lra|apply Rmult_le_compat_r; lra]. }
  apply Rabs_le_bounds in S1. apply Rabs_le_bounds in EC.
  assert (S2 : Rabs C <= 1.0002 * Q + 32.1) by (apply Rabs_le; lra).
  (* times 5 *)
  destruct (mul_R (x - 32) 5 Fc F5) as [Fd [Ed _]].
  { rewrite E5. fold C. rewrite Rabs_mult, (Rabs_pos_eq 5) by lra. lra. }
  rewrite E5 in Ed. fold C in Ed.
  rewrite Rabs_mult, (Rabs_pos_eq 5) in Ed by lra.
  set (D := B2R ((x - 32) * 5)) in *.
  assert (ED : Rabs (D - C * 5) <= u64 * (5.001 * Q + 160.5) + eta64).
  { eapply Rle_trans; [exact Ed|].
    apply Rplus_le_compat_r. apply Rmult_le_compat_l; lra. }
  assert (uD : 0 <= u64 * (5.001 * Q + 160.5)
               <= / 1000000 * (5.001 * Q + 160.5)).
  { split; [apply Rmult_le_pos; lra|apply Rmult_le_compat_r; lra]. }
  apply Rabs_le_bounds in S2. apply Rabs_le_bounds in ED.
  assert (S3 : Rabs (D / 9) <= 0.556 * Q + 17.9) by (apply Rabs_le; lra).
  (* divided by 9 *)
  destruct (div_R ((x - 32) * 5) 9 Fd F9) as [Fe [Ee _]].
  { rewrite E9. lra. }
  { rewrite E9. fold D. lra. }
  rewrite E9 in Ee. fold D in Ee.
  assert (EE : Rabs (B2R ((x - 32) * 5 / 9) - D / 9)
               <= u64 * (0.556 * Q + 17.9) + eta64).
  { eapply Rle_trans; [exact Ee|].
    apply Rplus_le_compat_r. apply Rmult_le_compat_l; lra. }
  split; [exact Fe|].
  apply Rabs_le_bounds in EE. unfold Spec.celsius.
  apply Rabs_le. split; lra.
Qed.

Lemma bpow_m49 : bpow (-49) = / 562949953421312.
Proof. change (-49)%Z with (- (49))%Z. now rewrite bpow_neg by lia. Qed.

Lemma bpow_m50 : bpow (-50) = / 1125899906842624.
Proof. change (-50)%Z with (- (50))%Z. now rewrite bpow_neg by lia. Qed.

(** Outside the two correction bands the code returns the regression,
    converted back to Celsius. *)
Lemma heat_index_plain (temp_c R : float) :
  let T := (temp_c * 9 / 5 + 32)%float in
  (T <? 80)%float = false -> (R <? 13)%float = false ->
  (85 <? R)%float = false ->
  B64.compute_heat_index_c temp_c R
  = Ok ((regression T R - 32) * 5 / 9)%float.
Proof.
  cbv zeta. intros H1 H2 H3. unfold B64.compute_heat_index_c.
  rewrite H1, H2, H3. reflexivity.
Qed.

(** In the band, with a temperature of at least 80 F and at most 2^500 F:
    the result is finite and within [2 ^ -50 * T ^ 2] of the regression
    on the reals. *)
Lemma heat_index_band (temp_c R : float) :
  let T := (temp_c * 9 / 5 + 32)%float in
  (80 <=? T)%float = true -> (T <=? 0x1p500)%float = true ->
  (13 <=? R)%float = true -> (R <=? 85)%float = true ->
  finite T = true /\ finite R = true /\
  80 <= B2R T <= bpow 500 /\ 13 <= B2R R <= 85 /\
  exists v,
    B64.compute_heat_index_c temp_c R = Ok v /\ finite v = true /\
    Rabs (B2R v - Spec.celsius (Spec.rothfusz (B2R T) (B2R R)))
    <= u64 * (7.5 * rothfusz_abs (B2R T) (B2R R) + 55) /\
    u64 * (7.5 * rothfusz_abs (B2R T) (B2R R) + 55)
    <= bpow (-50) * (B2R T * B2R T).
Proof.
  cbv zeta. set (T := (temp_c * 9 / 5 + 32)%float).
  intros T80 Tmax R13 R85.
  destruct B2R_80 as [F80 E80]. destruct B2R_13 as [F13 E13].
  destruct B2R_85 as [F85 E85]. destruct B2R_2p500 as [Fm Em].
  pose proof (between_finite _ _ T F80 Fm T80 Tmax) as FT.
  pose proof (between_finite _ _ R F13 F85 R13 R85) as FR.
  apply (leb_R 80 T F80 FT) in T80. apply (leb_R T _ FT Fm) in Tmax.
  apply (leb_R 13 R F13 FR) in R13. apply (leb_R R 85 FR F85) in R85.
  rewrite E80 in T80. rewrite Em in Tmax. rewrite E13 in R13.
  rewrite E85 in R85.
  split; [exact FT|]. split; [exact FR|]. split; [lra|]. split; [lra|].
  assert (L1 : (T <? 80)%float = false).
  { apply (ltb_false_R T 80 FT F80). rewrite E80. lra. }
  assert (L2 : (R <? 13)%float = false).
  { apply (ltb_false_R R 13 FR F13). rewrite E13. lra. }
  assert (L3 : (85 <? R)%float = false).
  { apply (ltb_false_R 85 R F85 FR). rewrite E85. lra. }
  eexists. split; [apply (heat_index_plain temp_c R L1 L2 L3)|].
  fold T.
  destruct (regression_approx T R FT FR) as [A HQ].
  { lra. }
  { rewrite bpow_7. lra. }
  destruct (celsius_approx _ _ _ A HQ) as [Fv Ev].
  split; [exact Fv|]. split; [exact Ev|].
  pose proof (rothfusz_abs_bound (B2R T) (B2R R) ltac:(lra) ltac:(lra))
    as [Q0 Q1].
  assert (T2 : 6400 <= B2R T * B2R T) by nra.
  rewrite u64_val, bpow_m50. lra.
Qed.

(** C9: on binary64, for a temperature whose Fahrenheit value [T] is at
    least 80 and at most 2^500, and humidities
    [13 <= R1 <= R2 <= 85], both heat indices are finite and the one at
    [R1] exceeds the one at [R2] by at most [2 ^ -49 * T ^ 2], the
    rounding error of the two evaluations. *)
Theorem C9_monotone_in_humidity (temp_c R1 R2 : float) :
  let T := (temp_c * 9 / 5 + 32)%float in
  (80 <=? T)%float = true -> (T <=? 0x1p500)%float = true ->
  (13 <=? R1)%float = true -> (R1 <=? R2)%float = true ->
  (R2 <=? 85)%float = true ->
  exists v1 v2,
    B64.compute_heat_index_c temp_c R1 = Ok v1 /\
    B64.compute_heat_index_c temp_c R2 = Ok v2 /\
    finite v1 = true /\ finite v2 = true /\
    B2R v1 <= B2R v2 + bpow (-49) * (B2R T * B2R T).
Proof.
  cbv zeta. intros T80 Tmax H13 H12 H85.
  pose proof (float_leb_trans _ _ _ H12 H85) as H1_85.
  pose proof (float_leb_trans _ _ _ H13 H12) as H2_13.
  destruct (heat_index_band temp_c R1 T80 Tmax H13 H1_85)
    as [FT [F1 [BT [B1 [v1 [E1 [Fv1 [A1 Q1]]]]]]]].
  destruct (heat_index_band temp_c R2 T80 Tmax H2_13 H85)
    as [_ [F2 [_ [B2 [v2 [E2 [Fv2 [A2 Q2]]]]]]]].
  exists v1, v2. split; [exact E1|]. split; [exact E2|].
  split; [exact Fv1|]. split; [exact Fv2|].
  apply (leb_R R1 R2 F1 F2) in H12.
  set (t := B2R (temp_c * 9 / 5 + 32)%float) in *.
  pose proof (rothfusz_monotone t (B2R R1) (B2R R2)
                ltac:(lra) ltac:(lra) H12 ltac:(lra)) as Mono.
  apply Rabs_le_bounds in A1, A2. unfold Spec.celsius in *.
  rewrite bpow_m49. rewrite bpow_m50 in Q1, Q2. lra.
Qed.

Lemma C9_witness :
  exists v1 v2,
    B64.compute_heat_index_c 30 40 = Ok v1 /\
    B64.compute_heat_index_c 30 50 = Ok v2 /\
    finite v1 = true /\ finite v2 = true /\
    B2R v1 <= B2R v2 + bpow (-49)
                       * (B2R (30 * 9 / 5 + 32) * B2R (30 * 9 / 5 + 32)).
Proof.
  apply (C9_monotone_in_humidity 30 40 50); vm_compute; reflexivity.
Defined.

(** ** The branches of the heat index *)

Lemma bands_exclusive (T R : float) :
  high_band T R = true -> low_band T R = false.
Proof.
  unfold high_band, low_band. intros H.
  apply andb_true_iff in H. destruct H as [H _].
  destruct (R <? 13)%float eqn:E; [|reflexivity].
  apply float_ltb_leb in E.
  pose proof (float_ltb_leb_trans _ _ _ H E) as C.
  vm_compute in C. discriminate C.
Qed.

(** The branches of [compute_heat_index_c]. *)
Lemma heat_index_branches (temp_c R : float) :
  let T := fahrenheit_f temp_c in
  ((T <? 80)%float = true ->
   B64.compute_heat_index_c temp_c R = Ok (celsius_f T)) /\
  ((T <? 80)%float = false -> low_band T R = true ->
   B64.compute_heat_index_c temp_c R
   = Ok (celsius_f (regression T R - low_humidity_correction_f T R))) /\
  ((T <? 80)%float = false -> high_band T R = true ->
   B64.compute_heat_index_c temp_c R
   = Ok (celsius_f (regression T R + high_humidity_correction_f T R))) /\
  ((T <? 80)%float = false -> low_band T R = false ->
   high_band T R = false ->
   B64.compute_heat_index_c temp_c R = Ok (celsius_f (regression T R))).
Proof.
  cbv zeta. unfold fahrenheit_f.
  set (T := (temp_c * 9 / 5 + 32)%float).
  split; [|split; [|split]].
  - intros H. unfold B64.compute_heat_index_c. fold T. rewrite H.
    reflexivity.
  - intros H L. unfold B64.compute_heat_index_c. fold T. rewrite H.
    unfold low_band in L. rewrite L.
    apply andb_true_iff in L. destruct L as [_ L].
    apply andb_true_iff in L. destruct L as [L1 L2].
    unfold PyFloat.sqrt. rewrite (sqrt_guard T L1 L2). reflexivity.
  - intros H Hh. pose proof (bands_exclusive T R Hh) as L.
    unfold B64.compute_heat_index_c. fold T. rewrite H.
    unfold low_band in L. unfold high_band in Hh. rewrite L, Hh.
    reflexivity.
  - intros H L Hh. unfold B64.compute_heat_index_c. fold T. rewrite H.
    unfold low_band in L. unfold high_band in Hh. rewrite L, Hh.
    reflexivity.
Qed.

(** Below 80 F the result is the input temperature up to rounding. *)
Lemma heat_index_low (temp_c : float) :
  finite temp_c = true -> Rabs (B2R temp_c) <= bpow 1000 ->
  finite (celsius_f (fahrenheit_f temp_c)) = true /\
  Rabs (B2R (celsius_f (fahrenheit_f temp_c)) - B2R temp_c)
  <= bpow (-50) * (Rabs (B2R temp_c) + 3).
Proof.
  intros Ft Hb. unfold celsius_f, fahrenheit_f.
  pose proof u64_val as U. pose proof eta64_small as Hs.
  pose proof eta64_pos as He.
  assert (Hu : 0 < u64 < / 1000000) by (rewrite U; lra).
  assert (Heta : eta64 <= u64 * / 1000000).
  { eapply Rle_trans; [exact Hs|].
    rewrite Rmult_assoc. apply Rmult_le_compat_l; [lra|]. nra. }
  destruct B2R_32 as [F32 E32]. destruct B2R_5 as [F5 E5].
  destruct B2R_9 as [F9 E9].
  assert (Big : bpow 1023 = 8388608 * bpow 1000).
  { replace 1023%Z with (23 + 1000)%Z by lia. rewrite bpow_add.
    rewrite (bpow_IZR 23) by lia. reflexivity. }
  pose proof (bpow_pos 1000) as P0.
  assert (One : 1024 <= bpow 1000).
  { replace 1024 with (bpow 10) by (rewrite bpow_IZR by lia; reflexivity).
    apply bpow_le. lia. }
  set (t := B2R temp_c) in *. set (M := Rabs t) in *.
  assert (M0 : 0 <= M) by apply Rabs_pos.
  assert (Ht : - M <= t <= M) by (apply Rabs_le_bounds; unfold M; lra).
  assert (uM : 0 <= u64 * M <= / 1000000 * M).
  { split; [apply Rmult_le_pos; lra|apply Rmult_le_compat_r; lra]. }
  (* temp * 9 *)
  destruct (mul_R temp_c 9 Ft F9) as [Fa [Ea _]].
  { rewrite E9. fold t. rewrite Rabs_mult, (Rabs_pos_eq 9) by lra.
    fold M. lra. }
  rewrite E9 in Ea. fold t in Ea.
  rewrite Rabs_mult, (Rabs_pos_eq 9) in Ea by lra. fold M in Ea.
  set (A := B2R (temp_c * 9)) in *.
  assert (EA : Rabs (A - t * 9) <= 9 * (u64 * M) + eta64) by lra.
  apply Rabs_le_bounds in EA.
  assert (SA : Rabs (A / 5) <= 1.8001 * M + eta64) by (apply Rabs_le; lra).
  (* / 5 *)
  destruct (div_R (temp_c * 9) 5 Fa F5) as [Fb [Eb _]].
  { rewrite E5. lra. }
  { rewrite E5. fold A. lra. }
  rewrite E5 in Eb. fold A in Eb.
  set (B := B2R (temp_c * 9 / 5)) in *.
  assert (EB : Rabs (B - A / 5) <= 1.8001 * (u64 * M) + 1.1 * eta64).
  { eapply Rle_trans; [exact Eb|].
    assert (u64 * Rabs (A / 5) <= u64 * (1.8001 * M + eta64))
      by (apply Rmult_le_compat_l; lra).
    assert (u64 * eta64 <= / 1000000 * eta64)
      by (apply Rmult_le_compat_r; lra).
    lra. }
  apply Rabs_le_bounds in SA. apply Rabs_le_bounds in EB.
  assert (SB : Rabs (B + 32) <= 1.801 * M + 32.001)
    by (apply Rabs_le; lra).
  (* + 32 *)
  destruct (add_R (temp_c * 9 / 5) 32 Fb F32) as [Fc Ec].
  { rewrite E32. fold B. lra. }
  rewrite E32 in Ec. fold B in Ec.
  set (T := B2R (temp_c * 9 / 5 + 32)) in *.
  assert (ET : Rabs (T - (B + 32)) <= 1.801 * (u64 * M) + 32.001 * u64).
  { eapply Rle_trans; [exact Ec|].
    assert (u64 * Rabs (B + 32) <= u64 * (1.801 * M + 32.001))
      by (apply Rmult_le_compat_l; lra).
    lra. }
  apply Rabs_le_bounds in SB. apply Rabs_le_bounds in ET.
  assert (ST : Rabs (T - 32) <= 1.802 * M + 0.001) by (apply Rabs_le; lra).
  (* - 32 *)
  destruct (sub_R (temp_c * 9 / 5 + 32) 32 Fc F32) as [Fd Ed].
  { rewrite E32. fold T. lra. }
  rewrite E32 in Ed. fold T in Ed.
  set (C := B2R (temp_c * 9 / 5 + 32 - 32)) in *.
  assert (EC : Rabs (C - (T - 32)) <= 1.802 * (u64 * M) + 0.001 * u64).
  { eapply Rle_trans; [exact Ed|].
    assert (u64 * Rabs (T - 32) <= u64 * (1.802 * M + 0.001))
      by (apply Rmult_le_compat_l; lra).
    lra. }
  apply Rabs_le_bounds in ST. apply Rabs_le_bounds in EC.
  assert (SC : Rabs C <= 1.803 * M + 0.002) by (apply Rabs_le; lra).
  (* * 5 *)
  destruct (mul_R (temp_c * 9 / 5 + 32 - 32) 5 Fd F5) as [Fe [Ee _]].
  { rewrite E5. fold C. rewrite Rabs_mult, (Rabs_pos_eq 5) by lra. lra. }
  rewrite E5 in Ee. fold C in Ee.
  rewrite Rabs_mult, (Rabs_pos_eq 5) in Ee by lra.
  set (D := B2R ((temp_c * 9 / 5 + 32 - 32) * 5)) in *.
  assert (ED : Rabs (D - C * 5) <= 9.015 * (u64 * M) + 0.01 * u64 + eta64).
  { eapply Rle_trans; [exact Ee|].
    assert (u64 * (Rabs C * 5) <= u64 * ((1.803 * M + 0.002) * 5))
      by (apply Rmult_le_compat_l; lra).
    lra. }
  apply Rabs_le_bounds in SC. apply Rabs_le_bounds in ED.
  assert (SD : Rabs (D / 9) <= 1.002 * M + 0.002) by (apply Rabs_le; lra).
  (* / 9 *)
  destruct (div_R ((temp_c * 9 / 5 + 32 - 32) * 5) 9 Fe F9) as [Ff [Ef _]].
  { rewrite E9. lra. }
  { rewrite E9. fold D. lra. }
  rewrite E9 in Ef. fold D in Ef.
  split; [exact Ff|].
  set (E := B2R ((temp_c * 9 / 5 + 32 - 32) * 5 / 9)) in *.
  assert (EE : Rabs (E - D / 9) <= 1.002 * (u64 * M) + 0.002 * u64 + eta64).
  { eapply Rle_trans; [exact Ef|].
    assert (u64 * Rabs (D / 9) <= u64 * (1.002 * M + 0.002))
      by (apply Rmult_le_compat_l; lra).
    lra. }
  apply Rabs_le_bounds in EE.
  rewrite bpow_m50. rewrite U in *.
  apply Rabs_le. split; lra.
Qed.

(** C4: with [T] the temperature in Fahrenheit, computed on binary64,
    [compute_heat_index_c] returns [T] converted back to Celsius when
    [T < 80], which is the input temperature up to a rounding error of
    [2 ^ -50 * (|temp_c| + 3)]; otherwise the Rothfusz regression with
    the stated coefficients, evaluated on binary64 from left to right,
    minus the low-humidity correction when the humidity is below 13 and
    [80 <= T <= 112], plus the high-humidity correction when the
    humidity is above 85 and [80 <= T <= 87], converted back to Celsius;
    for [13 <= R <= 85] and [80 <= T <= 2 ^ 500] the result is within
    [2 ^ -50 * T ^ 2] of the regression in exact arithmetic. *)
Theorem C4_heat_index_formula (temp_c R : float) :
  let T := fahrenheit_f temp_c in
  ((T <? 80)%float = true ->
   B64.compute_heat_index_c temp_c R = Ok (celsius_f T)) /\
  ((T <? 80)%float = true -> finite temp_c = true ->
   Rabs (B2R temp_c) <= bpow 1000 ->
   finite (celsius_f T) = true /\
   Rabs (B2R (celsius_f T) - B2R temp_c)
   <= bpow (-50) * (Rabs (B2R temp_c) + 3)) /\
  ((T <? 80)%float = false -> low_band T R = true ->
   B64.compute_heat_index_c temp_c R
   = Ok (celsius_f (regression T R - low_humidity_correction_f T R))) /\
  ((T <? 80)%float = false -> high_band T R = true ->
   B64.compute_heat_index_c temp_c R
   = Ok (celsius_f (regression T R + high_humidity_correction_f T R))) /\
  ((T <? 80)%float = false -> low_band T R = false ->
   high_band T R = false ->
   B64.compute_heat_index_c temp_c R = Ok (celsius_f (regression T R))) /\
  ((80 <=? T)%float = true -> (T <=? 0x1p500)%float = true ->
   (13 <=? R)%float = true -> (R <=? 85)%float = true ->
   B64.compute_heat_index_c temp_c R = Ok (celsius_f (regression T R)) /\
   finite (celsius_f (regression T R)) = true /\
   Rabs (B2R (celsius_f (regression T R))
         - Spec.celsius (Spec.rothfusz (B2R T) (B2R R)))
   <= bpow (-50) * (B2R T * B2R T)).
Proof.
  cbv zeta.
  destruct (heat_index_branches temp_c R) as [A [B [C D]]].
  split; [exact A|]. split.
  { intros _ F Hb. now apply heat_index_low. }
  split; [exact B|]. split; [exact C|]. split; [exact D|].
  intros T80 Tmax R13 R85.
  destruct (heat_index_band temp_c R T80 Tmax R13 R85)
    as [FT [FR [BT [BR [v [E [Fv [Av Q]]]]]]]].
  assert (E' : B64.compute_heat_index_c temp_c R
               = Ok (celsius_f (regression (fahrenheit_f temp_c) R))).
  { destruct B2R_80 as [F80 E80]. destruct B2R_13 as [F13 E13].
    destruct B2R_85 as [F85 E85].
    apply heat_index_plain.
    - apply (ltb_false_R _ 80 FT F80). rewrite E80. lra.
    - apply (ltb_false_R R 13 FR F13). rewrite E13. lra.
    - apply (ltb_false_R 85 R F85 FR). rewrite E85. lra. }
  split; [exact E'|].
  rewrite E' in E. injection E as <-.
  split; [exact Fv|]. unfold fahrenheit_f in *. lra.
Qed.

Lemma C4_witness :
  B64.compute_heat_index_c 20 50 = Ok (celsius_f (fahrenheit_f 20)) /\
  B64.compute_heat_index_c 30 50
  = Ok (celsius_f (regression (fahrenheit_f 30) 50)).
Proof.
  split.
  - apply (proj1 (C4_heat_index_formula 20 50)). reflexivity.
  - apply (proj2 (proj2 (proj2 (proj2 (C4_heat_index_formula 30 50)))));
      reflexivity.
Defined.

Lemma C4_counterexample :
  (fahrenheit_f 26.6 <? 80)%float = true /\
  B64.compute_heat_index_c 26.6 50 = Ok 26.599999999999998%float /\
  (26.599999999999998 <? 26.6)%float = true /\
  fahrenheit_f 30 = 86%float /\
  B64.compute_heat_index_c 30 50 = Ok 31.049081444444369%float /\
  B2R 31.049081444444369 < Spec.celsius (Spec.rothfusz 86 50).
Proof.
  split; [vm_compute; reflexivity|]. split; [vm_compute; reflexivity|].
  split; [vm_compute; reflexivity|]. split; [vm_compute; reflexivity|].
  split; [vm_compute; reflexivity|].
  rewrite B2R_frac.
  replace (float_num 31.049081444444369) with 8739539476462240%Z
    by (vm_compute; reflexivity).
  replace (float_den 31.049081444444369) with 281474976710656%Z
    by (vm_compute; reflexivity).
  unfold Spec.celsius, Spec.rothfusz. lra.
Qed.

(** ** [build_contributing_factors] returns, or raises [OverflowError] *)

Lemma percentages_ok_any (s : float * float * float) :
  exists p, B64.percentages s = Ok p.
Proof.
  pose proof (percentages_returns s) as H.
  destruct (B64.percentages s) as [p|e]; [now exists p|discriminate].
Qed.

Lemma build_overflow
    (raw_weather : RawWeather float) (raw_air : RawAirQuality float)
    (profile : option Profile) (scores : Scores) (a : Z) :
  profile_age profile = Some a ->
  (PyFloat.int_overflow <= Z.abs (a - 40))%Z ->
  B64.build_contributing_factors raw_weather raw_air profile scores
  = Raise OverflowError.
Proof.
  intros Ea Ha. unfold B64.build_contributing_factors.
  destruct (percentages_ok_any (B64.asthma_signals raw_air profile))
    as [pa ->].
  destruct (percentages_ok_any (B64.heat_signals raw_weather profile))
    as [ph ->].
  cbn [bind]. unfold B64.dehydration_signals. rewrite Ea.
  unfold PyFloat.of_int.
  apply Z.ltb_ge in Ha. rewrite Ha. reflexivity.
Qed.

Lemma age_fits_dec (profile : option Profile) :
  (forall a, profile_age profile = Some a ->
             (Z.abs (a - 40) < PyFloat.int_overflow)%Z) \/
  (exists a, profile_age profile = Some a /\
             (PyFloat.int_overflow <= Z.abs (a - 40))%Z).
Proof.
  destruct (profile_age profile) as [a|].
  - destruct (Z_lt_le_dec (Z.abs (a - 40)) PyFloat.int_overflow) as [L|G].
    + left. intros a' E. now injection E as <-.
    + right. now exists a.
  - left. intros a E. discriminate E.
Qed.

(** C7: for each of the three dimensions of [build_contributing_factors]
    on binary64, whatever the float readings: if every signal is zero
    the divisor is 1.0 and every percentage is 0; if some signal is not
    zero the percentages are [round(signal / sum * 100, 1)], each the
    float nearest to a whole number of tenths between 0 and 1000 that is
    the share of the signal, the three numbers of tenths add up to 999,
    1000 or 1001, and the percentages add up to 100 within 0.1 and a
    rounding error: 0.1 + 2^-44 for their exact sum, 0.1 + 2^-43 for
    their binary64 sum.  The function raises only [OverflowError], for
    an age too large for [age - 40] to convert to a float. *)
Theorem C7_percentages_sum
    (raw_weather : RawWeather float) (raw_air : RawAirQuality float)
    (profile : option Profile) (scores : Scores) :
  match B64.build_contributing_factors raw_weather raw_air profile scores with
  | Ok cf =>
    exists pa ph sd pd,
      B64.dehydration_signals raw_weather profile = Ok sd /\
      cf = mkContributingFactors
             (B64.factors
                ("PM2.5", "Ozone (O3)", "Profile (asthma/age)")%string pa)
             (B64.factors
                ("Heat Index", "Humidity", "Profile (age/heart/resp.)")%string
                ph)
             (B64.factors
                ("Heat Index", "Humidity", "Age (65+)")%string pd) /\
      dimension_ok (B64.asthma_signals raw_air profile) pa /\
      dimension_ok (B64.heat_signals raw_weather profile) ph /\
      dimension_ok sd pd
  | Raise e =>
    e = OverflowError /\
    exists a, profile_age profile = Some a /\
              (PyFloat.int_overflow <= Z.abs (a - 40))%Z
  end.
Proof.
  destruct (age_fits_dec profile) as [Fit|[a [Ea Ha]]].
  - destruct (build_contributing_factors_spec raw_weather raw_air profile
                scores Fit) as [pa [ph [sd [pd [Ed [E [Ha [Hh Hd]]]]]]]].
    rewrite E. exists pa, ph, sd, pd. auto.
  - rewrite (build_overflow raw_weather raw_air profile scores a Ea Ha).
    split; [reflexivity|]. now exists a.
Qed.

Lemma C7_counterexample :
  let raw_air := mkRawAirQuality 3 (Some 60%float) None (Some 150%float) in
  let profile := Some (mkProfile None ["asthma"%string]) in
  B64.asthma_signals raw_air profile = (1, 1, 1)%float /\
  B64.percentages (1, 1, 1)%float = Ok (33.3, 33.3, 33.3)%float /\
  (33.3 + 33.3 + 33.3)%float = 99.89999999999999%float /\
  (abs (33.3 + 33.3 + 33.3 - 100) <=? 0.1)%float = false /\
  PyFloat.to_frac 33.3
    = Some (4686558362232422%Z, (2 ^ 47)%positive) /\
  (3 * 4686558362232422 * 10 <? 999 * 2 ^ 47)%Z = true.
Proof. vm_compute. repeat split; reflexivity. Qed.

(** ** Totality *)




Lemma C9_counterexample :
  let T := (30 * 9 / 5 + 32)%float in
  let H1 := (40 + 0x1p-42)%float in
  let H2 := (40 + 0x3p-43)%float in
  (80 <=? T)%float = true /\
  (13 <=? H1)%float = true /\ (H1 <? H2)%float = true /\
  (H2 <=? 85)%float = true /\
  B64.compute_heat_index_c 30 H1 = Ok 29.689165055555577%float /\
  B64.compute_heat_index_c 30 H2 = Ok 29.689165055555559%float /\
  (29.689165055555559 <? 29.689165055555577)%float = true /\
  (80 <=? 1e200 * 9 / 5 + 32)%float = true /\
  B64.compute_heat_index_c 1e200 40 = Ok nan /\
  B64.compute_heat_index_c 1e200 50 = Ok nan /\
  (nan <=? nan)%float = false.
Proof. vm_compute. repeat split; reflexivity. Qed.

(* ================================================================== *)
(** * Further properties of the engine and of its callers *)

Open Scope float_scope.

(** ** The component scorers *)

Lemma score_heat_cases (hi : float) :
  (B64.score_heat hi = 0 \/ B64.score_heat hi = 2 \/ B64.score_heat hi = 3 \/
   B64.score_heat hi = 4 \/ B64.score_heat hi = 5)%Z.
Proof.
  unfold B64.score_heat.
  destruct (_ <? 80); [auto|].
  destruct ((80 <=? _) && _); [auto|].
  destruct ((90 <=? _) && _); [auto|].
  destruct ((103 <=? _) && _); auto 6.
Qed.

Lemma score_heat_bounds (hi : float) : (0 <= B64.score_heat hi <= 5)%Z.
Proof. pose proof (score_heat_cases hi). lia. Qed.

Lemma base_map_cases (aqi : Z) :
  (dict_get base_map aqi 0 = 0 \/ dict_get base_map aqi 0 = 1 \/
   dict_get base_map aqi 0 = 2 \/ dict_get base_map aqi 0 = 4 \/
   dict_get base_map aqi 0 = 5)%Z.
Proof.
  unfold dict_get, base_map.
  repeat match goal with
         | |- context [(aqi =? ?k)%Z] => destruct (aqi =? k)%Z; [auto 6|]
         end.
  auto.
Qed.

Lemma score_air_pollution_bounds (aqi : Z) (pm25 o3 : option float) :
  (0 <= B64.score_air_pollution aqi pm25 o3 <= 5)%Z /\
  (dict_get base_map aqi 0 <= B64.score_air_pollution aqi pm25 o3
   <= dict_get base_map aqi 0 + 2)%Z.
Proof.
  unfold B64.score_air_pollution.
  pose proof (base_map_cases aqi) as H.
  destruct pm25 as [p|]; [destruct (35 <? p)|];
    (destruct o3 as [o|]; [destruct (100 <? o)|]); lia.
Qed.

(** X1: for every float, a NaN included, [score_heat] returns 0, 2, 3, 4
    or 5, never 1; a heat index that is not a number scores 5, since it
    fails every comparison and falls to the last branch. *)
Theorem score_heat_range (heat_index_c : float) :
  let s := B64.score_heat heat_index_c in
  (s = 0 \/ s = 2 \/ s = 3 \/ s = 4 \/ s = 5)%Z /\
  (is_nan heat_index_c = true -> s = 5%Z).
Proof.
  cbv zeta. split; [apply score_heat_cases|].
  intros H. apply is_nan_nan in H. subst. reflexivity.
Qed.

(** X2: for every AQI, also outside 1..5, and all readings,
    [score_air_pollution] lies in 0..5, between the table value and the
    table value plus 2; without readings it is the table value, and a
    missing PM2.5 or ozone reading never scores higher than a present
    one. *)
Theorem score_air_pollution_range (aqi : Z) (pm25 o3 : option float) :
  (0 <= B64.score_air_pollution aqi pm25 o3 <= 5)%Z /\
  (dict_get base_map aqi 0 <= B64.score_air_pollution aqi pm25 o3
   <= dict_get base_map aqi 0 + 2)%Z /\
  B64.score_air_pollution aqi None None = dict_get base_map aqi 0 /\
  (B64.score_air_pollution aqi None o3 <= B64.score_air_pollution aqi pm25 o3)%Z /\
  (B64.score_air_pollution aqi pm25 None <= B64.score_air_pollution aqi pm25 o3)%Z.
Proof.
  split; [apply score_air_pollution_bounds|].
  split; [apply score_air_pollution_bounds|].
  split; [reflexivity|].
  unfold B64.score_air_pollution.
  pose proof (base_map_cases aqi) as H.
  split;
    (destruct pm25 as [p|]; [destruct (35 <? p)|];
     (destruct o3 as [o|]; [destruct (100 <? o)|]); lia).
Qed.

Lemma base_map_monotone (aqi aqi' : Z) :
  (1 <= aqi)%Z -> (aqi <= aqi')%Z -> (aqi' <= 5)%Z ->
  (dict_get base_map aqi 0 <= dict_get base_map aqi' 0)%Z.
Proof.
  intros H1 H2 H3.
  assert (Ha : (aqi = 1 \/ aqi = 2 \/ aqi = 3 \/ aqi = 4 \/ aqi = 5)%Z) by lia.
  assert (Hb : (aqi' = 1 \/ aqi' = 2 \/ aqi' = 3 \/ aqi' = 4 \/ aqi' = 5)%Z)
    by lia.
  destruct Ha as [?|[?|[?|[?|?]]]], Hb as [?|[?|[?|[?|?]]]]; subst;
    cbn; lia.
Qed.

(** X3: [score_air_pollution] does not decrease when the AQI grows within
    1..5 and the PM2.5 and ozone readings grow (in the order of
    binary64). *)
Theorem score_air_pollution_monotone
    (aqi aqi' : Z) (pm25 pm25' o3 o3' : float) :
  (1 <= aqi)%Z -> (aqi <= aqi')%Z -> (aqi' <= 5)%Z ->
  (pm25 <=? pm25') = true -> (o3 <=? o3') = true ->
  (B64.score_air_pollution aqi (Some pm25) (Some o3)
   <= B64.score_air_pollution aqi' (Some pm25') (Some o3'))%Z.
Proof.
  intros H1 H2 H3 Hp Ho.
  pose proof (base_map_monotone aqi aqi' H1 H2 H3) as Hb.
  pose proof (base_map_cases aqi) as Ca.
  pose proof (base_map_cases aqi') as Cb.
  unfold B64.score_air_pollution.
  destruct (35 <? pm25) eqn:E1.
  - rewrite (float_ltb_leb_trans _ _ _ E1 Hp).
    destruct (100 <? o3) eqn:E2.
    + rewrite (float_ltb_leb_trans _ _ _ E2 Ho). lia.
    + destruct (100 <? o3'); lia.
  - destruct (35 <? pm25');
      (destruct (100 <? o3) eqn:E2;
       [rewrite (float_ltb_leb_trans _ _ _ E2 Ho)|destruct (100 <? o3')]); lia.
Qed.

Lemma score_air_pollution_monotone_witness :
  Z.leb (B64.score_air_pollution 2 (Some 30) (Some 90))
        (B64.score_air_pollution 3 (Some 40) (Some 120)) = true.
Proof.
  apply Z.leb_le.
  apply (score_air_pollution_monotone 2 3 30 40 90 120);
    try lia; reflexivity.
Defined.

(** ** Dehydration *)

Lemma dehydration_base_monotone (hi hi' : float) :
  (hi <=? hi') = true ->
  (Spec.dehydration_base hi <= Spec.dehydration_base hi')%Z.
Proof.
  intros H. unfold Spec.dehydration_base.
  destruct (38 <=? hi) eqn:E38.
  { rewrite (float_leb_trans _ _ _ E38 H). lia. }
  destruct (32 <=? hi) eqn:E32.
  { rewrite (float_leb_trans _ _ _ E32 H). destruct (38 <=? hi'); lia. }
  destruct (27 <=? hi) eqn:E27.
  { rewrite (float_leb_trans _ _ _ E27 H).
    destruct (38 <=? hi'); [lia|]. destruct (32 <=? hi'); lia. }
  destruct (38 <=? hi'); [lia|]. destruct (32 <=? hi'); [lia|].
  destruct (27 <=? hi'); lia.
Qed.

Lemma bump_monotone (g g' : bool) (s s' : Z) :
  (g = true -> g' = true) -> (s <= s')%Z ->
  (Spec.bump g s <= Spec.bump g' s')%Z.
Proof.
  intros Hg Hs. unfold Spec.bump.
  destruct g; [rewrite (Hg eq_refl)|destruct g'];
    cbn [andb]; destruct (s <? 4)%Z eqn:E1, (s' <? 4)%Z eqn:E2; lia.
Qed.

Lemma clamp_monotone (x y : Z) :
  (x <= y)%Z -> (Spec.clamp 1 4 x <= Spec.clamp 1 4 y)%Z.
Proof. unfold Spec.clamp. lia. Qed.

Lemma dehydration_score_monotone
    (h h' hi hi' : float) (a a' : option Z) :
  (hi <=? hi') = true -> (h <=? h') = true ->
  (Spec.is_senior a = true -> Spec.is_senior a' = true) ->
  (Spec.dehydration_score h hi a <= Spec.dehydration_score h' hi' a')%Z.
Proof.
  intros Hhi Hh Ha. unfold Spec.dehydration_score.
  apply clamp_monotone, bump_monotone; [exact Ha|].
  apply bump_monotone; [|now apply dehydration_base_monotone].
  intros E. exact (float_leb_trans _ _ _ E Hh).
Qed.

(** X4: the score of [compute_dehydration_risk] does not decrease when
    the heat index and the humidity grow (in the order of binary64) and
    the age stays or becomes 65 or more; the temperature plays no part. *)
Theorem dehydration_monotone
    (t t' h h' hi hi' : float) (a a' : option Z) :
  (hi <=? hi') = true -> (h <=? h') = true ->
  (Spec.is_senior a = true -> Spec.is_senior a' = true) ->
  (score (B64.compute_dehydration_risk t h hi a)
   <= score (B64.compute_dehydration_risk t' h' hi' a'))%Z.
Proof.
  intros Hhi Hh Ha. rewrite !dehydration_risk_spec. cbn [score].
  now apply dehydration_score_monotone.
Qed.

Lemma dehydration_monotone_witness :
  Z.leb (score (B64.compute_dehydration_risk 20 40 28 (Some 30%Z)))
        (score (B64.compute_dehydration_risk 35 75 33 (Some 70%Z))) = true.
Proof.
  apply Z.leb_le.
  apply (dehydration_monotone 20 35 40 75 28 33 (Some 30%Z) (Some 70%Z));
    reflexivity.
Defined.

(** X5: in [compute_dehydration_risk] a known age adds at most one to the
    score obtained without an age: nothing below 65, and exactly one from
    65 on when that score is below 4.  Without an age the result does not
    depend on the temperature argument, which the function never reads. *)
Theorem dehydration_age_effect (t t' h hi : float) (a : Z) :
  let s0 := score (B64.compute_dehydration_risk t h hi None) in
  let s1 := score (B64.compute_dehydration_risk t' h hi (Some a)) in
  (s0 <= s1 <= s0 + 1)%Z /\
  ((a < 65)%Z -> s1 = s0) /\
  ((65 <= a)%Z -> (s0 < 4)%Z -> s1 = (s0 + 1)%Z) /\
  B64.compute_dehydration_risk t h hi None
  = B64.compute_dehydration_risk t' h hi None.
Proof.
  cbv zeta. rewrite !dehydration_risk_spec. cbn [score].
  unfold Spec.dehydration_score, Spec.is_senior, Spec.clamp.
  set (b := Spec.bump (70 <=? h) (Spec.dehydration_base hi)).
  assert (Hb : (1 <= b <= 4)%Z).
  { subst b. unfold Spec.bump, Spec.dehydration_base.
    destruct (38 <=? hi), (32 <=? hi), (27 <=? hi), (70 <=? h); cbn; lia. }
  unfold Spec.bump. cbn [andb].
  destruct (Z.leb_spec 65 a), (Z.ltb_spec b 4); cbn [andb];
    repeat split; intros; try reflexivity; lia.
Qed.

(** ** [_clamp01] on binary64 *)

(** X6: on binary64, [_clamp01] returns a float between 0 and 1 for every
    argument, never a NaN; a NaN argument gives 1, because
    [min(1.0, nan)] keeps its first argument. *)
Theorem clamp01_b64 (x : float) :
  let r := B64._clamp01 x in
  (0 <=? r) = true /\ (r <=? 1) = true /\ is_nan r = false /\
  (is_nan x = true -> r = 1).
Proof.
  cbv zeta. unfold B64._clamp01, PyFloat.max, PyFloat.min.
  destruct (x <? 1) eqn:E1.
  - destruct (0 <? x) eqn:E0.
    + split; [now apply float_ltb_leb|]. split; [now apply float_ltb_leb|].
      split; [now apply (float_ltb_not_nan x 1)|].
      intros H. rewrite (float_ltb_not_nan x 1 E1) in H. discriminate.
    + split; [reflexivity|]. split; [reflexivity|]. split; [reflexivity|].
      intros H. rewrite (float_ltb_not_nan x 1 E1) in H. discriminate.
  - change (0 <? 1) with true. cbv iota.
    repeat split; reflexivity.
Qed.

(** ** The heat index on binary64 *)

(** X7: on binary64 itself, for every float [T] with [80 <= T <= 112] the
    argument [(17 - |T - 95|) / 17] of [math.sqrt] is not below zero
    ([T - 95] is computed without rounding error in that range), so
    [compute_heat_index_c] returns for every pair of floats, infinities
    and NaN included, and never raises [ValueError]. *)
Theorem heat_index_never_raises :
  (forall T : float,
     (80 <=? T) = true -> (T <=? 112) = true ->
     ((17 - abs (T - 95)) / 17 <? 0) = false) /\
  (forall temp_c humidity : float,
     exists v, B64.compute_heat_index_c temp_c humidity = Ok v).
Proof.
  split; [exact sqrt_guard|].
  intros temp_c humidity.
  pose proof (b64_heat_index_returns temp_c humidity) as H.
  destruct (B64.compute_heat_index_c temp_c humidity) as [v|e];
    [now exists v|discriminate].
Qed.

(** ** Letter ratings *)

Lemma rating_cases (s : Z) :
  ((s <= 1)%Z /\ health_risk_rating s = "A"%string /\
   score_to_rating s = "A"%string /\ level_from_score s = "Low"%string) \/
  (s = 2%Z /\ health_risk_rating s = "B"%string /\
   score_to_rating s = "B"%string /\ level_from_score s = "Moderate"%string) \/
  (s = 3%Z /\ health_risk_rating s = "C"%string /\
   score_to_rating s = "C"%string /\ level_from_score s = "High"%string) \/
  (s = 4%Z /\ health_risk_rating s = "D"%string /\
   score_to_rating s = "D"%string /\ level_from_score s = "Very High"%string) \/
  ((5 <= s)%Z /\ health_risk_rating s = "D"%string /\
   score_to_rating s = "E"%string /\ level_from_score s = "Very High"%string).
Proof.
  unfold health_risk_rating, score_to_rating, level_from_score.
  destruct (Z.leb_spec s 1).
  { left. destruct (Z.eqb_spec s 2); [lia|]. destruct (Z.eqb_spec s 3); [lia|].
    destruct (Z.leb_spec 4 s); [lia|]. auto. }
  destruct (Z.eqb_spec s 2); [right; left; auto|].
  destruct (Z.eqb_spec s 3); [right; right; left; auto|].
  destruct (Z.eqb_spec s 4).
  { right; right; right; left. subst. auto. }
  right; right; right; right.
  destruct (Z.leb_spec 4 s); [|lia].
  repeat split; try reflexivity. lia.
Qed.

(** X8: the letter rating [health_risk] computes in line and
    [score_to_rating] agree on every score up to 4 and differ from 5 on
    ("D" against "E"); [score_to_rating] never returns "F".  The rating
    of [health_risk] is the level of [level_from_score] under another
    name: "A" for "Low", "B" for "Moderate", "C" for "High", "D" for
    "Very High". *)
Theorem rating_agreement :
  (forall s : Z, (s <= 4)%Z -> health_risk_rating s = score_to_rating s) /\
  (forall s : Z, (5 <= s)%Z ->
     health_risk_rating s = "D"%string /\ score_to_rating s = "E"%string) /\
  (forall s : Z, score_to_rating s <> "F"%string) /\
  (forall s : Z,
     (health_risk_rating s = "A"%string <-> level_from_score s = "Low"%string) /\
     (health_risk_rating s = "B"%string
      <-> level_from_score s = "Moderate"%string) /\
     (health_risk_rating s = "C"%string <-> level_from_score s = "High"%string) /\
     (health_risk_rating s = "D"%string
      <-> level_from_score s = "Very High"%string)).
Proof.
  split; [|split; [|split]]; intros s.
  - intros H.
    destruct (rating_cases s) as [C|[C|[C|[C|C]]]];
      destruct C as [C0 [C1 [C2 C3]]]; try lia; now rewrite C1, C2.
  - intros H.
    destruct (rating_cases s) as [C|[C|[C|[C|C]]]];
      destruct C as [C0 [C1 [C2 C3]]]; try lia; now rewrite C1, C2.
  - destruct (rating_cases s) as [C|[C|[C|[C|C]]]];
      destruct C as [C0 [C1 [C2 C3]]]; rewrite C2; discriminate.
  - destruct (rating_cases s) as [C|[C|[C|[C|C]]]];
      destruct C as [C0 [C1 [C2 C3]]]; rewrite C1, C3;
      repeat split; intros E; try reflexivity; discriminate E.
Qed.

(** ** The overall score *)

Lemma overall_between_all : forall_scores overall_between = true.
Proof. vm_compute. reflexivity. Qed.

Lemma overall_monotone_all : forall_scores overall_monotone = true.
Proof. vm_compute. reflexivity. Qed.

Lemma overall_score_monotone (a h d a' h' d' : Z) :
  (0 <= a)%Z -> (a <= a')%Z -> (a' <= 5)%Z ->
  (0 <= h)%Z -> (h <= h')%Z -> (h' <= 5)%Z ->
  (0 <= d)%Z -> (d <= d')%Z -> (d' <= 5)%Z ->
  (Spec.overall_score a h d <= Spec.overall_score a' h' d')%Z.
Proof.
  intros A1 A2 A3 B1 B2 B3 D1 D2 D3.
  pose proof (forall_scores_spec _ overall_monotone_all a h d
                ltac:(lia) ltac:(lia) ltac:(lia)) as H1.
  unfold overall_monotone in H1.
  pose proof (forall_scores_spec _ H1 a' h' d'
                ltac:(lia) ltac:(lia) ltac:(lia)) as H2.
  cbv beta in H2.
  assert (E : ((a <=? a')%Z && (h <=? h')%Z && (d <=? d')%Z) = true).
  { rewrite !andb_true_iff, !Z.leb_le. lia. }
  rewrite E in H2. cbn [implb] in H2. now apply Z.leb_le.
Qed.

(** X9: for component scores in 0..5 the overall score lies between the
    least and the largest of the three components, each clamped to
    1..4. *)
Theorem overall_risk_between (a h d : Z) (r : RiskScore) :
  (0 <= a <= 5)%Z -> (0 <= h <= 5)%Z -> (0 <= d <= 5)%Z ->
  B64.compute_overall_risk a h d = Ok r ->
  (Spec.clamp 1 4 (Z.min a (Z.min h d)) <= score r
   <= Spec.clamp 1 4 (Z.max a (Z.max h d)))%Z.
Proof.
  intros Ha Hh Hd E.
  rewrite overall_risk_spec in E by assumption. inversion E. subst r.
  cbn [score].
  pose proof (forall_scores_spec _ overall_between_all a h d Ha Hh Hd) as H.
  unfold overall_between in H. cbv zeta in H.
  apply andb_true_iff in H. destruct H as [H1 H2].
  apply Z.leb_le in H1, H2. split; assumption.
Qed.

Lemma overall_risk_between_witness :
  (Spec.clamp 1 4 (Z.min 0 (Z.min 5 5)) <= score (mkRiskScore "Very High" 4)
   <= Spec.clamp 1 4 (Z.max 0 (Z.max 5 5)))%Z.
Proof.
  apply (overall_risk_between 0 5 5 (mkRiskScore "Very High" 4)); try lia.
  vm_compute. reflexivity.
Defined.

(** X10: for component scores in 0..5, [compute_overall_risk] does not
    decrease, in score or in level, when the three components grow. *)
Theorem overall_risk_monotone (a h d a' h' d' : Z) :
  (0 <= a)%Z -> (a <= a')%Z -> (a' <= 5)%Z ->
  (0 <= h)%Z -> (h <= h')%Z -> (h' <= 5)%Z ->
  (0 <= d)%Z -> (d <= d')%Z -> (d' <= 5)%Z ->
  exists r r',
    B64.compute_overall_risk a h d = Ok r /\
    B64.compute_overall_risk a' h' d' = Ok r' /\
    (score r <= score r')%Z /\
    (level_rank (level r) <= level_rank (level r'))%Z.
Proof.
  intros A1 A2 A3 B1 B2 B3 D1 D2 D3.
  rewrite !overall_risk_spec by lia.
  do 2 eexists. split; [reflexivity|]. split; [reflexivity|].
  cbn [score level].
  pose proof (overall_score_monotone a h d a' h' d'
                ltac:(lia) ltac:(lia) ltac:(lia) ltac:(lia) ltac:(lia)
                ltac:(lia) ltac:(lia) ltac:(lia) ltac:(lia)) as M.
  split; [exact M|].
  pose proof (clamp_bounds (round_half_even (Spec.weighted_average a h d))) as B.
  pose proof (clamp_bounds (round_half_even (Spec.weighted_average a' h' d')))
    as B'.
  unfold Spec.overall_score in *.
  set (s := Spec.clamp 1 4 (round_half_even (Spec.weighted_average a h d)))
    in *.
  set (s' := Spec.clamp 1 4
               (round_half_even (Spec.weighted_average a' h' d'))) in *.
  clearbody s s'.
  assert (Hs : (s = 1 \/ s = 2 \/ s = 3 \/ s = 4)%Z) by lia.
  assert (Hs' : (s' = 1 \/ s' = 2 \/ s' = 3 \/ s' = 4)%Z) by lia.
  destruct Hs as [E|[E|[E|E]]], Hs' as [E'|[E'|[E'|E']]];
    subst s s'; cbn; lia.
Qed.

Lemma overall_risk_monotone_witness :
  exists r r',
    B64.compute_overall_risk 1 2 3 = Ok r /\
    B64.compute_overall_risk 2 4 3 = Ok r' /\
    (score r <= score r')%Z /\
    (level_rank (level r) <= level_rank (level r'))%Z.
Proof. apply (overall_risk_monotone 1 2 3 2 4 3); lia. Defined.

Lemma level_rank_bounds (s : Z) :
  (1 <= level_rank (level_from_score s) <= 4)%Z.
Proof.
  destruct (rating_cases s) as [C|[C|[C|[C|C]]]];
    destruct C as [_ [_ [_ C3]]]; rewrite C3; cbn; lia.
Qed.

(** X11: [level_from_score] is monotone: a larger score never has a lower
    level, the levels being ranked "Low" < "Moderate" < "High" <
    "Very High". *)
Theorem level_monotone (s s' : Z) :
  (s <= s')%Z ->
  (level_rank (level_from_score s) <= level_rank (level_from_score s'))%Z /\
  (1 <= level_rank (level_from_score s) <= 4)%Z.
Proof.
  intros H.
  destruct (rating_cases s) as [C|[C|[C|[C|C]]]];
    destruct C as [C0 [_ [_ C3]]];
    destruct (rating_cases s') as [C'|[C'|[C'|[C'|C']]]];
    destruct C' as [C0' [_ [_ C3']]];
    rewrite C3, C3'; cbn; lia.
Qed.

Lemma level_monotone_witness :
  (level_rank (level_from_score 2) <= level_rank (level_from_score 7))%Z /\
  (1 <= level_rank (level_from_score 2) <= 4)%Z.
Proof. apply (level_monotone 2 7). lia. Defined.

(** ** The scores of [health_risk] *)

Lemma adjusted_bounds (b : bool) (x : Z) :
  (0 <= x <= 5)%Z ->
  (0 <= (if b then Z.min 5 (x + 1) else x) <= 5)%Z /\
  (x <= (if b then Z.min 5 (x + 1) else x) <= x + 1)%Z.
Proof. destruct b; lia. Qed.

Lemma dehydration_score_age (h hi : float) (a : option Z) :
  (Spec.dehydration_score h hi None <= Spec.dehydration_score h hi a
   <= Spec.dehydration_score h hi None + 1)%Z.
Proof.
  unfold Spec.dehydration_score, Spec.clamp.
  set (b := Spec.bump (70 <=? h) (Spec.dehydration_base hi)).
  unfold Spec.bump. cbn [Spec.is_senior andb].
  destruct (Spec.is_senior a); cbn [andb]; destruct (b <? 4)%Z; lia.
Qed.

(** What [combine_scores] returns on scores in 0..5. *)
Lemma combine_scores_spec (air heat : Z) (t h hi : float)
    (profile : option Profile) :
  (0 <= air <= 5)%Z -> (0 <= heat <= 5)%Z ->
  let A := if at_risk profile then Z.min 5 (air + 1) else air in
  let H := if at_risk profile then Z.min 5 (heat + 1) else heat in
  let D := Spec.dehydration_score h hi (profile_age profile) in
  let O := Spec.overall_score A H D in
  B64.combine_scores air heat t h hi profile
  = Ok (mkScores (mkRiskScore (level_from_score A) A)
                 (mkRiskScore (level_from_score H) H)
                 (mkRiskScore (level_from_score D) D)
                 (mkRiskScore (level_from_score O) O)).
Proof.
  intros Ha Hh A H D O. unfold B64.combine_scores. cbv zeta.
  rewrite dehydration_risk_spec. cbn [score].
  rewrite overall_risk_spec.
  - reflexivity.
  - apply adjusted_bounds, Ha.
  - apply adjusted_bounds, Hh.
  - pose proof (dehydration_score_bounds h hi (profile_age profile)). lia.
Qed.

Lemma overall_score_bounds (a h d : Z) :
  (1 <= Spec.overall_score a h d <= 4)%Z.
Proof. apply clamp_bounds. Qed.

(** X12: the scores [health_risk] builds (heat index of the reading, then
    [score_air_pollution], [score_heat] and [combine_scores]) exist for
    every temperature, humidity, air-quality record and profile: no step
    raises.  The asthma and heat scores lie in 0..5, the dehydration and
    overall scores in 1..4, every level is that of its score, and on the
    overall score the rating computed in line is that of
    [score_to_rating]. *)
Theorem health_risk_scores_total
    (temp_c humidity : float) (raw_air : RawAirQuality float)
    (profile : option Profile) :
  exists sc,
    health_risk_scores temp_c humidity raw_air profile = Ok sc /\
    (0 <= score (asthma_risk sc) <= 5)%Z /\
    (0 <= score (heat_risk sc) <= 5)%Z /\
    (1 <= score (dehydration_risk sc) <= 4)%Z /\
    (1 <= score (overall_risk sc) <= 4)%Z /\
    health_risk_rating (score (overall_risk sc))
    = score_to_rating (score (overall_risk sc)) /\
    Spec.consistent (asthma_risk sc) /\ Spec.consistent (heat_risk sc) /\
    Spec.consistent (dehydration_risk sc) /\
    Spec.consistent (overall_risk sc).
Proof.
  rename humidity into hum. unfold health_risk_scores.
  pose proof (b64_heat_index_returns temp_c hum) as R.
  destruct (B64.compute_heat_index_c temp_c hum) as [hi_c|e];
    [clear R|discriminate].
  cbn [bind temperature_c heat_index_c]. unfold weather_humidity.
  cbn [humidity].
  pose proof (score_air_pollution_bounds (aqi raw_air) (pm25 raw_air)
                (o3 raw_air)) as [Ba _].
  pose proof (score_heat_bounds hi_c) as Bh.
  rewrite combine_scores_spec by assumption.
  eexists. split; [reflexivity|].
  cbn [asthma_risk heat_risk dehydration_risk overall_risk score level].
  split; [apply adjusted_bounds, Ba|].
  split; [apply adjusted_bounds, Bh|].
  split; [apply dehydration_score_bounds|].
  split; [apply overall_score_bounds|].
  split.
  { pose proof (overall_score_bounds
                  (if at_risk profile
                   then Z.min 5 (B64.score_air_pollution (aqi raw_air)
                                   (pm25 raw_air) (o3 raw_air) + 1)
                   else B64.score_air_pollution (aqi raw_air) (pm25 raw_air)
                          (o3 raw_air))
                  (if at_risk profile then Z.min 5 (B64.score_heat hi_c + 1)
                   else B64.score_heat hi_c)
                  (Spec.dehydration_score hum hi_c (profile_age profile)))
      as Bo.
    destruct (rating_cases (Spec.overall_score
                  (if at_risk profile
                   then Z.min 5 (B64.score_air_pollution (aqi raw_air)
                                   (pm25 raw_air) (o3 raw_air) + 1)
                   else B64.score_air_pollution (aqi raw_air) (pm25 raw_air)
                          (o3 raw_air))
                  (if at_risk profile then Z.min 5 (B64.score_heat hi_c + 1)
                   else B64.score_heat hi_c)
                  (Spec.dehydration_score hum hi_c (profile_age profile))))
      as [C|[C|[C|[C|C]]]]; destruct C as [C0 [C1 [C2 _]]];
      try lia; now rewrite C1, C2. }
  repeat split.
Qed.

(** X13: for component scores in 0..5, a profile never lowers a score of
    [combine_scores]: against the call without a profile, the asthma,
    heat and dehydration scores are the same or one more, and the overall
    score is not lower. *)
Theorem profile_never_lowers (air heat : Z) (t h hi : float)
    (profile : option Profile) :
  (0 <= air <= 5)%Z -> (0 <= heat <= 5)%Z ->
  exists sc0 sc1,
    B64.combine_scores air heat t h hi None = Ok sc0 /\
    B64.combine_scores air heat t h hi profile = Ok sc1 /\
    score (asthma_risk sc0) = air /\ score (heat_risk sc0) = heat /\
    (air <= score (asthma_risk sc1) <= air + 1)%Z /\
    (heat <= score (heat_risk sc1) <= heat + 1)%Z /\
    (score (dehydration_risk sc0) <= score (dehydration_risk sc1)
     <= score (dehydration_risk sc0) + 1)%Z /\
    (score (overall_risk sc0) <= score (overall_risk sc1))%Z.
Proof.
  intros Ha Hh.
  rewrite !combine_scores_spec by assumption.
  do 2 eexists. split; [reflexivity|]. split; [reflexivity|].
  cbn [asthma_risk heat_risk dehydration_risk overall_risk score level
       at_risk profile_age].
  split; [reflexivity|]. split; [reflexivity|].
  pose proof (adjusted_bounds (at_risk profile) air Ha) as [A1 A2].
  pose proof (adjusted_bounds (at_risk profile) heat Hh) as [H1 H2].
  pose proof (dehydration_score_age h hi (profile_age profile)) as Dg.
  pose proof (dehydration_score_bounds h hi None) as D0.
  pose proof (dehydration_score_bounds h hi (profile_age profile)) as D1.
  split; [exact A2|]. split; [exact H2|]. split; [exact Dg|].
  apply overall_score_monotone; lia.
Qed.

Lemma profile_never_lowers_witness :
  exists sc0 sc1,
    B64.combine_scores 2 3 35 75 33 None = Ok sc0 /\
    B64.combine_scores 2 3 35 75 33
      (Some (mkProfile (Some 70%Z) ["asthma"%string])) = Ok sc1 /\
    score (asthma_risk sc0) = 2%Z /\ score (heat_risk sc0) = 3%Z /\
    (2 <= score (asthma_risk sc1) <= 2 + 1)%Z /\
    (3 <= score (heat_risk sc1) <= 3 + 1)%Z /\
    (score (dehydration_risk sc0) <= score (dehydration_risk sc1)
     <= score (dehydration_risk sc0) + 1)%Z /\
    (score (overall_risk sc0) <= score (overall_risk sc1))%Z.
Proof.
  apply (profile_never_lowers 2 3 35 75 33
           (Some (mkProfile (Some 70%Z) ["asthma"%string]))); lia.
Defined.

(** ** The profile *)

Lemma age_and_ge_65_senior (a : option Z) :
  age_and_ge_65 a = Spec.is_senior a.
Proof.
  destruct a as [z|]; [|reflexivity]. unfold age_and_ge_65, int_truthy.
  cbn [Spec.is_senior].
  destruct (Z.eqb_spec z 0), (Z.leb_spec 65 z); cbn; try reflexivity; lia.
Qed.

Lemma has_keyword_app (k1 k2 conds : list string) :
  has_keyword (k1 ++ k2) conds = has_keyword k1 conds || has_keyword k2 conds.
Proof. unfold has_keyword, any_in. apply existsb_app. Qed.

Lemma at_risk_unfold (p : Profile) :
  at_risk (Some p)
  = has_keyword resp_keywords (conditions p)
    || has_keyword cardio_keywords (conditions p)
    || Spec.is_senior (age p).
Proof.
  unfold at_risk. rewrite has_keyword_app.
  destruct (has_keyword resp_keywords (conditions p)),
    (has_keyword cardio_keywords (conditions p)); cbn [orb];
    try reflexivity.
Qed.

Lemma fifth_is_not_one : (0.2 = 1 -> False).
Proof.
  intros E. assert (H : (0.2 <? 1) = true) by reflexivity.
  rewrite E in H. discriminate H.
Qed.

(** X14: the profile signals of [build_contributing_factors] are 0.2 or
    1.0, and [combine_scores] takes the profile to be at risk exactly
    when the asthma or the heat profile signal is 1.0.  The test
    [profile.age and profile.age >= 65] of the former is the test
    [age is not None and age >= 65] of the latter. *)
Theorem profile_signal_at_risk
    (raw_air : RawAirQuality float) (raw_weather : RawWeather float)
    (profile : option Profile) :
  let pa := snd (B64.asthma_signals raw_air profile) in
  let ph := snd (B64.heat_signals raw_weather profile) in
  (pa = 1 \/ pa = 0.2) /\ (ph = 1 \/ ph = 0.2) /\
  (at_risk profile = true <-> (pa = 1 \/ ph = 1)) /\
  (forall a, age_and_ge_65 a = true <-> exists z, a = Some z /\ (65 <= z)%Z).
Proof.
  cbv zeta. unfold B64.asthma_signals, B64.heat_signals. cbn [snd].
  split; [|split; [|split]].
  - destruct profile as [p|]; [|now right].
    destruct (_ || _); [now left|now right].
  - destruct profile as [p|]; [|now right].
    destruct (_ || _); [now left|now right].
  - destruct profile as [p|].
    + rewrite at_risk_unfold, !age_and_ge_65_senior.
      destruct (has_keyword resp_keywords (conditions p)),
        (has_keyword cardio_keywords (conditions p)),
        (Spec.is_senior (age p)); cbn [orb];
        split; intros H; auto;
        try discriminate H;
        destruct H as [H|H]; exfalso; exact (fifth_is_not_one H).
    + cbn [at_risk]. split; [discriminate|].
      intros [H|H]; exfalso; exact (fifth_is_not_one H).
  - intros a. rewrite age_and_ge_65_senior.
    destruct a as [z|]; cbn [Spec.is_senior].
    + rewrite Z.leb_le. split.
      * intros H. exists z. auto.
      * intros [z' [E H]]. inversion E. subst. exact H.
    + split; [discriminate|]. intros [z [E _]]. discriminate E.
Qed.

(** X15: a profile that is at risk stays at risk when conditions are
    added to it, in any order. *)
Theorem at_risk_more_conditions (a : option Z) (cs cs' : list string) :
  incl cs cs' ->
  at_risk (Some (mkProfile a cs)) = true ->
  at_risk (Some (mkProfile a cs')) = true.
Proof.
  intros Hi H. apply at_risk_spec in H. apply at_risk_spec.
  destruct H as [p [E [[z [Hz Hle]]|[c [Hc Hm]]]]]; inversion E; subst p;
    cbn [age conditions] in *.
  - exists (mkProfile a cs'). split; [reflexivity|]. left.
    exists z. auto.
  - exists (mkProfile a cs'). split; [reflexivity|]. right.
    exists c. split; [apply Hi, Hc|exact Hm].
Qed.

Lemma at_risk_more_conditions_witness :
  at_risk (Some (mkProfile None ["diabetes"; "COPD"]%string)) = true.
Proof.
  apply (at_risk_more_conditions None ["COPD"%string]
           ["diabetes"; "COPD"]%string).
  - intros c [E|[]]. subst c. right. left. reflexivity.
  - reflexivity.
Defined.

Lemma lower_ascii_idempotent (c : ascii) :
  lower_ascii (lower_ascii c) = lower_ascii c.
Proof.
  destruct c as [[] [] [] [] [] [] [] []]; reflexivity.
Qed.

Lemma lower_idempotent (s : string) : lower (lower s) = lower s.
Proof.
  induction s as [|c s IH]; [reflexivity|].
  cbn [lower]. now rewrite lower_ascii_idempotent, IH.
Qed.

Lemma has_keyword_lower (keywords conds : list string) :
  has_keyword keywords (map lower conds) = has_keyword keywords conds.
Proof.
  unfold has_keyword. rewrite map_map.
  f_equal. f_equal. apply map_ext. intros s. apply lower_idempotent.
Qed.

(** X16: lower-casing the condition labels of a profile changes neither
    the at-risk flag, nor the profile signals, nor the result of
    [combine_scores]. *)
Theorem profile_case_insensitive
    (a : option Z) (cs : list string)
    (raw_air : RawAirQuality float) (raw_weather : RawWeather float) :
  let p := Some (mkProfile a cs) in
  let q := Some (mkProfile a (map lower cs)) in
  at_risk q = at_risk p /\
  B64.asthma_signals raw_air q = B64.asthma_signals raw_air p /\
  B64.heat_signals raw_weather q = B64.heat_signals raw_weather p /\
  (forall air heat t h hi,
     B64.combine_scores air heat t h hi q
     = B64.combine_scores air heat t h hi p).
Proof.
  cbv zeta.
  assert (E : at_risk (Some (mkProfile a (map lower cs)))
              = at_risk (Some (mkProfile a cs))).
  { unfold at_risk. cbn [age conditions]. now rewrite has_keyword_lower. }
  split; [exact E|].
  split; [|split].
  - unfold B64.asthma_signals. cbn [age conditions].
    now rewrite has_keyword_lower.
  - unfold B64.heat_signals. cbn [age conditions].
    now rewrite has_keyword_lower.
  - intros. unfold B64.combine_scores. rewrite E. reflexivity.
Qed.

(** ** The hourly forecast *)

Section ForecastProperties.

Variable datetime : Type.
Variable fromtimestamp : Z -> result datetime.

Lemma forecast_loop_spec (air_score : Z) (profile : option Profile)
    (hourly : list Hourly) :
  (0 <= air_score <= 5)%Z ->
  (forall h dt, In h hourly -> complete h = true -> h_dt h = Some dt ->
     returns (fromtimestamp dt) = true) ->
  exists pts,
    forecast_loop fromtimestamp air_score profile hourly = Ok pts /\
    Forall2 (point_of fromtimestamp air_score profile) (filter complete hourly) pts.
Proof.
  intros Ha. induction hourly as [|h rest IH]; intros Hdt.
  - exists []. split; [reflexivity|constructor].
  - destruct IH as [pts [E F]].
    { intros h' dt Hin. apply Hdt. now right. }
    destruct h as [[t|] [hum|] [dt|]]; cbn [forecast_loop h_temp h_humidity h_dt filter complete];
      try (exists pts; split; [exact E|exact F]).
    pose proof (b64_heat_index_returns t hum) as R.
    destruct (B64.compute_heat_index_c t hum) as [hi_c|e];
      [clear R|discriminate].
    cbn [bind].
    rewrite combine_scores_spec by (try assumption; apply score_heat_bounds).
    cbn [bind].
    pose proof (Hdt (mkHourly (Some t) (Some hum) (Some dt)) dt
                  (or_introl eq_refl) eq_refl eq_refl) as T.
    destruct (fromtimestamp dt) as [tm|e] eqn:Et; [clear T|discriminate].
    cbn [bind]. rewrite E. cbn [bind].
    eexists. split; [reflexivity|].
    constructor; [|exact F].
    unfold point_of.
    cbn [time asthma_risk_level heat_risk_level overall_risk_score
         asthma_risk heat_risk overall_risk level score h_dt].
    split; [exists dt; auto|]. split; [reflexivity|].
    split; [|apply overall_score_bounds].
    apply level_rank_bounds.
Qed.

Lemma filter_length_bound {A : Type} (f : A -> bool) (l : list A) :
  (List.length (filter f l) <= List.length l)%nat.
Proof.
  induction l as [|x l IH]; [reflexivity|].
  cbn [filter]. destruct (f x); cbn [List.length]; lia.
Qed.

(** X17: the forecast loop of [health_risk], for a current air score in
    0..5 and timestamps that convert: it returns one point for each of
    the first 24 hourly entries that has temperature, humidity and
    timestamp, in their order, and so at most 24; each point carries the
    converted timestamp of its entry, the asthma level of the current air
    score (the same for every hour), a heat level of the engine and an
    overall score in 1..4. *)
Theorem forecast_returns_points (air_score : Z) (profile : option Profile)
    (hourly : list Hourly) :
  (0 <= air_score <= 5)%Z ->
  (forall h dt, In h (firstn 24 hourly) -> complete h = true ->
     h_dt h = Some dt -> returns (fromtimestamp dt) = true) ->
  exists pts,
    forecast fromtimestamp air_score profile hourly = Ok pts /\
    Forall2 (point_of fromtimestamp air_score profile)
            (filter complete (firstn 24 hourly)) pts /\
    (List.length pts <= 24)%nat.
Proof.
  intros Ha Hdt. unfold forecast.
  destruct (forecast_loop_spec air_score profile (firstn 24 hourly) Ha Hdt)
    as [pts [E F]].
  exists pts. split; [exact E|]. split; [exact F|].
  rewrite <- (Forall2_length F).
  pose proof (filter_length_bound complete (firstn 24 hourly)).
  pose proof (firstn_le_length 24 hourly). lia.
Qed.

End ForecastProperties.

Lemma forecast_returns_points_witness :
  exists pts,
    forecast (fun dt => Ok dt) 2 None
      [mkHourly (Some 30) (Some 50) (Some 1700000000%Z);
       mkHourly None (Some 50) (Some 1700003600%Z)] = Ok pts /\
    Forall2 (point_of (fun dt => Ok dt) 2 None)
      (filter complete
         (firstn 24 [mkHourly (Some 30) (Some 50) (Some 1700000000%Z);
                     mkHourly None (Some 50) (Some 1700003600%Z)])) pts /\
    (List.length pts <= 24)%nat.
Proof.
  apply (forecast_returns_points Z (fun dt => Ok dt) 2 None); [lia|].
  intros; reflexivity.
Defined.

Section ForecastFailure.

Variable datetime : Type.
Variable fromtimestamp : Z -> result datetime.

Lemma forecast_loop_skip (air_score : Z) (profile : option Profile)
    (h : Hourly) (before after : list Hourly) :
  complete h = false ->
  forecast_loop fromtimestamp air_score profile (before ++ h :: after)
  = forecast_loop fromtimestamp air_score profile (before ++ after).
Proof.
  intros Hc. induction before as [|x l IH].
  - cbn [app forecast_loop]. unfold complete in Hc.
    destruct (h_temp h), (h_humidity h), (h_dt h);
      try reflexivity; discriminate Hc.
  - cbn [app forecast_loop]. rewrite IH. reflexivity.
Qed.

Lemma forecast_loop_raise (air_score : Z) (profile : option Profile)
    (t hum : float) (dt : Z) (e : exn) (before after : list Hourly) :
  (0 <= air_score <= 5)%Z ->
  (forall h d, In h before -> complete h = true -> h_dt h = Some d ->
     returns (fromtimestamp d) = true) ->
  fromtimestamp dt = Raise e ->
  forecast_loop fromtimestamp air_score profile
    (before ++ mkHourly (Some t) (Some hum) (Some dt) :: after) = Raise e.
Proof.
  intros Ha Hb Et. induction before as [|x l IH].
  - cbn [app forecast_loop h_temp h_humidity h_dt].
    pose proof (b64_heat_index_returns t hum) as R.
    destruct (B64.compute_heat_index_c t hum) as [hi_c|e'];
      [clear R|discriminate].
    cbn [bind].
    rewrite combine_scores_spec by (try assumption; apply score_heat_bounds).
    cbn [bind]. rewrite Et. reflexivity.
  - assert (IH' : forecast_loop fromtimestamp air_score profile
                    (l ++ mkHourly (Some t) (Some hum) (Some dt) :: after)
                  = Raise e).
    { apply IH. intros h d Hin. apply Hb. now right. }
    cbn [app forecast_loop]. rewrite IH'.
    destruct x as [[xt|] [xh|] [xd|]]; cbn [h_temp h_humidity h_dt];
      try reflexivity.
    pose proof (b64_heat_index_returns xt xh) as R.
    destruct (B64.compute_heat_index_c xt xh) as [hi_c|e'];
      [clear R|discriminate].
    cbn [bind].
    rewrite combine_scores_spec by (try assumption; apply score_heat_bounds).
    cbn [bind].
    pose proof (Hb (mkHourly (Some xt) (Some xh) (Some xd)) xd
                  (or_introl eq_refl) eq_refl eq_refl) as T.
    destruct (fromtimestamp xd) as [tm|e'] eqn:Ex; [clear T|discriminate].
    reflexivity.
Qed.

(** X18: in the forecast loop, a timestamp that does not convert ends
    the whole forecast with its exception wherever its entry stands
    among the first 24, the entries before it having timestamps that
    convert; an entry that lacks any of its three fields is skipped,
    wherever it stands, but still counts among the 24 entries read. *)
Theorem forecast_bad_timestamp (air_score : Z) (profile : option Profile)
    (t hum : float) (dt : Z) (e : exn) (before after : list Hourly) :
  (0 <= air_score <= 5)%Z ->
  (List.length before < 24)%nat ->
  (forall h d, In h before -> complete h = true -> h_dt h = Some d ->
     returns (fromtimestamp d) = true) ->
  fromtimestamp dt = Raise e ->
  forecast fromtimestamp air_score profile
    (before ++ mkHourly (Some t) (Some hum) (Some dt) :: after) = Raise e /\
  (forall h l1 l2, complete h = false ->
     forecast_loop fromtimestamp air_score profile (l1 ++ h :: l2)
     = forecast_loop fromtimestamp air_score profile (l1 ++ l2)) /\
  (forall h rest, complete h = false ->
     forecast fromtimestamp air_score profile (h :: rest)
     = forecast_loop fromtimestamp air_score profile (firstn 23 rest)).
Proof.
  intros Ha Hlen Hb Et. split; [|split].
  - unfold forecast.
    rewrite firstn_app.
    rewrite (firstn_all2 (n := 24) before) by lia.
    destruct (24 - List.length before)%nat as [|k] eqn:Ek; [lia|].
    cbn [firstn]. now apply forecast_loop_raise.
  - intros h l1 l2 Hc. now apply forecast_loop_skip.
  - intros h rest Hc. unfold forecast.
    change (firstn 24 (h :: rest)) with (h :: firstn 23 rest).
    apply (forecast_loop_skip air_score profile h [] (firstn 23 rest) Hc).
Qed.

End ForecastFailure.

Lemma forecast_bad_timestamp_witness :
  forecast (fun dt => if (dt <? 0)%Z then Raise OverflowError else Ok dt)
    2 None
    ([mkHourly (Some 25%float) (Some 40%float) (Some 1700000000%Z);
      mkHourly None (Some 50%float) (Some 1700003600%Z)]
     ++ mkHourly (Some 30%float) (Some 50%float) (Some (-1)%Z) :: [])
  = Raise OverflowError /\
  (forall h l1 l2, complete h = false ->
     forecast_loop
       (fun dt => if (dt <? 0)%Z then Raise OverflowError else Ok dt)
       2 None (l1 ++ h :: l2)
     = forecast_loop
         (fun dt => if (dt <? 0)%Z then Raise OverflowError else Ok dt)
         2 None (l1 ++ l2)) /\
  (forall h rest, complete h = false ->
     forecast (fun dt => if (dt <? 0)%Z then Raise OverflowError else Ok dt)
       2 None (h :: rest)
     = forecast_loop
         (fun dt => if (dt <? 0)%Z then Raise OverflowError else Ok dt)
         2 None (firstn 23 rest)).
Proof.
  apply (forecast_bad_timestamp Z
           (fun dt => if (dt <? 0)%Z then Raise OverflowError else Ok dt)
           2 None 30%float 50%float (-1)%Z OverflowError
           [mkHourly (Some 25%float) (Some 40%float) (Some 1700000000%Z);
            mkHourly None (Some 50%float) (Some 1700003600%Z)] []).
  - lia.
  - simpl. lia.
  - intros h d [<-|[<-|[]]] Hc Hd; simpl in Hc, Hd; try discriminate Hc.
    injection Hd as <-. reflexivity.
  - reflexivity.
Defined.

(** ** A temperature that is not a number *)

Lemma nan_add_l (x : float) : nan + x = nan.
Proof. apply Prim2SF_inj. rewrite add_spec. reflexivity. Qed.

Lemma nan_sub_l (x : float) : nan - x = nan.
Proof. apply Prim2SF_inj. rewrite sub_spec. reflexivity. Qed.

Lemma heat_index_nan (humidity : float) :
  B64.compute_heat_index_c nan humidity = Ok nan.
Proof.
  unfold B64.compute_heat_index_c.
  change (nan * 9 / 5 + 32) with nan.
  change (nan <? 80) with false. cbv iota.
  change (80 <=? nan) with false. cbn [andb].
  rewrite !andb_false_r.
  change (-42.379 + 2.04901523 * nan) with nan.
  rewrite !nan_add_l, !nan_sub_l, !nan_add_l, !nan_sub_l.
  reflexivity.
Qed.

(** X19: with a temperature that is not a number, [health_risk] still
    builds its scores: the heat index is NaN, [score_heat] gives 5 and
    the heat risk is "Very High", while the dehydration score starts from
    its base 1 and is at most 3. *)
Theorem nan_temperature
    (humidity : float) (raw_air : RawAirQuality float)
    (profile : option Profile) :
  exists sc,
    health_risk_scores nan humidity raw_air profile = Ok sc /\
    heat_risk sc = mkRiskScore "Very High" 5 /\
    dehydration_risk sc
    = B64.compute_dehydration_risk nan humidity nan (profile_age profile) /\
    (score (dehydration_risk sc) <= 3)%Z.
Proof.
  rename humidity into hum. unfold health_risk_scores. rewrite heat_index_nan. cbn [bind].
  cbn [temperature_c heat_index_c]. unfold weather_humidity.
  cbn [humidity].
  pose proof (score_air_pollution_bounds (aqi raw_air) (pm25 raw_air)
                (o3 raw_air)) as [Ba _].
  change (B64.score_heat nan) with 5%Z.
  rewrite combine_scores_spec by (try assumption; lia).
  eexists. split; [reflexivity|].
  cbn [heat_risk dehydration_risk score].
  split; [destruct (at_risk profile); reflexivity|].
  split; [now rewrite dehydration_risk_spec|].
  unfold Spec.dehydration_score, Spec.dehydration_base, Spec.bump, Spec.clamp.
  change (38 <=? nan) with false. change (32 <=? nan) with false.
  change (27 <=? nan) with false. cbv iota.
  destruct (Spec.is_senior (profile_age profile)), (70 <=? hum);
    cbn; lia.
Qed.

(** ** Inputs that are not read *)

(** X20: [build_contributing_factors] reads neither the temperature, nor
    the AQI, nor PM10, nor the scores it is given; PM10 plays no part in
    the scores of [health_risk], and the temperature none in
    [combine_scores]. *)
Theorem unused_inputs
    (t t' h hi : float) (aqi aqi' : Z) (pm25 pm10 pm10' o3 : option float)
    (profile : option Profile) (scores scores' : Scores) :
  B64.build_contributing_factors
    (mkRawWeather t h hi) (mkRawAirQuality aqi pm25 pm10 o3) profile scores
  = B64.build_contributing_factors
      (mkRawWeather t' h hi) (mkRawAirQuality aqi' pm25 pm10' o3) profile
      scores' /\
  health_risk_scores t h (mkRawAirQuality aqi pm25 pm10 o3) profile
  = health_risk_scores t h (mkRawAirQuality aqi pm25 pm10' o3) profile /\
  (forall air heat,
     B64.combine_scores air heat t h hi profile
     = B64.combine_scores air heat t' h hi profile).
Proof. repeat split. Qed.

(** ** [_clamp01], value by value *)

Lemma SFleb_ltb_trans (x y z : spec_float) :
  SFleb x y = true -> SFltb y z = true -> SFltb x z = true.
Proof.
  unfold SFleb, SFltb, SFcompare.
  destruct x as [sx|sx| |sx mx ex], y as [sy|sy| |sy my ey],
    z as [sz|sz| |sz mz ez];
    try destruct sx; try destruct sy; try destruct sz;
    try reflexivity; try discriminate; sf_compare.
Qed.

Lemma float_leb_ltb_trans (x y z : float) :
  (x <=? y) = true -> (y <? z) = true -> (x <? z) = true.
Proof. rewrite !ltb_spec, leb_spec. apply SFleb_ltb_trans. Qed.

Lemma clamp01_unfold (x : float) :
  B64._clamp01 x = if x <? 1 then (if 0 <? x then x else 0) else 1.
Proof.
  unfold B64._clamp01, PyFloat.max, PyFloat.min.
  destruct (x <? 1); reflexivity.
Qed.

Lemma clamp01_low (x : float) : (x <=? 0) = true -> B64._clamp01 x = 0.
Proof.
  intros H. rewrite clamp01_unfold.
  rewrite (float_leb_ltb_trans x 0 1 H eq_refl).
  destruct (0 <? x) eqn:E; [|reflexivity].
  pose proof (float_ltb_leb_trans 0 x 0 E H) as C.
  vm_compute in C. discriminate C.
Qed.

Lemma clamp01_mid (x : float) :
  (0 <? x) = true -> (x <? 1) = true -> B64._clamp01 x = x.
Proof. intros H0 H1. rewrite clamp01_unfold. now rewrite H1, H0. Qed.

Lemma clamp01_high (x : float) : (1 <=? x) = true -> B64._clamp01 x = 1.
Proof.
  intros H. rewrite clamp01_unfold.
  destruct (x <? 1) eqn:E; [|reflexivity].
  pose proof (float_leb_ltb_trans 1 x 1 H E) as C.
  vm_compute in C. discriminate C.
Qed.

Lemma clamp01_idempotent (x : float) :
  B64._clamp01 (B64._clamp01 x) = B64._clamp01 x.
Proof.
  rewrite (clamp01_unfold x).
  destruct (x <? 1) eqn:E1; [|reflexivity].
  destruct (0 <? x) eqn:E0; [|reflexivity].
  now apply clamp01_mid.
Qed.

Lemma clamp01_monotone (x y : float) :
  (x <=? y) = true -> (B64._clamp01 x <=? B64._clamp01 y) = true.
Proof.
  intros H.
  assert (X1 : (B64._clamp01 x <=? 1) = true).
  { destruct (clamp01_signal x) as [->|[_ L]]; [reflexivity|exact L]. }
  rewrite (clamp01_unfold y) in *.
  destruct (y <? 1) eqn:Ey1; [|exact X1].
  pose proof (float_leb_ltb_trans x y 1 H Ey1) as Ex1.
  rewrite (clamp01_unfold x) in *. rewrite Ex1 in *.
  destruct (0 <? x) eqn:Ex0.
  - rewrite (float_ltb_leb_trans 0 x y Ex0 H). exact H.
  - destruct (0 <? y) eqn:Ey0; [now apply float_ltb_leb|reflexivity].
Qed.

(** X21: on binary64, [_clamp01] is idempotent and monotone for the
    order of the floats, is 0 for an argument up to 0, the argument
    itself strictly between 0 and 1, and 1 from 1 on. *)
Theorem clamp01_values :
  (forall x, B64._clamp01 (B64._clamp01 x) = B64._clamp01 x) /\
  (forall x y, (x <=? y) = true ->
               (B64._clamp01 x <=? B64._clamp01 y) = true) /\
  (forall x, (x <=? 0) = true -> B64._clamp01 x = 0) /\
  (forall x, (0 <? x) = true -> (x <? 1) = true -> B64._clamp01 x = x) /\
  (forall x, (1 <=? x) = true -> B64._clamp01 x = 1).
Proof.
  split; [exact clamp01_idempotent|]. split; [exact clamp01_monotone|].
  split; [exact clamp01_low|]. split; [exact clamp01_mid|exact clamp01_high].
Qed.

(** ** The percentages lie between 0 and 100 *)

Lemma tenth_range_table : forallb tenth_in_range (Zrange 0 1001) = true.
Proof. vm_compute. reflexivity. Qed.

Lemma tenths_in_range (y : Z) :
  (0 <= y <= 1000)%Z ->
  (0 <=? tenths y) && (tenths y <=? 100) = true.
Proof.
  intros Hy. pose proof tenth_range_table as T.
  rewrite forallb_forall in T.
  exact (T y (In_Zrange 0 y 1001 ltac:(lia))).
Qed.

Lemma dimension_in_range (s p : float * float * float) :
  dimension_ok s p -> in_range p = true.
Proof.
  destruct s as [[s1 s2] s3]. destruct p as [[p1 p2] p3].
  unfold dimension_ok. intros [Hz Hp].
  destruct (all_zero (s1, s2, s3)) eqn:Z.
  - destruct (Hz eq_refl) as [_ E]. injection E as -> -> ->. reflexivity.
  - destruct (Hp eq_refl)
      as [_ [_ [y1 [y2 [y3 [E [[R1 _] [[R2 _] [[R3 _] _]]]]]]]]].
    injection E as -> -> ->. unfold in_range.
    now rewrite !tenths_in_range.
Qed.

(** X22: on binary64, every percentage [build_contributing_factors]
    returns lies between 0 and 100, whatever the float readings; the
    function raises only [OverflowError]. *)
Theorem percentages_in_range
    (raw_weather : RawWeather float) (raw_air : RawAirQuality float)
    (profile : option Profile) (scores : Scores) :
  match B64.build_contributing_factors raw_weather raw_air profile scores with
  | Ok cf =>
    exists pa ph pd,
      cf = mkContributingFactors
             (B64.factors
                ("PM2.5", "Ozone (O3)", "Profile (asthma/age)")%string pa)
             (B64.factors
                ("Heat Index", "Humidity", "Profile (age/heart/resp.)")%string
                ph)
             (B64.factors
                ("Heat Index", "Humidity", "Age (65+)")%string pd) /\
      in_range pa = true /\ in_range ph = true /\ in_range pd = true
  | Raise e => e = OverflowError
  end.
Proof.
  destruct (age_fits_dec profile) as [Fit|[a [Ea Ha]]].
  - destruct (build_contributing_factors_spec raw_weather raw_air profile
                scores Fit) as [pa [ph [sd [pd [Ed [E [Ha [Hh Hd]]]]]]]].
    rewrite E. exists pa, ph, pd. split; [reflexivity|].
    split; [now apply (dimension_in_range _ _ Ha)|].
    split; [now apply (dimension_in_range _ _ Hh)|].
    now apply (dimension_in_range _ _ Hd).
  - now rewrite (build_overflow raw_weather raw_air profile scores a Ea Ha).
Qed.

(** ** The correction bands of the heat index *)

(** X23: on binary64, below 80 F the heat index does not depend on the
    humidity; the two correction bands exclude each other; above 112 F,
    and for a humidity that is not a number, no correction is applied. *)
Theorem correction_bands (temp_c R R' : float) :
  let T := fahrenheit_f temp_c in
  ((T <? 80) = true ->
   B64.compute_heat_index_c temp_c R' = B64.compute_heat_index_c temp_c R) /\
  (high_band T R = true -> low_band T R = false) /\
  ((112 <? T) = true ->
   B64.compute_heat_index_c temp_c R = Ok (celsius_f (regression T R))) /\
  (is_nan R = true -> low_band T R = false /\ high_band T R = false).
Proof.
  cbv zeta. split; [|split; [|split]].
  - intros H.
    destruct (heat_index_branches temp_c R) as [A _].
    destruct (heat_index_branches temp_c R') as [A' _].
    cbv zeta in A, A'. now rewrite A, A'.
  - apply bands_exclusive.
  - intros H.
    destruct (heat_index_branches temp_c R) as [_ [_ [_ D]]].
    cbv zeta in D. apply D.
    + destruct (fahrenheit_f temp_c <? 80) eqn:E; [|reflexivity].
      apply float_ltb_leb in E.
      pose proof (float_ltb_leb_trans _ _ _ H E) as C.
      vm_compute in C. discriminate C.
    + unfold low_band.
      destruct (fahrenheit_f temp_c <=? 112) eqn:E;
        [|now rewrite !andb_false_r].
      pose proof (float_ltb_leb_trans _ _ _ H E) as C.
      vm_compute in C. discriminate C.
    + unfold high_band.
      destruct (fahrenheit_f temp_c <=? 87) eqn:E;
        [|now rewrite !andb_false_r].
      pose proof (float_ltb_leb_trans _ _ _ H E) as C.
      vm_compute in C. discriminate C.
  - intros N. apply is_nan_nan in N. subst R. split; reflexivity.
Qed.

(** ** The age signal of the dehydration dimension *)

Lemma age_signal_table : forallb age_signal_ok (Zrange 0 151) = true.
Proof. vm_compute. reflexivity. Qed.

(** X24: on binary64, for an age in 0..150, the age signal of the
    dehydration dimension is 0 up to 40 and without an age (30 is
    taken), 1 from 70 on, and [(age - 40) / 30], strictly between 0 and
    1, in between. *)
Theorem age_signal (raw_weather : RawWeather float)
    (profile : option Profile) :
  (forall a, profile_age profile = Some a -> (0 <= a <= 150)%Z) ->
  exists s1 s2 s3,
    B64.dehydration_signals raw_weather profile = Ok (s1, s2, s3) /\
    (profile_age profile = None -> s3 = 0) /\
    (forall a, profile_age profile = Some a ->
       ((a <= 40)%Z -> s3 = 0) /\
       ((40 < a < 70)%Z ->
          s3 = PyFloat.nearest (a - 40) 1 / 30 /\
          (0 <? s3) = true /\ (s3 <? 1) = true) /\
       ((70 <= a)%Z -> s3 = 1)).
Proof.
  intros Hage. unfold B64.dehydration_signals.
  destruct (profile_age profile) as [a|] eqn:Ea.
  - specialize (Hage a eq_refl).
    rewrite of_int_returns.
    2:{ unfold PyFloat.int_overflow.
        assert (2 ^ 10 < 2 ^ 1024 - 2 ^ 970)%Z by (vm_compute; reflexivity).
        lia. }
    cbn [bind]. do 3 eexists. split; [reflexivity|].
    split; [intros C; discriminate C|].
    intros a' E. injection E as <-.
    pose proof age_signal_table as T. rewrite forallb_forall in T.
    specialize (T a (In_Zrange 0 a 151 ltac:(lia))).
    unfold age_signal_ok in T.
    set (x := PyFloat.nearest (a - 40) 1 / 30) in *.
    split; [|split]; intros Ha.
    + apply Z.leb_le in Ha. rewrite Ha in T.
      unfold B64._clamp01, PyFloat.max.
      destruct (0 <? PyFloat.min 1 x); [discriminate T|reflexivity].
    + assert (L1 : (a <=? 40)%Z = false) by (apply Z.leb_gt; lia).
      assert (L2 : (70 <=? a)%Z = false) by (apply Z.leb_gt; lia).
      rewrite L1, L2 in T. apply andb_true_iff in T. destruct T as [T0 T1].
      rewrite (clamp01_mid x T0 T1). auto.
    + assert (L1 : (a <=? 40)%Z = false) by (apply Z.leb_gt; lia).
      apply Z.leb_le in Ha. rewrite L1, Ha in T.
      rewrite clamp01_unfold.
      destruct (x <? 1); [discriminate T|reflexivity].
  - cbn [bind]. do 3 eexists. split; [reflexivity|].
    split; [intros _; vm_compute; reflexivity|].
    intros a E. discriminate E.
Qed.

Lemma age_signal_witness :
  exists s1 s2 s3,
    B64.dehydration_signals (mkRawWeather 30 50 31)
      (Some (mkProfile (Some 55%Z) [])) = Ok (s1, s2, s3) /\
    (profile_age (Some (mkProfile (Some 55%Z) [])) = None -> s3 = 0) /\
    (forall a, profile_age (Some (mkProfile (Some 55%Z) [])) = Some a ->
       ((a <= 40)%Z -> s3 = 0) /\
       ((40 < a < 70)%Z ->
          s3 = PyFloat.nearest (a - 40) 1 / 30 /\
          (0 <? s3) = true /\ (s3 <? 1) = true) /\
       ((70 <= a)%Z -> s3 = 1)).
Proof.
  apply (age_signal (mkRawWeather 30 50 31)
           (Some (mkProfile (Some 55%Z) []))).
  intros a E. simpl in E. injection E as <-. lia.
Defined.
